(** * make_adjustable_noise_mask.py: a shallow embedding and its properties

    The script records a sound sample, asks sox for its frequency statistics,
    derives a mean frequency, a standard deviation and a level in decibels, and
    then plays band noise whose gain follows the system mixer until Ctrl+C.

    Layout of this file:
    - [Py]      Python values the script computes with: exceptions, results,
                ints and binary64 floats, the string operations it calls;
    - [Np]      the NumPy kernels it calls (sum, mean, average), written over
                the arithmetic they use, which the script takes in binary64;
    - [Sys]     the world outside the process (mixer, sound server, files,
                processes, terminal, SIGINT) and the monad the script runs in;
    - [Script]  the functions of the script, one definition per [def];
    - the properties. *)

From Stdlib Require Import ZArith List String Ascii Bool Lia Floats Zpower.
From Stdlib Require Import DecimalString DecimalNat.
Import ListNotations.

Set Implicit Arguments.
Set Warnings "-inexact-float".

(* ================================================================== *)
(** * Python values *)
(* ================================================================== *)

Module Py.

(** The exceptions that can travel through the script. [KeyboardInterrupt] and
    [SystemExit] derive from [BaseException] only, so [except Exception] lets
    them through. *)
Inductive exn : Type :=
| IndexError (msg : string)
| ValueError (msg : string)
| OverflowError (msg : string)
| ZeroDivisionError (msg : string)
| TypeError (msg : string)
| FileNotFoundError (path : string)
| ProcessLookupError
| EOFError
| KeyboardInterrupt
| SystemExit (code : Z).

Definition is_Exception (e : exn) : bool :=
  match e with
  | KeyboardInterrupt | SystemExit _ => false
  | _ => true
  end.

(** A computation either returns or raises. *)
Inductive result (A : Type) : Type :=
| Ok (a : A)
| Raise (e : exn).
Arguments Ok {A} a.
Arguments Raise {A} e.

Definition rbind {A B} (r : result A) (k : A -> result B) : result B :=
  match r with
  | Ok a => k a
  | Raise e => Raise e
  end.

(** ** Numbers: unbounded ints and binary64 floats *)

Inductive pynum : Type :=
| PyInt (z : Z)
| PyFloat (f : float).

(** [float(z)]: the nearest binary64 value, ties to even; an int that rounds
    beyond the largest finite float raises [OverflowError]. *)
Definition Z2SF (z : Z) : spec_float := binary_normalize prec emax z 0 false.

Definition Z2F (z : Z) : float := SF2Prim (Z2SF z).

Definition int_to_float (z : Z) : result float :=
  match Z2SF z with
  | S754_infinity _ => Raise (OverflowError "int too large to convert to float")
  | x => Ok (SF2Prim x)
  end.

Definition py_float (x : pynum) : result float :=
  match x with
  | PyInt z => int_to_float z
  | PyFloat f => Ok f
  end.

(** [x == y] on numbers. Two floats compare as IEEE 754 says (so [0.0 == -0.0]
    and [nan != nan]); an int and a float compare by exact value, which for a
    float that is a whole number is the comparison of that number with the int. *)
Definition SF2Z_exact (x : spec_float) : option Z :=
  match x with
  | S754_zero _ => Some 0%Z
  | S754_finite s m e =>
      let v := if s then Z.neg m else Z.pos m in
      match e with
      | Z0 => Some v
      | Zpos p => Some (v * Z.pow_pos 2 p)%Z
      | Zneg p => if (v mod Z.pow_pos 2 p =? 0)%Z then Some (v / Z.pow_pos 2 p)%Z else None
      end
  | _ => None
  end.

Definition py_eq (x y : pynum) : bool :=
  match x, y with
  | PyInt a, PyInt b => (a =? b)%Z
  | PyFloat a, PyFloat b => PrimFloat.eqb a b
  | PyInt a, PyFloat b | PyFloat b, PyInt a =>
      match SF2Z_exact (Prim2SF b) with
      | Some z => (a =? z)%Z
      | None => false
      end
  end.

(** [x / y] (true division). The script only divides by a float literal. *)
Definition py_truediv (x y : pynum) : result pynum :=
  rbind (py_float x) (fun a =>
  rbind (py_float y) (fun b =>
  if PrimFloat.eqb b 0%float
  then Raise (ZeroDivisionError "float division by zero")
  else Ok (PyFloat (a / b)%float))).

(** ** Strings

    Mixer output is text; [string] holds its characters (code points below 256). *)

(** [s.split(c)] for a one-character separator: the pieces between occurrences,
    always at least one piece. *)
Fixpoint split_on (c : ascii) (s : string) : string * list string :=
  match s with
  | EmptyString => (EmptyString, [])
  | String a s' =>
      let (p, ps) := split_on c s' in
      if Ascii.eqb a c then (EmptyString, p :: ps) else (String a p, ps)
  end.

Definition str_split (c : ascii) (s : string) : list string :=
  let (p, ps) := split_on c s in p :: ps.

(** [l[i]] for [i >= 0]. *)
Definition py_index {A} (l : list A) (i : nat) : result A :=
  match nth_error l i with
  | Some a => Ok a
  | None => Raise (IndexError "list index out of range")
  end.

(** [sub in s]. *)
Fixpoint str_contains (sub s : string) : bool :=
  if String.prefix sub s then true
  else match s with
       | EmptyString => false
       | String _ s' => str_contains sub s'
       end.

(** [c in s] for one character. *)
Fixpoint has_char (c : ascii) (s : string) : bool :=
  match s with
  | EmptyString => false
  | String a s' => Ascii.eqb a c || has_char c s'
  end.

(** [str(n)] for a natural number, which is also how a percentage is printed. *)
Definition decimal (n : nat) : string := NilZero.string_of_uint (Nat.to_uint n).

(** [repr(s)]: the text between quotes, apostrophes unless the text has one
    and no double quote; the quote and the backslash get a backslash, tab,
    newline and return their letter, and every other character that does not
    print (below U+0020, U+007F to U+00A0, U+00AD) its two hexadecimal
    digits. *)
Definition apostrophe : ascii := ascii_of_nat 39.
Definition double_quote : ascii := ascii_of_nat 34.
Definition backslash : ascii := ascii_of_nat 92.

Definition hex_digit (n : nat) : ascii :=
  nth n (list_ascii_of_string "0123456789abcdef") "0"%char.

Definition repr_char (quote a : ascii) : list ascii :=
  let n := nat_of_ascii a in
  if Ascii.eqb a quote || Ascii.eqb a backslash then [backslash; a]
  else if (n =? 9)%nat then [backslash; "t"%char]
  else if (n =? 10)%nat then [backslash; "n"%char]
  else if (n =? 13)%nat then [backslash; "r"%char]
  else if ((n <? 32) || ((127 <=? n) && (n <=? 160)) || (n =? 173))%nat
       then [backslash; "x"%char; hex_digit (n / 16); hex_digit (n mod 16)]
  else [a].

Definition py_repr (s : string) : list ascii :=
  let quote :=
    if has_char apostrophe s && negb (has_char double_quote s)
    then double_quote else apostrophe in
  (quote :: flat_map (repr_char quote) (list_ascii_of_string s)) ++ [quote].

(** The two messages of [int]; [%.200R] keeps 200 characters of the [repr]. *)
Definition invalid_literal (s : string) : string :=
  "invalid literal for int() with base 10: "
  ++ string_of_list_ascii (firstn 200 (py_repr s)).

Definition max_str_digits : nat := 4300.

Definition too_many_digits (count : nat) : string :=
  "Exceeds the limit (" ++ decimal max_str_digits
  ++ " digits) for integer string conversion: value has " ++ decimal count
  ++ " digits; use sys.set_int_max_str_digits() to increase the limit".

(** [int(s)], base 10, as the interpreter reads a str. Every character from
    U+007F on is first taken to a blank when it is Unicode whitespace (U+0085
    and U+00A0 below U+0100); the first other one ends the text with a question
    mark in its place. Then blanks of the C locale are skipped, one sign is
    allowed, and the digits follow, with single underscores between them; the
    digits are counted against [sys.get_int_max_str_digits()], 4300 unless
    changed (CPython 3.11, and the security releases of the versions before
    it), before anything after them is looked at. *)
Definition is_space (a : ascii) : bool :=
  let n := nat_of_ascii a in
  ((9 <=? n) && (n <=? 13)) || (n =? 32).

Definition digit_of (a : ascii) : option Z :=
  let n := nat_of_ascii a in
  if (48 <=? n) && (n <=? 57) then Some (Z.of_nat (n - 48)) else None.

Fixpoint to_ascii (s : list ascii) : list ascii :=
  match s with
  | [] => []
  | a :: s' =>
      let n := nat_of_ascii a in
      if (n <? 127)%nat then a :: to_ascii s'
      else if ((n =? 133) || (n =? 160))%nat then " "%char :: to_ascii s'
      else ["?"%char]
  end.

Fixpoint lstrip (s : list ascii) : list ascii :=
  match s with
  | a :: s' => if is_space a then lstrip s' else s
  | [] => []
  end.

Inductive seen : Type := Nothing | Digit | Underscore.

Fixpoint scan_digits (acc : Z) (count : nat) (prev : seen) (s : list ascii)
  : option (Z * nat * list ascii) :=
  match s with
  | a :: s' =>
      match digit_of a with
      | Some d => scan_digits (10 * acc + d) (S count) Digit s'
      | None =>
          if Ascii.eqb a "_" then
            match prev with
            | Digit => scan_digits acc count Underscore s'
            | _ => None
            end
          else match prev with
               | Underscore => None
               | _ => Some (acc, count, s)
               end
      end
  | [] =>
      match prev with
      | Underscore => None
      | _ => Some (acc, count, [])
      end
  end.

Definition split_sign (text : list ascii) : bool * list ascii :=
  match text with
  | "-"%char :: r => (true, r)
  | "+"%char :: r => (false, r)
  | r => (false, r)
  end.

Definition py_int (s : string) : result Z :=
  let text := lstrip (to_ascii (list_ascii_of_string s)) in
  let '(negative, body) := split_sign text in
  match scan_digits 0 0 Nothing body with
  | None => Raise (ValueError (invalid_literal s))
  | Some (z, count, rest) =>
      if (count =? 0)%nat then Raise (ValueError (invalid_literal s))
      else if (max_str_digits <? count)%nat then Raise (ValueError (too_many_digits count))
      else match lstrip rest with
           | [] => Ok (if negative : bool then (- z)%Z else z)
           | _ => Raise (ValueError (invalid_literal s))
           end
  end.

End Py.
Import Py.

(* ================================================================== *)
(** * NumPy kernels *)
(* ================================================================== *)

Module Np.

(** The arithmetic the kernels are written over; the script runs them on
    binary64 ([float_arith]). *)
Class Arith (T : Type) : Type := {
  zero : T;
  add : T -> T -> T;
  mul : T -> T -> T;
  div : T -> T -> T;
  of_nat : nat -> T;
  is_zero : T -> bool
}.

#[export] Instance float_arith : Arith float := {
  zero := 0%float;
  add := PrimFloat.add;
  mul := PrimFloat.mul;
  div := PrimFloat.div;
  of_nat := fun n => Z2F (Z.of_nat n);
  is_zero := fun x => PrimFloat.eqb x 0%float
}.

Section Kernels.
Context {T : Type} `{Arith T}.

(** [res += a[i]] for each element in turn. *)
Definition sum_seq (res : T) (a : list T) : T := fold_left add a res.

Definition lanes : Type := (T * T * T * T * T * T * T * T)%type.

(** The unrolled loop of the pairwise sum: eight running sums, each fed by
    every eighth element, as long as a whole group of eight is left. *)
Fixpoint unrolled (r : lanes) (a : list T) : lanes * list T :=
  match a with
  | x0 :: x1 :: x2 :: x3 :: x4 :: x5 :: x6 :: x7 :: rest =>
      let '(r0, r1, r2, r3, r4, r5, r6, r7) := r in
      unrolled (add r0 x0, add r1 x1, add r2 x2, add r3 x3,
                add r4 x4, add r5 x5, add r6 x6, add r7 x7) rest
  | _ => (r, a)
  end.

Definition join (r : lanes) : T :=
  let '(r0, r1, r2, r3, r4, r5, r6, r7) := r in
  add (add (add r0 r1) (add r2 r3)) (add (add r4 r5) (add r6 r7)).

(** A block of 8 to 128 elements: the eight lanes start from the first eight
    elements, are joined as a balanced tree, and the elements left over after
    the last whole group are added one by one. *)
Definition block_sum (a : list T) : T :=
  match a with
  | x0 :: x1 :: x2 :: x3 :: x4 :: x5 :: x6 :: x7 :: rest =>
      let (r, tail) := unrolled (x0, x1, x2, x3, x4, x5, x6, x7) rest in
      sum_seq (join r) tail
  | _ => sum_seq zero a
  end.

(** NumPy's pairwise summation of a float array: fewer than 8 elements are
    added in order, up to 128 go through [block_sum], and a longer array is
    cut near its middle, at a multiple of 8, and its halves are summed the
    same way. [fuel] bounds the depth of the cuts; [length a] is enough since
    each cut at least halves the longer half's excess. *)
Fixpoint pairwise_sum (fuel : nat) (a : list T) : T :=
  let n := List.length a in
  if (n <? 8)%nat then sum_seq zero a
  else if (n <=? 128)%nat then block_sum a
  else match fuel with
       | O => block_sum a
       | S fuel' =>
           let n2 := (n / 2 - (n / 2) mod 8)%nat in
           add (pairwise_sum fuel' (firstn n2 a)) (pairwise_sum fuel' (skipn n2 a))
       end.

(** [np.sum(a)] of a one-dimensional array: the reduction starts from the
    identity of [add] and takes the pairwise sum of the elements. *)
Definition np_sum (a : list T) : T := add zero (pairwise_sum (List.length a) a).

(** [np.mean(a)]: the sum divided by the number of elements. *)
Definition np_mean (a : list T) : T := div (np_sum a) (of_nat (List.length a)).

(** [a * w], element by element (equal shapes). *)
Fixpoint multiply (a w : list T) : list T :=
  match a, w with
  | x :: a', y :: w' => mul x y :: multiply a' w'
  | _, _ => []
  end.

(** [np.average(a, weights=w)]. *)
Definition np_average (a w : list T) : result T :=
  if negb (List.length a =? List.length w)%nat then
    Raise (TypeError "Axis must be specified when shapes of a and weights differ.")
  else
    let scl := np_sum w in
    if is_zero scl then
      Raise (ZeroDivisionError "Weights sum to zero, can't be normalized")
    else Ok (div (np_sum (multiply a w)) scl).

End Kernels.

End Np.
Import Np.

(* ================================================================== *)
(** * The world outside the process *)
(* ================================================================== *)

Module Sys.

Inductive signal : Type := SIGTERM | SIGINT.

(** The command lines the script builds. Numbers stay numbers: how an f-string
    prints a float is not part of the model. *)
Inductive command : Type :=
| AmixerSgetMaster                       (* amixer sget Master *)
| SoxRecord (duration : Z)               (* sox -d data/input.wav trim 0 {duration} *)
| SoxSpectrogram                         (* sox data/input.wav -n spectrogram -o data/spectrum.png *)
| SoxStatFreq                            (* sox data/input.wav -n stat -freq ... > data/data.txt *)
| PlayNoiseOsx (mean sd vol_dB : float)  (* play -n synth noise band {mean} {sd} vol {vol}dB *)
| PlayNoise (mean sd vol_dB : float).    (* play -n trim 0.0 2.0 : synth noise band {mean} {sd} vol {vol}dB *)

Inductive printable : Type :=
| PStr (s : string)
| PInt (z : Z)
| PNum (f : float)
| PExn (e : exn).

(** What the process does to the world, in order. *)
Inductive event : Type :=
| EvRun (c : command)                         (* subprocess.run, waits for the command *)
| EvPopen (c : command) (pid : Z)             (* subprocess.Popen in a session of its own *)
| EvWait (pid : Z)
| EvSleep (ms : Z)
| EvPulseConnect (client : string)
| EvPulseClose
| EvSinkInputList
| EvVolumeSet (index : Z) (values : list pynum)
| EvKillpg (pgid : Z) (sig : signal)
| EvPrint (items : list printable)
| EvInput (prompt : string)
| EvMakedirs (path : string)
| EvCopy (src dst : string)
| EvLoadtxt (path : string).

(** A stream the sound server plays, as [pulsectl] shows it. *)
Record sink_input : Type := {
  si_index : Z;
  si_app_name : option string;    (* proplist.get("application.name") *)
  si_volume : list pynum          (* volume.values, one gain per channel *)
}.

Inductive proc_state : Type := Running | Terminated.

(** What the script does not decide. *)
Record host : Type := {
  platform : string;                      (* sys.platform *)
  amixer_out : nat -> string;             (* what the k-th run of amixer prints *)
  sox_stream : option sink_input;         (* the stream a started player shows up as
                                             by the next listing, if it does *)
  sox_stat : list (float * float);        (* the rows sox writes to data/data.txt *)
  timestamp : string;                     (* str(datetime.now().timestamp()) *)
  ctrl_c : option nat                     (* Ctrl+C arrives at the operation with this number *)
}.

Record world : Type := {
  host_of : host;
  stdin : list string;                    (* lines the operator has yet to type *)
  amixer_runs : nat;
  sinks : list sink_input;                (* the sound server's sink inputs *)
  procs : list (Z * proc_state);          (* the process groups that matter here *)
  next_pid : Z;
  data_dir : bool;                        (* data/ exists *)
  data_txt : option (list (float * float)); (* data/data.txt, when it is a file *)
  clock : nat;                            (* operations on the world so far *)
  noise_process : option Z;               (* the script's global *)
  trace : list event
}.

Definition set_stdin v w := {| host_of := host_of w; stdin := v; amixer_runs := amixer_runs w; sinks := sinks w; procs := procs w; next_pid := next_pid w; data_dir := data_dir w; data_txt := data_txt w; clock := clock w; noise_process := noise_process w; trace := trace w |}.
Definition set_amixer_runs v w := {| host_of := host_of w; stdin := stdin w; amixer_runs := v; sinks := sinks w; procs := procs w; next_pid := next_pid w; data_dir := data_dir w; data_txt := data_txt w; clock := clock w; noise_process := noise_process w; trace := trace w |}.
Definition set_sinks v w := {| host_of := host_of w; stdin := stdin w; amixer_runs := amixer_runs w; sinks := v; procs := procs w; next_pid := next_pid w; data_dir := data_dir w; data_txt := data_txt w; clock := clock w; noise_process := noise_process w; trace := trace w |}.
Definition set_procs v w := {| host_of := host_of w; stdin := stdin w; amixer_runs := amixer_runs w; sinks := sinks w; procs := v; next_pid := next_pid w; data_dir := data_dir w; data_txt := data_txt w; clock := clock w; noise_process := noise_process w; trace := trace w |}.
Definition set_next_pid v w := {| host_of := host_of w; stdin := stdin w; amixer_runs := amixer_runs w; sinks := sinks w; procs := procs w; next_pid := v; data_dir := data_dir w; data_txt := data_txt w; clock := clock w; noise_process := noise_process w; trace := trace w |}.
Definition set_data_dir v w := {| host_of := host_of w; stdin := stdin w; amixer_runs := amixer_runs w; sinks := sinks w; procs := procs w; next_pid := next_pid w; data_dir := v; data_txt := data_txt w; clock := clock w; noise_process := noise_process w; trace := trace w |}.
Definition set_data_txt v w := {| host_of := host_of w; stdin := stdin w; amixer_runs := amixer_runs w; sinks := sinks w; procs := procs w; next_pid := next_pid w; data_dir := data_dir w; data_txt := v; clock := clock w; noise_process := noise_process w; trace := trace w |}.
Definition set_clock v w := {| host_of := host_of w; stdin := stdin w; amixer_runs := amixer_runs w; sinks := sinks w; procs := procs w; next_pid := next_pid w; data_dir := data_dir w; data_txt := data_txt w; clock := v; noise_process := noise_process w; trace := trace w |}.
Definition set_noise_process v w := {| host_of := host_of w; stdin := stdin w; amixer_runs := amixer_runs w; sinks := sinks w; procs := procs w; next_pid := next_pid w; data_dir := data_dir w; data_txt := data_txt w; clock := clock w; noise_process := v; trace := trace w |}.
Definition set_trace v w := {| host_of := host_of w; stdin := stdin w; amixer_runs := amixer_runs w; sinks := sinks w; procs := procs w; next_pid := next_pid w; data_dir := data_dir w; data_txt := data_txt w; clock := clock w; noise_process := noise_process w; trace := v |}.

(** ** The monad: state, exceptions, and running out of steps

    [None] as outcome means the computation has not finished: a loop used up
    its fuel, or a call blocks for ever. *)
Definition M (A : Type) : Type := world -> option (result A) * world.

Definition ret {A} (a : A) : M A := fun w => (Some (Ok a), w).
Definition raise {A} (e : exn) : M A := fun w => (Some (Raise e), w).
Definition hang {A} : M A := fun w => (None, w).
Definition lift {A} (r : result A) : M A := fun w => (Some r, w).

Definition bind {A B} (c : M A) (k : A -> M B) : M B := fun w =>
  match c w with
  | (Some (Ok a), w') => k a w'
  | (Some (Raise e), w') => (Some (Raise e), w')
  | (None, w') => (None, w')
  end.

Declare Scope monad_scope.
Delimit Scope monad_scope with monad.
Notation "x <- c ;; k" := (bind c (fun x => k))
  (at level 61, c at next level, right associativity) : monad_scope.
Notation "' p <- c ;; k" := (bind c (fun x => let 'p := x in k))
  (at level 61, p pattern, c at next level, right associativity) : monad_scope.
Notation "c ;; k" := (bind c (fun _ => k))
  (at level 61, right associativity) : monad_scope.
Open Scope monad_scope.

(** [try: c  except <those e with handles e>: h e]. *)
Definition try_except {A} (c : M A) (handles : exn -> bool) (h : exn -> M A) : M A :=
  fun w =>
    match c w with
    | (Some (Raise e), w') => if handles e then h e w' else (Some (Raise e), w')
    | r => r
    end.

(** [c] followed by [cleanup] however [c] ends; the outcome is [c]'s unless the
    cleanup itself fails. *)
Definition finally {A} (c : M A) (cleanup : M unit) : M A := fun w =>
  match c w with
  | (Some r, w') =>
      match cleanup w' with
      | (Some (Ok _), w'') => (Some r, w'')
      | (Some (Raise e), w'') => (Some (Raise e), w'')
      | (None, w'') => (None, w'')
      end
  | (None, w') => (None, w')
  end.

(** [while True: body], where [body] answers [false] to [break]. *)
Fixpoint while_true (fuel : nat) (body : M bool) : M unit :=
  match fuel with
  | O => hang
  | S fuel' => go_on <- body ;; if go_on : bool then while_true fuel' body else ret tt
  end.

(** ** Operations on the world

    Operations are numbered as they happen. Ctrl+C is delivered at the
    operation whose number the host fixes: the handler installed by the script
    raises [KeyboardInterrupt] there, and that operation does not take place. *)
Definition interrupted (w : world) : bool :=
  match ctrl_c (host_of w) with
  | Some t => (t =? clock w)%nat
  | None => false
  end.

Definition tick : M unit := fun w =>
  (Some (if interrupted w then Raise KeyboardInterrupt else Ok tt),
   set_clock (S (clock w)) w).

Definition emit (e : event) : M unit := fun w =>
  (Some (Ok tt), set_trace (trace w ++ [e]) w).

Definition get {A} (f : world -> A) : M A := fun w => (Some (Ok (f w)), w).
Definition modify (f : world -> world) : M unit := fun w => (Some (Ok tt), f w).

(** [subprocess.run(["amixer", "sget", "Master"], stdout=PIPE).stdout.decode()]. *)
Definition run_amixer : M string :=
  tick ;; emit (EvRun AmixerSgetMaster) ;;
  k <- get amixer_runs ;;
  out <- get (fun w => amixer_out (host_of w) k) ;;
  modify (set_amixer_runs (S k)) ;;
  ret out.

(** [subprocess.run(cmd, shell=True)]: the exit status is not looked at. The
    statistics command leaves its table in data/data.txt. *)
Definition run_shell (c : command) : M unit :=
  tick ;; emit (EvRun c) ;;
  match c with
  | SoxStatFreq => modify (fun w => set_data_txt (Some (sox_stat (host_of w))) w)
  | _ => ret tt
  end.

(** [subprocess.Popen(cmd, shell=True, preexec_fn=os.setsid)]: the child leads
    a process group of its own, whose id is the child's pid. *)
Definition popen (c : command) : M Z :=
  tick ;;
  pid <- get next_pid ;;
  emit (EvPopen c pid) ;;
  modify (fun w => set_next_pid (pid + 1)%Z (set_procs ((pid, Running) :: procs w) w)) ;;
  match c with
  | PlayNoise _ _ _ =>
      modify (fun w => match sox_stream (host_of w) with
                       | Some si => set_sinks (sinks w ++ [si]) w
                       | None => w
                       end)
  | _ => ret tt
  end ;;
  ret pid.

Fixpoint proc_lookup (pid : Z) (ps : list (Z * proc_state)) : option proc_state :=
  match ps with
  | [] => None
  | (p, s) :: ps' => if (p =? pid)%Z then Some s else proc_lookup pid ps'
  end.

Fixpoint proc_update (pid : Z) (s : proc_state) (ps : list (Z * proc_state)) :=
  match ps with
  | [] => []
  | (p, s0) :: ps' =>
      if (p =? pid)%Z then (p, s) :: ps' else (p, s0) :: proc_update pid s ps'
  end.

Fixpoint proc_remove (pid : Z) (ps : list (Z * proc_state)) :=
  match ps with
  | [] => []
  | (p, s0) :: ps' => if (p =? pid)%Z then ps' else (p, s0) :: proc_remove pid ps'
  end.

Definition is_running (pid : Z) (w : world) : bool :=
  match proc_lookup pid (procs w) with
  | Some Running => true
  | _ => false
  end.

(** [os.killpg(os.getpgid(pid), sig)]. [getpgid] fails for a pid that is not in
    the process table; a group that gets SIGTERM terminates (the player does
    not block it) and stays in the table, unreaped. *)
Definition killpg_getpgid (pid : Z) (sig : signal) : M unit :=
  tick ;;
  ps <- get procs ;;
  match proc_lookup pid ps with
  | None => raise ProcessLookupError
  | Some _ =>
      emit (EvKillpg pid sig) ;;
      modify (fun w => set_procs (proc_update pid Terminated (procs w)) w)
  end.

(** [Popen.wait()]: returns once the child has ended, and reaps it. A running
    player never ends by itself, so the call blocks until Ctrl+C. *)
Definition wait (pid : Z) : M unit :=
  tick ;; emit (EvWait pid) ;;
  ps <- get procs ;;
  match proc_lookup pid ps with
  | Some Running =>
      now <- get clock ;;
      t <- get (fun w => ctrl_c (host_of w)) ;;
      match t with
      | Some t =>
          if (now <=? t)%nat then modify (set_clock (S t)) ;; raise KeyboardInterrupt
          else hang
      | None => hang
      end
  | _ => modify (fun w => set_procs (proc_remove pid (procs w)) w)
  end.

Definition sleep (ms : Z) : M unit := tick ;; emit (EvSleep ms).

Definition print (items : list printable) : M unit := tick ;; emit (EvPrint items).

(** [input(prompt)]: the next line of the terminal, [EOFError] when it is closed. *)
Definition input (prompt : string) : M string :=
  tick ;; emit (EvInput prompt) ;;
  l <- get stdin ;;
  match l with
  | [] => raise EOFError
  | line :: rest => modify (set_stdin rest) ;; ret line
  end.

Definition pulse_connect (client : string) : M unit := tick ;; emit (EvPulseConnect client).
Definition pulse_close : M unit := emit EvPulseClose.

(** [pulse.sink_input_list()]. *)
Definition sink_input_list : M (list sink_input) :=
  tick ;; emit EvSinkInputList ;; get sinks.

(** [pulse.volume_set(si, PulseVolumeInfo(values))]: the server takes the
    gains for the stream with [si]'s index. *)
Definition volume_set (si : sink_input) (values : list pynum) : M unit :=
  tick ;; emit (EvVolumeSet (si_index si) values) ;;
  modify (fun w =>
    set_sinks (map (fun s => if (si_index s =? si_index si)%Z
                             then {| si_index := si_index s;
                                     si_app_name := si_app_name s;
                                     si_volume := values |}
                             else s) (sinks w)) w).

Definition path_exists_data : M bool := tick ;; get data_dir.
Definition makedirs_data : M unit :=
  tick ;; emit (EvMakedirs "data") ;; modify (set_data_dir true).
Definition isfile_data_txt : M bool :=
  tick ;; get (fun w => match data_txt w with Some _ => true | None => false end).
Definition copy (src dst : string) : M unit := tick ;; emit (EvCopy src dst).

(** [frequency, amplitude = np.loadtxt("data/data.txt", unpack=True)]: the two
    columns of the table. A table without rows loads as an empty array, which
    cannot be unpacked into two names. *)
Definition loadtxt_unpack : M (list float * list float) :=
  tick ;; emit (EvLoadtxt "data/data.txt") ;;
  t <- get data_txt ;;
  match t with
  | None => raise (FileNotFoundError "data/data.txt")
  | Some [] => raise (ValueError "not enough values to unpack (expected 2, got 0)")
  | Some rows => ret (map fst rows, map snd rows)
  end.

(** The exit status of the interpreter for the way [main()] ended. *)
Definition exit_status (r : result unit) : Z :=
  match r with
  | Ok _ => 0
  | Raise (SystemExit code) => code
  | Raise KeyboardInterrupt => 130
  | Raise _ => 1
  end.

End Sys.
Import Sys.

(* ================================================================== *)
(** * The script *)
(* ================================================================== *)

Module Script.

Definition nl : string := String (ascii_of_nat 10) EmptyString.
Definition dq : string := String (ascii_of_nat 34) EmptyString.

Definition is_KeyboardInterrupt (e : exn) : bool :=
  match e with
  | KeyboardInterrupt => true
  | _ => false
  end.

Definition startswith (s p : string) : bool := String.prefix p s.

Section Script.

(** [np.log10] on binary64 is the C library's; the script is read for any
    such function. *)
Variable np_log10 : float -> float.

Definition get_system_volume : M (Z * bool) :=
  output <- run_amixer ;;
  volume <- lift (rbind (py_index (str_split "[" output) 1) (fun s =>
                  rbind (py_index (str_split "%" s) 0) py_int)) ;;
  let is_muted := str_contains "off" output in
  ret (volume, is_muted).

(** The parameter is overwritten by the value read from the mixer before it
    is ever used. *)
Definition set_system_volume (volume : Z) : M (Z * bool) :=
  output <- run_amixer ;;
  volume <- lift (rbind (py_index (str_split "[" output) 1) (fun s =>
                  rbind (py_index (str_split "%" s) 0) py_int)) ;;
  let is_muted := str_contains "off" output in
  ret (volume, is_muted).

Definition record_audio (duration : Z) : M unit :=
  run_shell (SoxRecord duration) ;;
  time_str <- get (fun w => timestamp (host_of w)) ;;
  copy "data/input.wav" ("data/input_" ++ time_str ++ ".wav").

Definition record_audio_osx (duration : Z) : M unit :=
  print [PStr "Recording "; PInt duration; PStr " seconds of audio..."] ;;
  let filename := "data/input.wav"%string in
  run_shell (SoxRecord duration) ;;
  print [PStr "Audio recorded and saved as "; PStr filename].

Definition generate_spectrogram : M unit :=
  print [PStr "Generating spectrogram..."] ;;
  run_shell SoxSpectrogram.

Definition fetch_audio_stats : M unit :=
  print [PStr "Fetching audio statistics..."] ;;
  run_shell SoxStatFreq.

Definition get_new_volume (volume_percentage : Z) (is_muted : bool) : result pynum :=
  if is_muted then Ok (PyInt 0)
  else py_truediv (PyInt volume_percentage) (PyFloat 100).

Definition set_volume (volume_percentage : Z) (is_muted : bool)
    (sox_sink_input : sink_input) : M unit :=
  new_volume <- lift (get_new_volume volume_percentage is_muted) ;;
  let new_volume_info :=
    repeat new_volume (List.length (si_volume sox_sink_input)) in
  volume_set sox_sink_input new_volume_info.

Definition identify_os (w : world) : string :=
  if startswith (platform (host_of w)) "darwin" then "OS X (macOS)"
  else if startswith (platform (host_of w)) "linux" then "Linux"
  else "Unsupported OS, feel free to open an issue here https://github.com/morganrivers/noise_masking".

(** [os.killpg(os.getpgid(noise_process.pid), SIGTERM)] inside
    [try ... except Exception as e: print(label, e)]. *)
Definition terminate_noise (pid : Z) (label : string) : M unit :=
  try_except (killpg_getpgid pid SIGTERM) is_Exception
    (fun e => print [PStr label; PExn e]).

Definition play_noise_osx (mean standard_deviation volume_dB : float) : M unit :=
  let volume_adjustment := volume_dB in
  print [PStr "Playing noise. Press Ctrl+C to stop."] ;;
  pid <- popen (PlayNoiseOsx mean standard_deviation volume_adjustment) ;;
  modify (set_noise_process (Some pid)) ;;
  try_except (wait pid) is_KeyboardInterrupt
    (fun e =>
       terminate_noise pid "Error terminating noise process:" ;;
       raise e).

(** [next((si for si in pulse.sink_input_list()
          if si.proplist.get("application.name") == "ALSA plug-in [sox]"), None)]. *)
Definition is_sox (si : sink_input) : bool :=
  match si_app_name si with
  | Some name => String.eqb name "ALSA plug-in [sox]"
  | None => false
  end.

Definition find_sox_sink_input : M (option sink_input) :=
  l <- sink_input_list ;; ret (find is_sox l).

(** The [try: while True: ... except KeyboardInterrupt: ...] block. *)
Definition adjust_loop (fuel : nat) (sox_sink_input : sink_input) : M unit :=
  try_except
    (while_true fuel
       ('(volume_percentage, is_muted) <- get_system_volume ;;
        set_volume volume_percentage is_muted sox_sink_input ;;
        sleep 500 ;;
        ret true))
    is_KeyboardInterrupt
    (fun e =>
       print [PStr "Exiting volume-adjust loop."] ;;
       np <- get noise_process ;;
       match np with
       | Some pid => terminate_noise pid "Error terminating noise process:"
       | None => ret tt
       end ;;
       raise e).

Definition play_and_adjust_volume (fuel : nat)
    (mean standard_deviation initial_volume_dB : float) : M unit :=
  pulse_connect "volume-adjuster" ;;
  finally
    ('(volume_percentage, is_muted) <- get_system_volume ;;
     sleep 200 ;;
     sox_sink_input <- find_sox_sink_input ;;
     sox_sink_input <-
       match sox_sink_input with
       | Some si => ret (Some si)
       | None =>
           let reduced_volume := (initial_volume_dB - 20)%float in
           pid <- popen (PlayNoise mean standard_deviation reduced_volume) ;;
           modify (set_noise_process (Some pid)) ;;
           sleep 200 ;;
           sox_sink_input <- find_sox_sink_input ;;
           match sox_sink_input with
           | Some si => ret (Some si)
           | None => print [PStr "Couldn't find sox stream in PulseAudio."] ;; ret None
           end
       end ;;
     match sox_sink_input with
     | None => ret tt
     | Some si =>
         set_volume volume_percentage is_muted si ;;
         adjust_loop fuel si
     end)
    pulse_close.

(** Lines 210 to 216 of [main]: what is computed from the two columns. *)
Definition statistics (frequency amplitude : list float)
  : result (float * float * float) :=
  let mean_amplitude := np_mean amplitude in
  let volume_dB := (10 * np_log10 mean_amplitude)%float in
  if PrimFloat.eqb (np_sum amplitude) 0%float then
    Raise (ValueError "Error: No audio input signal.")
  else
    rbind (np_average frequency amplitude) (fun mean =>
    rbind (np_average
             (map (fun f => ((f - mean) * (f - mean))%float) frequency)
             amplitude) (fun variance =>
    let standard_deviation := PrimFloat.sqrt variance in
    Ok (mean, standard_deviation, volume_dB))).

(** The [while True] around [input] in [main]. *)
Definition prompt_loop (fuel : nat) : M unit :=
  while_true fuel
    (user_input <- input ("Record new audio or use the old one? [r/o]" ++ nl) ;;
     if String.eqb user_input "r" then
       p <- get (fun w => platform (host_of w)) ;;
       (if startswith p "darwin" then record_audio_osx 10
        else if startswith p "linux" then record_audio 10
        else ret tt) ;;
       ret false
     else if String.eqb user_input "o" then
       print [PStr "Using old audio..."] ;;
       ret false
     else
       print [PStr ("Type " ++ dq ++ "r" ++ dq ++ " for record or " ++ dq ++ "o"
                    ++ dq ++ " for old. Please try again.")] ;;
       ret true).

(** The body of [main]'s [try], in its two stages: capture and analysis, up to
    the line that tells how to stop, and then playback. *)
Definition capture_and_analyse (fuel : nat) : M (float * float * float) :=
have_dir <- path_exists_data ;;
(if have_dir : bool then ret tt else makedirs_data) ;;
have_data <- isfile_data_txt ;;
(if have_data : bool then prompt_loop fuel else record_audio 10) ;;
generate_spectrogram ;;
fetch_audio_stats ;;
'(frequency, amplitude) <- loadtxt_unpack ;;
'(mean, standard_deviation, volume_dB) <- lift (statistics frequency amplitude) ;;
print [PStr (nl ++ "Mean Frequency:"); PNum mean] ;;
print [PStr "Standard Deviation:"; PNum standard_deviation] ;;
print [PStr "Volume (dB):"; PNum volume_dB] ;;
print [PStr "Press Ctrl+C to exit gracefully."] ;;
ret (mean, standard_deviation, volume_dB).

Definition main_body (fuel : nat) : M unit :=
'(mean, standard_deviation, volume_dB) <- capture_and_analyse fuel ;;
p <- get (fun w => platform (host_of w)) ;;
if startswith p "darwin" then play_noise_osx mean standard_deviation volume_dB
else if startswith p "linux" then
  play_and_adjust_volume fuel mean standard_deviation volume_dB
else ret tt.

Definition main (fuel : nat) : M unit :=
  try_except (main_body fuel) is_KeyboardInterrupt
    (fun _ =>
       print [PStr (nl ++ "Exiting gracefully...")] ;;
       np <- get noise_process ;;
       match np with
       | Some pid => terminate_noise pid "Error terminating noise process during exit:"
       | None => ret tt
       end ;;
       raise (SystemExit 0)).

End Script.

End Script.
Import Script.

(* ================================================================== *)
(** * Properties *)
(* ================================================================== *)

(** A stand-in for the C library's [log10], exact at 1, 10 and 100 as every
    C library is there; it serves to run the script on examples. *)
Definition log10_at_powers (x : float) : float :=
  if PrimFloat.eqb x 1 then 0%float
  else if PrimFloat.eqb x 10 then 1%float
  else if PrimFloat.eqb x 100 then 2%float
  else nan.

(** ** The gain sent to the sound server *)

Lemma get_new_volume_unmuted (volume_percentage : Z) :
  get_new_volume volume_percentage false
  = rbind (int_to_float volume_percentage) (fun x => Ok (PyFloat (x / 100)%float)).
Proof.
  unfold get_new_volume, py_truediv, py_float.
  destruct (int_to_float volume_percentage); reflexivity.
Qed.

(** C1. Muted, [get_new_volume] returns zero whatever the percentage: the int
    [0], which Python compares equal to [0.0] and converts to [0.0]. Unmuted,
    it returns the percentage, converted to a float, divided by [100.0]; at 100
    this is exactly [1.0] and at 50 exactly [0.5]. *)
Theorem get_new_volume_gain :
  forall volume_percentage : Z,
    get_new_volume volume_percentage true = Ok (PyInt 0)
    /\ py_eq (PyInt 0) (PyFloat 0) = true
    /\ py_float (PyInt 0) = Ok 0%float
    /\ get_new_volume volume_percentage false
       = py_truediv (PyInt volume_percentage) (PyFloat 100)
    /\ get_new_volume volume_percentage false
       = rbind (int_to_float volume_percentage)
               (fun x => Ok (PyFloat (x / 100)%float))
    /\ get_new_volume 100 false = Ok (PyFloat 1)
    /\ get_new_volume 50 false = Ok (PyFloat 0.5).
Proof.
  intro v. repeat split; try reflexivity.
Qed.

(** ** The statistics stage *)

(** C2. When the amplitude column sums to zero, the stage raises
    [ValueError("Error: No audio input signal.")] and yields no mean frequency
    or standard deviation; nothing computed before the test can fail. *)
Theorem statistics_no_signal :
  forall (np_log10 : float -> float) (frequency amplitude : list float),
    PrimFloat.eqb (np_sum amplitude) 0 = true ->
    statistics np_log10 frequency amplitude
    = Raise (ValueError "Error: No audio input signal.").
Proof.
  intros lg frequency amplitude Hsum.
  unfold statistics. rewrite Hsum. reflexivity.
Qed.

Lemma statistics_no_signal_witness :
  statistics log10_at_powers [100; 300]%float [0; 0]%float
  = Raise (ValueError "Error: No audio input signal.").
Proof.
  apply (@statistics_no_signal log10_at_powers [100; 300]%float [0; 0]%float).
  vm_compute. reflexivity.
Defined.

(** C4. For the table with rows (100 Hz, 1) and (300 Hz, 1) the stage computes
    mean frequency 200, standard deviation 100 and 0 dB, the mean amplitude
    being 1.0; [log10(1.0)] is [0.0] in every C library. *)
Theorem statistics_two_tones :
  forall np_log10 : float -> float,
    np_log10 1%float = 0%float ->
    let table := [(100, 1); (300, 1)]%float in
    statistics np_log10 (map fst table) (map snd table)
    = Ok (200, 100, 0)%float
    /\ np_mean (map snd table) = 1%float.
Proof.
  intros lg Hlg table. split.
  - unfold statistics. cbn [table map fst snd].
    replace (np_mean [1; 1]%float) with 1%float by (vm_compute; reflexivity).
    rewrite Hlg. vm_compute. reflexivity.
  - vm_compute. reflexivity.
Qed.

Lemma statistics_two_tones_witness :
  statistics log10_at_powers [100; 300]%float [1; 1]%float = Ok (200, 100, 0)%float
  /\ np_mean [1; 1]%float = 1%float.
Proof.
  apply (@statistics_two_tones log10_at_powers). vm_compute. reflexivity.
Defined.

(** ** Binary64 on whole numbers

    What the specification of the primitive floats gives for the two
    operations that are exact in the statistics of a table of whole-number
    amplitudes: adding two whole numbers below 2^53, and multiplying by one. *)

Lemma iter_pos_iter {A} (f : A -> A) (n : positive) :
  forall x : A, iter_pos f n x = Pos.iter f x n.
Proof.
  induction n as [n IH|n IH|]; intro x; cbn [iter_pos Pos.iter].
  - rewrite !IH, !Pos.iter_swap. reflexivity.
  - rewrite !IH. reflexivity.
  - reflexivity.
Qed.

Definition exact_record (m : positive) : shr_record :=
  {| shr_m := Zpos m; shr_r := false; shr_s := false |}.

(** Shifting right undoes shifting left, and nothing is lost. *)
Lemma shr_1_shift :
  forall j m : positive,
    Pos.iter shr_1 (exact_record (Pos.iter xO m j)) j = exact_record m.
Proof.
  intro j. induction j as [|j IH] using Pos.peano_ind; intro m.
  - reflexivity.
  - rewrite (@Pos.iter_succ_r j shr_record shr_1), (@Pos.iter_succ j positive xO).
    cbn [shr_1 exact_record orb]. apply IH.
Qed.

Lemma digits2_pos_shift (m k : positive) :
  digits2_pos (Pos.iter xO m k) = (digits2_pos m + k)%positive.
Proof.
  induction k as [|k IH] using Pos.peano_ind.
  - cbn. rewrite Pos.add_1_r. reflexivity.
  - rewrite Pos.iter_succ. cbn [digits2_pos]. rewrite IH, Pos.add_succ_r. reflexivity.
Qed.

Lemma shr_shift (m j : positive) (e n : Z) :
  (0 <= n)%Z ->
  shr (exact_record (Pos.iter xO m j)) (e - Zpos j) (n + Zpos j)
  = shr (exact_record m) e n.
Proof.
  intro Hn. destruct n as [|p|p]; [| |lia].
  - cbn [Z.add shr]. rewrite iter_pos_iter, shr_1_shift. f_equal. lia.
  - cbn [Z.add shr]. rewrite !iter_pos_iter, Pos.iter_add, shr_1_shift. f_equal. lia.
Qed.

Section Rounding.
Variables prec emax : Z.

(** A mantissa with room below it rounds as it does without the room. *)
Lemma binary_round_aux_shift (s : bool) (m j : positive) (e : Z) :
  (e <= fexp prec emax (Zpos (digits2_pos m) + e))%Z ->
  binary_round_aux prec emax s (Zpos (Pos.iter xO m j)) (e - Zpos j) loc_Exact
  = binary_round_aux prec emax s (Zpos m) e loc_Exact.
Proof.
  intro He. unfold binary_round_aux, shr_fexp at 1 3.
  cbn [Zdigits2 shr_record_of_loc]. rewrite digits2_pos_shift.
  replace (Zpos (digits2_pos m + j) + (e - Zpos j))%Z
    with (Zpos (digits2_pos m) + e)%Z by lia.
  replace (fexp prec emax (Zpos (digits2_pos m) + e) - (e - Zpos j))%Z
    with ((fexp prec emax (Zpos (digits2_pos m) + e) - e) + Zpos j)%Z by lia.
  change {| shr_m := Zpos (Pos.iter xO m j); shr_r := false; shr_s := false |}
    with (exact_record (Pos.iter xO m j)).
  rewrite shr_shift by lia. reflexivity.
Qed.

Lemma iter_xO_add (m p q : positive) :
  Pos.iter xO (Pos.iter xO m q) p = Pos.iter xO m (p + q).
Proof. rewrite Pos.iter_add. reflexivity. Qed.

(** Rounding looks at the value only: room below the mantissa, paid for in
    the exponent, changes nothing. *)
Lemma binary_round_shift (s : bool) (m k : positive) (e : Z) :
  binary_round prec emax s (Pos.iter xO m k) (e - Zpos k)
  = binary_round prec emax s m e.
Proof.
  unfold binary_round. rewrite digits2_pos_shift.
  replace (Zpos (digits2_pos m + k) + (e - Zpos k))%Z
    with (Zpos (digits2_pos m) + e)%Z by lia.
  set (E := fexp prec emax (Zpos (digits2_pos m) + e)).
  unfold shl_align.
  destruct (E - e)%Z as [|d|d] eqn:Hd.
  - replace (E - (e - Zpos k))%Z with (Zpos k) by lia.
    apply binary_round_aux_shift. fold E. lia.
  - replace (E - (e - Zpos k))%Z with (Zpos (d + k)) by lia.
    apply binary_round_aux_shift. fold E. lia.
  - destruct (E - (e - Zpos k))%Z as [|d'|d'] eqn:Hd'.
    + assert (k = d) by lia. subst d.
      replace (e - Zpos k)%Z with E by lia. reflexivity.
    + replace (e - Zpos k)%Z with (E - Zpos d')%Z by lia.
      replace k with (d' + d)%positive by lia.
      rewrite <- iter_xO_add.
      apply binary_round_aux_shift.
      rewrite digits2_pos_shift.
      replace (Zpos (digits2_pos m + d) + E)%Z with (Zpos (digits2_pos m) + e)%Z by lia.
      fold E. lia.
    + rewrite iter_xO_add. replace (d' + k)%positive with d by lia. reflexivity.
Qed.

(** A canonical mantissa is left as it is. *)
Lemma binary_round_aux_canonical (s : bool) (m : positive) (e : Z) :
  bounded prec emax m e = true ->
  binary_round_aux prec emax s (Zpos m) e loc_Exact = S754_finite s m e.
Proof.
  unfold bounded, canonical_mantissa. intro H.
  apply andb_true_iff in H. destruct H as [Hc Hb].
  apply Z.eqb_eq in Hc.
  unfold binary_round_aux, shr_fexp. cbn [Zdigits2 shr_record_of_loc].
  rewrite Hc, Z.sub_diag. cbn [shr shr_m loc_of_shr_record round_nearest_even Zdigits2
                               shr_record_of_loc].
  rewrite Hc, Z.sub_diag. cbn [shr shr_m]. rewrite Hb. reflexivity.
Qed.

End Rounding.

Lemma digits2_pos_le (p : positive) :
  forall n : Z, (Zpos p < 2 ^ n)%Z -> (Zpos (digits2_pos p) <= n)%Z.
Proof.
  assert (Hpow : forall n : Z, (n <= 0)%Z -> (2 ^ n <= 1)%Z).
  { intros n Hn. destruct n as [|q|q]; [cbn; lia | lia | cbn; lia]. }
  assert (Hsucc : forall n : Z, (1 <= n)%Z -> (2 ^ n = 2 * 2 ^ (n - 1))%Z).
  { intros n Hn. rewrite <- Z.pow_succ_r by lia. f_equal. lia. }
  induction p as [p IH|p IH|]; intros n Hlt; cbn [digits2_pos].
  - destruct (Z_le_gt_dec n 0) as [H0|H0]; [pose proof (Hpow n H0); lia|].
    rewrite Hsucc in Hlt by lia. specialize (IH (n - 1)%Z). lia.
  - destruct (Z_le_gt_dec n 0) as [H0|H0]; [pose proof (Hpow n H0); lia|].
    rewrite Hsucc in Hlt by lia. specialize (IH (n - 1)%Z). lia.
  - destruct (Z_le_gt_dec n 0) as [H0|H0]; [pose proof (Hpow n H0); lia | lia].
Qed.

Lemma fexp_small (d : Z) : (-1021 <= d)%Z -> fexp prec emax d = (d - 53)%Z.
Proof. intro H. unfold fexp, emin, prec, emax. lia. Qed.

Lemma digits2_pos_lt (p : positive) : (Zpos p < 2 ^ Zpos (digits2_pos p))%Z.
Proof.
  induction p as [p IH|p IH|]; cbn [digits2_pos]; [| |cbn; lia];
    rewrite Pos2Z.inj_succ, Z.pow_succ_r by lia; lia.
Qed.

Lemma digits2_pos_mul (q b : positive) :
  (Zpos (digits2_pos (q * b)) <= Zpos (digits2_pos q) + Zpos (digits2_pos b))%Z.
Proof.
  apply digits2_pos_le. rewrite Z.pow_add_r by lia.
  pose proof (digits2_pos_lt q). pose proof (digits2_pos_lt b).
  rewrite Pos2Z.inj_mul. nia.
Qed.

(** [float(p)] for a whole number below 2^53: the number itself, with its
    mantissa moved up to 53 digits. *)
Lemma Z2SF_normal (p : positive) :
  (Zpos p < 2 ^ 53)%Z ->
  exists m : positive,
    Z2SF (Zpos p) = S754_finite false m (Zpos (digits2_pos p) - 53)
    /\ Zpos m = (Zpos p * 2 ^ (53 - Zpos (digits2_pos p)))%Z
    /\ Zpos (digits2_pos m) = 53%Z
    /\ bounded prec emax m (Zpos (digits2_pos p) - 53) = true.
Proof.
  intro Hlt. pose proof (@digits2_pos_le p 53 Hlt) as Hd.
  unfold Z2SF, binary_normalize, binary_round, shl_align.
  rewrite fexp_small by lia. rewrite Z.add_0_r, Z.sub_0_r.
  destruct (Zpos (digits2_pos p) - 53)%Z as [|q|q] eqn:E; [|lia|].
  - assert (Hb : bounded prec emax p 0 = true).
    { unfold bounded, canonical_mantissa. rewrite fexp_small by lia.
      rewrite Z.add_0_r, E. reflexivity. }
    exists p. rewrite (@binary_round_aux_canonical prec emax false _ _ Hb).
    replace (53 - Zpos (digits2_pos p))%Z with 0%Z by lia.
    repeat split; [lia | lia | exact Hb].
  - assert (Hb : bounded prec emax (Pos.iter xO p q) (Zneg q) = true).
    { unfold bounded, canonical_mantissa. rewrite digits2_pos_shift, fexp_small by lia.
      apply andb_true_iff. split; [apply Z.eqb_eq | apply Z.leb_le; unfold emax, prec]; lia. }
    exists (Pos.iter xO p q).
    rewrite (@binary_round_aux_canonical prec emax false _ _ Hb).
    replace (53 - Zpos (digits2_pos p))%Z with (Zpos q) by lia.
    repeat split; [| rewrite digits2_pos_shift; lia | exact Hb].
    change (Pos.iter xO p q) with (shift_pos q p).
    rewrite shift_pos_correct. change (2 ^ Zpos q)%Z with (Z.pow_pos 2 q). lia.
Qed.

Lemma Z2SF_small (p : positive) :
  (Zpos p < 2 ^ 53)%Z ->
  exists (m : positive) (k : Z),
    (0 <= k)%Z
    /\ Z2SF (Zpos p) = S754_finite false m (- k)
    /\ Zpos m = (Zpos p * 2 ^ k)%Z
    /\ bounded prec emax m (- k) = true.
Proof.
  intro Hlt. pose proof (@digits2_pos_le p 53 Hlt) as Hd.
  destruct (Z2SF_normal Hlt) as (m & E & V & _ & B).
  exists m, (53 - Zpos (digits2_pos p))%Z.
  replace (- (53 - Zpos (digits2_pos p)))%Z with (Zpos (digits2_pos p) - 53)%Z by lia.
  repeat split; [lia | exact E | exact V | exact B].
Qed.

Lemma Z2SF_valid (a : Z) :
  (0 <= a < 2 ^ 53)%Z -> valid_binary (Z2SF a) = true.
Proof.
  intros [H0 Hlt]. destruct a as [|p|p]; [reflexivity | | lia].
  destruct (@Z2SF_small _ Hlt) as (m & k & _ & -> & _ & Hb). exact Hb.
Qed.

Lemma shl_align_value (m : positive) (e e' : Z) :
  (e' <= e)%Z -> Zpos (fst (shl_align m e e')) = (Zpos m * 2 ^ (e - e'))%Z.
Proof.
  intro Hle. unfold shl_align. destruct (e' - e)%Z as [|d|d] eqn:E; [|lia|].
  - replace (e - e')%Z with 0%Z by lia. cbn [fst]. lia.
  - cbn [fst]. change (Pos.iter xO m d) with (shift_pos d m).
    rewrite shift_pos_correct. replace (e - e')%Z with (Zpos d) by lia.
    change (2 ^ Zpos d)%Z with (Z.pow_pos 2 d). lia.
Qed.

(** Two whole numbers below 2^53 add to the float of their sum. *)
Lemma Z2SF_add (a b : Z) :
  (0 <= a < 2 ^ 53)%Z -> (0 <= b < 2 ^ 53)%Z ->
  SF64add (Z2SF a) (Z2SF b) = Z2SF (a + b).
Proof.
  intros [Ha0 Ha] [Hb0 Hb].
  destruct a as [|pa|pa]; [|clear Ha0|lia].
  { destruct b as [|pb|pb]; [reflexivity | | lia].
    destruct (@Z2SF_small _ Hb) as (m & k & _ & E & _). cbn [Z.add].
    rewrite E. reflexivity. }
  destruct b as [|pb|pb]; [|clear Hb0|lia].
  { destruct (@Z2SF_small _ Ha) as (m & k & _ & E & _). rewrite Z.add_0_r.
    rewrite E. reflexivity. }
  destruct (@Z2SF_small _ Ha) as (m1 & k1 & Hk1 & E1 & V1 & _).
  destruct (@Z2SF_small _ Hb) as (m2 & k2 & Hk2 & E2 & V2 & _).
  rewrite E1, E2. unfold SF64add, SFadd. cbn [cond_Zopp].
  set (ez := Z.min (- k1) (- k2)).
  rewrite !shl_align_value by (unfold ez; lia).
  rewrite V1, V2, <- !Z.mul_assoc, <- !Z.pow_add_r by (unfold ez; lia).
  replace (k1 + (- k1 - ez))%Z with (- ez)%Z by lia.
  replace (k2 + (- k2 - ez))%Z with (- ez)%Z by lia.
  rewrite <- Z.mul_add_distr_r. change (Zpos pa + Zpos pb)%Z with (Zpos (pa + pb)).
  assert (Hez : (ez <= 0)%Z) by (unfold ez; lia).
  destruct ez as [|q|q]; [|lia|].
  - cbn [Z.opp Z.pow]. rewrite Z.mul_1_r. reflexivity.
  - change (- Zneg q)%Z with (Zpos q). change (2 ^ Zpos q)%Z with (Z.pow_pos 2 q).
    rewrite Z.mul_comm, <- shift_pos_correct. unfold shift_pos.
    unfold Z2SF, binary_normalize.
    change (Zneg q) with (0 - Zpos q)%Z.
    apply binary_round_shift.
Qed.

Lemma Z2F_add (a b : Z) :
  (0 <= a < 2 ^ 53)%Z -> (0 <= b < 2 ^ 53)%Z ->
  (Z2F a + Z2F b)%float = Z2F (a + b).
Proof.
  intros Ha Hb. rewrite <- (SF2Prim_Prim2SF (Z2F a + Z2F b)), FloatAxioms.add_spec.
  unfold Z2F at 1 2. rewrite !Prim2SF_SF2Prim by (apply Z2SF_valid; assumption).
  rewrite Z2SF_add by assumption. reflexivity.
Qed.

Lemma Z2F_nonzero (a : Z) :
  (0 < a < 2 ^ 53)%Z -> PrimFloat.eqb (Z2F a) 0 = false.
Proof.
  intros [H0 Hlt]. destruct a as [|p|p]; [lia | | lia].
  rewrite FloatAxioms.eqb_spec. unfold Z2F.
  rewrite Prim2SF_SF2Prim by (apply Z2SF_valid; lia).
  destruct (@Z2SF_small _ Hlt) as (m & k & _ & -> & _). reflexivity.
Qed.


Lemma new_location_exact (n : Z) : new_location n 0 = loc_Exact.
Proof. unfold new_location. destruct (Z.even n); reflexivity. Qed.

(** Dividing a whole multiple by its factor gives the float of the quotient. *)
Lemma Z2SF_div (q b : positive) :
  (Zpos (q * b) < 2 ^ 53)%Z ->
  SF64div (Z2SF (Zpos (q * b))) (Z2SF (Zpos b)) = Z2SF (Zpos q).
Proof.
  intro Hlt.
  assert (Hb : (Zpos b < 2 ^ 53)%Z) by (rewrite Pos2Z.inj_mul in Hlt; nia).
  assert (Hq : (Zpos q < 2 ^ 53)%Z) by (rewrite Pos2Z.inj_mul in Hlt; nia).
  destruct (Z2SF_normal Hlt) as (m1 & E1 & V1 & D1 & _).
  destruct (Z2SF_normal Hb) as (m2 & E2 & V2 & D2 & _).
  pose proof (@digits2_pos_le (q * b) 53 Hlt) as Hd1.
  pose proof (@digits2_pos_le b 53 Hb) as Hd2.
  pose proof (@digits2_pos_le q 53 Hq) as Hd3.
  pose proof (digits2_pos_mul q b) as Hdm.
  set (d1 := Zpos (digits2_pos (q * b))) in *.
  set (d2 := Zpos (digits2_pos b)) in *.
  set (d3 := Zpos (digits2_pos q)) in *.
  assert (Hd1p : (1 <= d1)%Z) by (unfold d1; lia).
  assert (Hd2p : (1 <= d2)%Z) by (unfold d2; lia).
  assert (Hd3p : (1 <= d3)%Z) by (unfold d3; lia).
  rewrite E1, E2. unfold SF64div, SFdiv, SFdiv_core_binary.
  cbn [Zdigits2 xorb]. rewrite D1, D2.
  replace (53 + (d1 - 53) - (53 + (d2 - 53)))%Z with (d1 - d2)%Z by lia.
  rewrite fexp_small by lia.
  replace (Z.min (d1 - d2 - 53) (d1 - 53 - (d2 - 53)))%Z with (d1 - d2 - 53)%Z by lia.
  replace (d1 - 53 - (d2 - 53) - (d1 - d2 - 53))%Z with 53%Z by lia.
  set (j := (53 - d1 + d2)%Z).
  assert (Hj : (1 <= j)%Z) by (unfold j; lia).
  assert (Hm : Z.shiftl (Zpos m1) 53 = (Zpos q * 2 ^ j * Zpos m2)%Z).
  { rewrite Z.shiftl_mul_pow2 by lia. rewrite V1, V2, Pos2Z.inj_mul.
    unfold j. rewrite <- !Z.mul_assoc. f_equal.
    rewrite (Z.mul_comm (2 ^ (53 - d1 + d2))), <- !Z.mul_assoc. f_equal.
    rewrite <- !Z.pow_add_r by lia. f_equal. lia. }
  rewrite Hm.
  assert (Hdiv : Z.div_eucl (Zpos q * 2 ^ j * Zpos m2) (Zpos m2) = ((Zpos q * 2 ^ j)%Z, 0%Z)).
  { pose proof (Z.div_mul (Zpos q * 2 ^ j) (Zpos m2)) as Hdv.
    pose proof (Z.mod_mul (Zpos q * 2 ^ j) (Zpos m2)) as Hmd.
    unfold Z.div, Z.modulo in Hdv, Hmd.
    destruct (Z.div_eucl (Zpos q * 2 ^ j * Zpos m2) (Zpos m2)) as [q0 r0].
    rewrite Hdv, Hmd by lia. reflexivity. }
  rewrite Hdiv, new_location_exact.
  destruct j as [|jp|jp] eqn:Ej; [lia | | lia].
  change (2 ^ Zpos jp)%Z with (Z.pow_pos 2 jp).
  rewrite Z.mul_comm, <- shift_pos_correct. unfold shift_pos.
  replace (d1 - d2 - 53)%Z with (0 - Zpos jp)%Z by lia.
  unfold Z2SF, binary_normalize.
  rewrite <- (@binary_round_shift prec emax false q jp 0).
  unfold binary_round, shl_align. rewrite digits2_pos_shift.
  rewrite fexp_small by lia.
  fold d3.
  destruct (Zpos (digits2_pos q + jp) + (0 - Zpos jp) - 53 - (0 - Zpos jp))%Z eqn:Es;
    try reflexivity.
  exfalso. fold d3 in Es. lia.
Qed.

Lemma Z2F_div (q b : Z) :
  (0 < q)%Z -> (0 < b)%Z -> (q * b < 2 ^ 53)%Z ->
  (Z2F (q * b) / Z2F b)%float = Z2F q.
Proof.
  intros Hq Hb Hlt.
  destruct q as [|q|q]; [lia| |lia]. destruct b as [|b|b]; [lia| |lia].
  rewrite <- (SF2Prim_Prim2SF (Z2F (Zpos q * Zpos b) / Z2F (Zpos b))), FloatAxioms.div_spec.
  unfold Z2F at 1 2. rewrite !Prim2SF_SF2Prim by (apply Z2SF_valid; nia).
  change (Zpos q * Zpos b)%Z with (Zpos (q * b)).
  rewrite Z2SF_div by exact Hlt. reflexivity.
Qed.

(** ** The kernels on whole numbers

    Where adding two small whole numbers is exact, the sums of the kernels are
    the whole-number sums, whatever the order they add in. *)

Section WholeNumbers.
Context {T : Type} `{Arith T}.
Variable small : nat -> Prop.
Hypothesis small_le : forall a b : nat, (a <= b)%nat -> small b -> small a.
Hypothesis add_of_nat :
  forall a b : nat, small a -> small b -> add (of_nat a) (of_nat b) = of_nat (a + b).
Hypothesis zero_of_nat : zero = of_nat 0.

Definition lanes_of (r : nat * nat * nat * nat * nat * nat * nat * nat) : lanes :=
  let '(r0, r1, r2, r3, r4, r5, r6, r7) := r in
  (of_nat r0, of_nat r1, of_nat r2, of_nat r3, of_nat r4, of_nat r5, of_nat r6, of_nat r7).

Definition lanes_total (r : nat * nat * nat * nat * nat * nat * nat * nat) : nat :=
  let '(r0, r1, r2, r3, r4, r5, r6, r7) := r in
  (r0 + r1 + r2 + r3 + r4 + r5 + r6 + r7)%nat.

Lemma list_sum_cons (a : nat) (l : list nat) : list_sum (a :: l) = (a + list_sum l)%nat.
Proof. reflexivity. Qed.

Ltac small_tac :=
  match goal with
  | Hs : small ?b |- small ?a =>
      apply (@small_le a b); [cbn [lanes_total]; rewrite ?list_sum_cons; lia | exact Hs]
  end.

Lemma sum_seq_whole (l : list nat) :
  forall r : nat,
    small (r + list_sum l) ->
    sum_seq (of_nat r) (map of_nat l) = of_nat (r + list_sum l).
Proof.
  induction l as [|a l IH]; intros r Hs; cbn [map list_sum sum_seq fold_left].
  - rewrite Nat.add_0_r. reflexivity.
  - rewrite list_sum_cons in Hs |- *.
    rewrite add_of_nat by small_tac.
    fold (sum_seq (of_nat (r + a)) (map of_nat l)).
    rewrite IH by (replace (r + a + list_sum l)%nat with (r + (a + list_sum l))%nat by lia;
                   exact Hs).
    f_equal. lia.
Qed.

Lemma unrolled_whole :
  forall (n : nat) (l : list nat) (r : nat * nat * nat * nat * nat * nat * nat * nat),
    (List.length l <= n)%nat ->
    small (lanes_total r + list_sum l) ->
    exists (r' : nat * nat * nat * nat * nat * nat * nat * nat) (tail : list nat),
      unrolled (lanes_of r) (map of_nat l) = (lanes_of r', map of_nat tail)
      /\ (lanes_total r' + list_sum tail = lanes_total r + list_sum l)%nat.
Proof.
  induction n as [|n IH]; intros l r Hlen Hs.
  - destruct l; [|cbn in Hlen; lia]. exists r, []. split; [|reflexivity].
    destruct r as [[[[[[[r0 r1] r2] r3] r4] r5] r6] r7]. reflexivity.
  - destruct l as [|x0 [|x1 [|x2 [|x3 [|x4 [|x5 [|x6 [|x7 rest]]]]]]]];
      try (eexists r, _; split; [|reflexivity];
           destruct r as [[[[[[[r0 r1] r2] r3] r4] r5] r6] r7]; reflexivity).
    destruct r as [[[[[[[r0 r1] r2] r3] r4] r5] r6] r7].
    cbn [lanes_total] in Hs. rewrite !list_sum_cons in Hs.
    cbn [map lanes_of unrolled].
    rewrite !add_of_nat by small_tac.
    destruct (IH rest (r0 + x0, r1 + x1, r2 + x2, r3 + x3,
                       r4 + x4, r5 + x5, r6 + x6, r7 + x7)%nat)
      as (r' & tail & Hrun & Htot).
    + cbn [List.length] in Hlen. lia.
    + cbn [lanes_total]. small_tac.
    + exists r', tail. split; [exact Hrun|].
      rewrite Htot. cbn [lanes_total]. rewrite !list_sum_cons. lia.
Qed.

Lemma join_whole (r : nat * nat * nat * nat * nat * nat * nat * nat) :
  small (lanes_total r) -> join (lanes_of r) = of_nat (lanes_total r).
Proof.
  destruct r as [[[[[[[r0 r1] r2] r3] r4] r5] r6] r7]. cbn [lanes_total lanes_of join].
  intro Hs. rewrite !add_of_nat by small_tac. f_equal. lia.
Qed.

Lemma block_sum_whole (l : list nat) :
  small (list_sum l) -> block_sum (map of_nat l) = of_nat (list_sum l).
Proof.
  intro Hs.
  destruct l as [|x0 [|x1 [|x2 [|x3 [|x4 [|x5 [|x6 [|x7 rest]]]]]]]];
    try (cbn [map block_sum]; rewrite zero_of_nat;
         match goal with |- sum_seq _ ?m = _ =>
           match m with
           | [] => cbn; reflexivity
           | _ => idtac
           end
         end;
         try (match goal with |- sum_seq (of_nat 0) ?m = of_nat (list_sum ?l) =>
                change m with (map of_nat l)
              end;
              rewrite sum_seq_whole by exact Hs; reflexivity)).
  cbn [map block_sum].
  destruct (@unrolled_whole (List.length rest) rest (x0, x1, x2, x3, x4, x5, x6, x7) (le_n _))
    as (r' & tail & Hrun & Htot).
  { rewrite !list_sum_cons in Hs. small_tac. }
  cbn [lanes_of] in Hrun. rewrite Hrun.
  assert (Hs' : small (lanes_total r' + list_sum tail)).
  { rewrite Htot. rewrite !list_sum_cons in Hs. small_tac. }
  rewrite join_whole by small_tac.
  rewrite sum_seq_whole by exact Hs'.
  f_equal. rewrite Htot. cbn [lanes_total]. rewrite !list_sum_cons. lia.
Qed.

Lemma list_sum_firstn_skipn (n : nat) (l : list nat) :
  (list_sum (firstn n l) + list_sum (skipn n l) = list_sum l)%nat.
Proof. rewrite <- list_sum_app, firstn_skipn. reflexivity. Qed.

Lemma pairwise_sum_whole :
  forall (fuel : nat) (l : list nat),
    small (list_sum l) -> pairwise_sum fuel (map of_nat l) = of_nat (list_sum l).
Proof.
  assert (Hseq : forall l, small (list_sum l) ->
                           sum_seq zero (map of_nat l) = of_nat (list_sum l)).
  { intros l Hs. rewrite zero_of_nat. rewrite sum_seq_whole by exact Hs. reflexivity. }
  induction fuel as [|fuel IH]; intros l Hs; cbn [pairwise_sum];
    rewrite length_map;
    destruct (List.length l <? 8)%nat; try (apply Hseq; exact Hs);
    destruct (List.length l <=? 128)%nat; try (apply block_sum_whole; exact Hs).
  pose proof (list_sum_firstn_skipn
                (List.length l / 2 - (List.length l / 2) mod 8) l) as Hsplit.
  rewrite firstn_map, skipn_map.
  rewrite !IH by small_tac.
  rewrite add_of_nat by small_tac.
  f_equal. exact Hsplit.
Qed.

Lemma np_sum_whole (l : list nat) :
  small (list_sum l) -> np_sum (map of_nat l) = of_nat (list_sum l).
Proof.
  intro Hs. unfold np_sum. rewrite pairwise_sum_whole by exact Hs.
  rewrite zero_of_nat, add_of_nat by small_tac. reflexivity.
Qed.

End WholeNumbers.

(** On binary64 the whole numbers below 2^53 are small. *)
Definition below_2_53 (n : nat) : Prop := (Z.of_nat n < 2 ^ 53)%Z.

Lemma np_sum_of_nat (l : list nat) :
  below_2_53 (list_sum l) ->
  np_sum (map (of_nat (T := float)) l) = of_nat (list_sum l).
Proof.
  apply (@np_sum_whole float float_arith below_2_53).
  - unfold below_2_53. intros a b Hle Hb. lia.
  - unfold below_2_53. intros a b Ha Hb. cbn [add of_nat float_arith].
    rewrite Z2F_add by lia. rewrite Nat2Z.inj_add. reflexivity.
  - reflexivity.
Qed.





Lemma np_average_ok (a w : list float) :
  List.length a = List.length w ->
  PrimFloat.eqb (np_sum w) 0 = false ->
  np_average a w = Ok (np_sum (multiply a w) / np_sum w)%float.
Proof.
  intros Hlen Hnz. unfold np_average. rewrite Hlen, Nat.eqb_refl.
  cbn [negb is_zero float_arith]. rewrite Hnz. reflexivity.
Qed.
(** The amplitude column of a table of whole numbers. *)
Definition whole (a : list nat) : list float := map (fun n => Z2F (Z.of_nat n)) a.

Lemma np_sum_of_whole (a : list nat) :
  (Z.of_nat (list_sum a) < 2 ^ 53)%Z ->
  np_sum (whole a) = Z2F (Z.of_nat (list_sum a)).
Proof. intro Hsmall. exact (@np_sum_of_nat a Hsmall). Qed.

Lemma np_mean_whole (a : list nat) (q : nat) :
  a <> [] ->
  (0 < q)%nat ->
  list_sum a = (q * List.length a)%nat ->
  (Z.of_nat (list_sum a) < 2 ^ 53)%Z ->
  np_mean (whole a) = Z2F (Z.of_nat q).
Proof.
  intros Hne Hq Hsum Hsmall.
  assert (Hn : (0 < List.length a)%nat) by (destruct a; [congruence | cbn [List.length]; lia]).
  unfold np_mean. rewrite (@np_sum_of_whole a Hsmall).
  unfold whole. rewrite length_map.
  cbn [div of_nat float_arith]. rewrite Hsum, Nat2Z.inj_mul.
  apply Z2F_div; lia.
Qed.

(** C6. The level is [10 * log10] of the mean of the amplitude column, and
    that mean is the arithmetic mean: for a column of whole numbers whose
    mean is the whole number [q] (their sum below 2^53, so that no addition
    rounds), [np.mean] returns [q] itself and the stage yields
    [10 * log10(q)]; with [log10] exact at 1 and at 10, as C libraries are, a
    mean amplitude of 1.0 gives 0 dB and one of 10.0 gives 10 dB. *)
Theorem statistics_volume_dB :
  forall np_log10 : float -> float,
    (forall (frequency amplitude : list float) (mean standard_deviation volume_dB : float),
        statistics np_log10 frequency amplitude = Ok (mean, standard_deviation, volume_dB) ->
        volume_dB = (10 * np_log10 (np_mean amplitude))%float)
    /\ (forall (frequency : list float) (a : list nat) (q : nat),
          List.length frequency = List.length a ->
          a <> [] ->
          (0 < q)%nat ->
          list_sum a = (q * List.length a)%nat ->
          (Z.of_nat (list_sum a) < 2 ^ 53)%Z ->
          np_mean (whole a) = Z2F (Z.of_nat q)
          /\ exists mean standard_deviation : float,
               statistics np_log10 frequency (whole a)
               = Ok (mean, standard_deviation, (10 * np_log10 (Z2F (Z.of_nat q)))%float)
               /\ (q = 1%nat -> np_log10 1%float = 0%float ->
                   statistics np_log10 frequency (whole a)
                   = Ok (mean, standard_deviation, 0%float))
               /\ (q = 10%nat -> np_log10 10%float = 1%float ->
                   statistics np_log10 frequency (whole a)
                   = Ok (mean, standard_deviation, 10%float))).
Proof.
  intro lg. split.
  - intros frequency amplitude mean sd vol Hst.
    unfold statistics in Hst.
    destruct (PrimFloat.eqb (np_sum amplitude) 0); [discriminate|].
    destruct (np_average frequency amplitude) as [m|]; [|discriminate].
    cbn [rbind] in Hst.
    destruct (np_average _ amplitude) as [v|]; [|discriminate].
    cbn [rbind] in Hst. now inversion Hst.
  - intros f a q Hlen Hne Hq Hsum Hsmall.
    pose proof (@np_mean_whole a q Hne Hq Hsum Hsmall) as Hmean.
    split; [exact Hmean|].
    assert (Hn : (0 < List.length a)%nat)
      by (destruct a; [congruence | cbn [List.length]; lia]).
    assert (Hnz : PrimFloat.eqb (np_sum (whole a)) 0 = false).
    { rewrite (@np_sum_of_whole a Hsmall). apply Z2F_nonzero. nia. }
    assert (Hl : List.length f = List.length (whole a))
      by (unfold whole; rewrite length_map; exact Hlen).
    assert (Hst : exists mean sd : float,
               statistics lg f (whole a)
               = Ok (mean, sd, (10 * lg (Z2F (Z.of_nat q)))%float)).
    { unfold statistics. rewrite Hnz, Hmean.
      rewrite (@np_average_ok f (whole a) Hl Hnz). cbn [rbind].
      rewrite np_average_ok by (rewrite ?length_map; auto).
      cbn [rbind]. eexists. eexists. reflexivity. }
    destruct Hst as (mean & sd & Hst). exists mean, sd.
    split; [exact Hst|].
    split; intros -> Hlg; rewrite Hst.
    + change (Z2F (Z.of_nat 1)) with 1%float. rewrite Hlg. reflexivity.
    + change (Z2F (Z.of_nat 10)) with 10%float. rewrite Hlg. reflexivity.
Qed.

Lemma statistics_volume_dB_witness :
  np_mean [5; 15]%float = 10%float
  /\ exists mean standard_deviation : float,
       statistics log10_at_powers [100; 300]%float [5; 15]%float
       = Ok (mean, standard_deviation, 10%float).
Proof.
  destruct (@statistics_volume_dB log10_at_powers) as [_ H].
  destruct (H [100; 300]%float [5; 15]%nat 10%nat eq_refl)
    as (Hmean & mean & sd & _ & _ & H10).
  - discriminate.
  - lia.
  - reflexivity.
  - reflexivity.
  - split; [exact Hmean|]. exists mean, sd. apply H10; reflexivity.
Defined.

(** ** The weighted mean with equal weights *)




(** ** How the operations run *)

(** The world one operation later, and with one more event. *)
Definition bump (w : world) : world := set_clock (S (clock w)) w.
Definition logged (e : event) (w : world) : world := set_trace (trace w ++ [e]) w.

(** Ctrl+C does not arrive within the next [k] operations. *)
Definition calm (k : nat) (w : world) : Prop :=
  match ctrl_c (host_of w) with
  | Some t => (t < clock w \/ clock w + k <= t)%nat
  | None => True
  end.

Lemma calm_now (k : nat) (w : world) : calm (S k) w -> interrupted w = false.
Proof.
  unfold calm, interrupted. destruct (ctrl_c (host_of w)) as [t|]; [|reflexivity].
  intro H. apply Nat.eqb_neq. lia.
Qed.

Lemma calm_bump (k : nat) (w : world) : calm (S k) w -> calm k (bump w).
Proof.
  unfold calm. cbn [host_of clock bump set_clock].
  destruct (ctrl_c (host_of w)) as [t|]; [lia|trivial].
Qed.

Lemma calm_le (k k' : nat) (w : world) : (k' <= k)%nat -> calm k w -> calm k' w.
Proof.
  unfold calm. destruct (ctrl_c (host_of w)) as [t|]; [lia|trivial].
Qed.

Definition interrupt (w : world) : option (result unit) * world :=
  (Some (Raise KeyboardInterrupt), bump w).

Lemma tick_bind {A} (k : unit -> M A) (w : world) :
  bind tick k w
  = if interrupted w then (Some (Raise KeyboardInterrupt), bump w) else k tt (bump w).
Proof. unfold bind, tick, bump. destruct (interrupted w); reflexivity. Qed.

Lemma print_run (items : list printable) (w : world) :
  print items w
  = if interrupted w then (Some (Raise KeyboardInterrupt), bump w)
    else (Some (Ok tt), logged (EvPrint items) (bump w)).
Proof. unfold print. rewrite tick_bind. reflexivity. Qed.

Lemma sleep_run (ms : Z) (w : world) :
  sleep ms w
  = if interrupted w then (Some (Raise KeyboardInterrupt), bump w)
    else (Some (Ok tt), logged (EvSleep ms) (bump w)).
Proof. unfold sleep. rewrite tick_bind. reflexivity. Qed.

Lemma copy_run (src dst : string) (w : world) :
  copy src dst w
  = if interrupted w then (Some (Raise KeyboardInterrupt), bump w)
    else (Some (Ok tt), logged (EvCopy src dst) (bump w)).
Proof. unfold copy. rewrite tick_bind. reflexivity. Qed.

Lemma input_run (prompt : string) (w : world) :
  input prompt w
  = if interrupted w then (Some (Raise KeyboardInterrupt), bump w)
    else match stdin w with
         | [] => (Some (Raise EOFError), logged (EvInput prompt) (bump w))
         | line :: rest =>
             (Some (Ok line), set_stdin rest (logged (EvInput prompt) (bump w)))
         end.
Proof.
  unfold input. rewrite tick_bind. destruct (interrupted w); [reflexivity|].
  unfold bind, emit, get, modify, ret, raise, logged. cbn.
  destruct (stdin w); reflexivity.
Qed.

Definition shell_effect (c : command) (w : world) : world :=
  match c with
  | SoxStatFreq => set_data_txt (Some (sox_stat (host_of w))) w
  | _ => w
  end.

Lemma run_shell_run (c : command) (w : world) :
  run_shell c w
  = if interrupted w then (Some (Raise KeyboardInterrupt), bump w)
    else (Some (Ok tt), shell_effect c (logged (EvRun c) (bump w))).
Proof.
  unfold run_shell. rewrite tick_bind. destruct (interrupted w); [reflexivity|].
  destruct c; reflexivity.
Qed.

Lemma pulse_connect_run (client : string) (w : world) :
  pulse_connect client w
  = if interrupted w then (Some (Raise KeyboardInterrupt), bump w)
    else (Some (Ok tt), logged (EvPulseConnect client) (bump w)).
Proof. unfold pulse_connect. rewrite tick_bind. reflexivity. Qed.

Lemma sink_input_list_run (w : world) :
  sink_input_list w
  = if interrupted w then (Some (Raise KeyboardInterrupt), bump w)
    else (Some (Ok (sinks w)), logged EvSinkInputList (bump w)).
Proof. unfold sink_input_list. rewrite tick_bind. reflexivity. Qed.

(** The world after a player was started. *)
Definition spawned (c : command) (w : world) : world :=
  let w1 := set_next_pid (next_pid w + 1)%Z
              (set_procs ((next_pid w, Running) :: procs w)
                 (logged (EvPopen c (next_pid w)) w)) in
  match c, sox_stream (host_of w) with
  | PlayNoise _ _ _, Some si => set_sinks (sinks w ++ [si]) w1
  | _, _ => w1
  end.

Lemma popen_run (c : command) (w : world) :
  popen c w
  = if interrupted w then (Some (Raise KeyboardInterrupt), bump w)
    else (Some (Ok (next_pid w)), spawned c (bump w)).
Proof.
  unfold popen. rewrite tick_bind. destruct (interrupted w); [reflexivity|].
  unfold spawned, bind, emit, get, modify, ret, logged. cbn.
  destruct c; try reflexivity; destruct (sox_stream (host_of w)); reflexivity.
Qed.

(** The world after the process group [pid] got [sig]. *)
Definition signalled (pid : Z) (sig : signal) (w : world) : world :=
  set_procs (proc_update pid Terminated (procs w)) (logged (EvKillpg pid sig) w).

Lemma killpg_getpgid_run (pid : Z) (sig : signal) (w : world) :
  killpg_getpgid pid sig w
  = if interrupted w then (Some (Raise KeyboardInterrupt), bump w)
    else match proc_lookup pid (procs w) with
         | None => (Some (Raise ProcessLookupError), bump w)
         | Some _ => (Some (Ok tt), signalled pid sig (bump w))
         end.
Proof.
  unfold killpg_getpgid. rewrite tick_bind. destruct (interrupted w); [reflexivity|].
  unfold bind, get. cbn. destruct (proc_lookup pid (procs w)); reflexivity.
Qed.

(** ** Reading the mixer *)

(** What [get_system_volume] makes of the text amixer printed. *)
Definition mixer_reading (output : string) : result (Z * bool) :=
  rbind (rbind (py_index (str_split "[" output) 1) (fun s =>
         rbind (py_index (str_split "%" s) 0) py_int))
        (fun volume => Ok (volume, str_contains "off" output)).

(** The world after one successful run of amixer. *)
Definition after_amixer (w : world) : world :=
  set_amixer_runs (S (amixer_runs w))
    (set_trace (trace w ++ [EvRun AmixerSgetMaster]) w).

Lemma get_system_volume_run (w : world) :
  get_system_volume w
  = if interrupted w then (Some (Raise KeyboardInterrupt), bump w)
    else (Some (mixer_reading (amixer_out (host_of w) (amixer_runs w))),
          after_amixer (bump w)).
Proof.
  unfold get_system_volume, run_amixer. unfold bind at 1. rewrite tick_bind.
  destruct (interrupted w); [reflexivity|].
  unfold bind, emit, get, modify, lift, ret, mixer_reading, after_amixer. cbn.
  destruct (rbind (py_index (str_split "[" _) 1) _); reflexivity.
Qed.

(** C3. [set_system_volume] never looks at its argument: for every argument and
    every world it runs the same [amixer sget Master] and returns what
    [get_system_volume] returns there; it runs no other command and leaves the
    sound server's streams as they were. *)
Theorem set_system_volume_only_reads :
  forall (volume : Z) (w : world),
    set_system_volume volume w = get_system_volume w
    /\ (forall volume' : Z, set_system_volume volume' w = set_system_volume volume w)
    /\ (trace (snd (set_system_volume volume w)) = trace w ++ [EvRun AmixerSgetMaster]
        \/ trace (snd (set_system_volume volume w)) = trace w)
    /\ sinks (snd (set_system_volume volume w)) = sinks w
    /\ host_of (snd (set_system_volume volume w)) = host_of w.
Proof.
  intros volume w.
  split; [reflexivity|]. split; [reflexivity|].
  change (set_system_volume volume w) with (get_system_volume w).
  rewrite get_system_volume_run.
  destruct (interrupted w); cbn; auto.
Qed.

(** ** Pushing the gain *)

Definition unit_gain (g : pynum) : bool :=
  match g with
  | PyInt z => (0 <=? z)%Z && (z <=? 1)%Z
  | PyFloat f => PrimFloat.leb 0 f && PrimFloat.leb f 1
  end.

Definition zero_gain (g : pynum) : bool := py_eq g (PyFloat 0).

(** The world after the server took [values] for the stream [si]. *)
Definition after_volume_set (si : sink_input) (values : list pynum) (w : world) : world :=
  set_sinks (map (fun s => if (si_index s =? si_index si)%Z
                           then {| si_index := si_index s;
                                   si_app_name := si_app_name s;
                                   si_volume := values |}
                           else s) (sinks w))
    (set_trace (trace w ++ [EvVolumeSet (si_index si) values]) w).

Lemma set_volume_run (v : Z) (m : bool) (si : sink_input) (w : world) :
  set_volume v m si w
  = match get_new_volume v m with
    | Raise e => (Some (Raise e), w)
    | Ok g =>
        if interrupted w then (Some (Raise KeyboardInterrupt), bump w)
        else (Some (Ok tt),
              after_volume_set si (repeat g (List.length (si_volume si))) (bump w))
    end.
Proof.
  unfold set_volume, volume_set, lift. unfold bind at 1.
  destruct (get_new_volume v m) as [g|e]; [|reflexivity].
  rewrite tick_bind. destruct (interrupted w); reflexivity.
Qed.

Definition gain_within_unit (v : Z) : bool :=
  match get_new_volume v false with
  | Ok g => unit_gain g
  | Raise _ => false
  end.

Lemma percentages_within_unit :
  forallb gain_within_unit (map Z.of_nat (seq 0 101)) = true.
Proof. vm_compute. reflexivity. Qed.

Lemma gain_in_unit_interval (v : Z) (m : bool) :
  (0 <= v <= 100)%Z ->
  exists g, get_new_volume v m = Ok g /\ unit_gain g = true.
Proof.
  intros Hv. destruct m.
  - exists (PyInt 0). split; reflexivity.
  - pose proof percentages_within_unit as H.
    rewrite forallb_forall in H.
    specialize (H v). unfold gain_within_unit in H.
    destruct (get_new_volume v false) as [g|e].
    + exists g. split; [reflexivity|]. apply H.
      rewrite <- (Z2Nat.id v) by lia. apply in_map, in_seq. lia.
    + assert (false = true); [|discriminate]. apply H.
      rewrite <- (Z2Nat.id v) by lia. apply in_map, in_seq. lia.
Qed.

Definition example_stream : sink_input :=
  {| si_index := 7;
     si_app_name := Some "ALSA plug-in [sox]"%string;
     si_volume := [PyFloat 1; PyFloat 1] |}.

(** A host whose mixer always prints [mixer_line]. *)
Definition example_host (os mixer_line : string) (table : list (float * float)) : host :=
  {| platform := os;
     amixer_out := fun _ => mixer_line;
     sox_stream := Some example_stream;
     sox_stat := table;
     timestamp := "1700000000.5";
     ctrl_c := None |}.

(** The world when the script starts. *)
Definition boot (h : host) (typed : list string)
    (old_table : option (list (float * float))) : world :=
  {| host_of := h;
     stdin := typed;
     amixer_runs := 0;
     sinks := [];
     procs := [];
     next_pid := 4242;
     data_dir := match old_table with Some _ => true | None => false end;
     data_txt := old_table;
     clock := 0;
     noise_process := None;
     trace := [] |}.

(** C7, as stated: a mixer that prints 150% is read as 150, and the gain that
    follows from it is 1.5; nothing in the script bounds the percentage. *)
Lemma mixer_percentage_above_100 :
  fst (get_system_volume
         (boot (example_host "linux" "  Front Left: Playback 98304 [150%] [on]" [])
               [] None))
  = Some (Ok (150%Z, false))
  /\ (100 < 150)%Z
  /\ get_new_volume 150 false = Ok (PyFloat 1.5).
Proof. repeat split. Qed.

(** C7, amended: what [get_system_volume] returns is the integer the mixer
    printed, whatever it is; when it lies in [0,100] the gain pushed to the
    generator lies in [0,1], and when [is_muted] holds the gain pushed is zero
    on every channel whatever the percentage. *)
Theorem mixer_volume_and_mute :
  forall (w w1 : world) (volume_percentage : Z) (is_muted : bool)
         (sox_sink_input : sink_input),
    get_system_volume w = (Some (Ok (volume_percentage, is_muted)), w1) ->
    interrupted w1 = false ->
    mixer_reading (amixer_out (host_of w) (amixer_runs w))
    = Ok (volume_percentage, is_muted)
    /\ ((0 <= volume_percentage <= 100)%Z ->
        exists (gain : pynum) (w2 : world),
          get_new_volume volume_percentage is_muted = Ok gain
          /\ unit_gain gain = true
          /\ set_volume volume_percentage is_muted sox_sink_input w1 = (Some (Ok tt), w2)
          /\ trace w2
             = trace w1 ++ [EvVolumeSet (si_index sox_sink_input)
                              (repeat gain (List.length (si_volume sox_sink_input)))])
    /\ (is_muted = true ->
        exists w2 : world,
          set_volume volume_percentage is_muted sox_sink_input w1 = (Some (Ok tt), w2)
          /\ trace w2
             = trace w1 ++ [EvVolumeSet (si_index sox_sink_input)
                              (repeat (PyInt 0) (List.length (si_volume sox_sink_input)))]
          /\ forall s : sink_input,
               In s (sinks w2) ->
               si_index s = si_index sox_sink_input ->
               Forall (fun g => zero_gain g = true) (si_volume s)).
Proof.
  intros w w1 v m si Hget Hsig.
  rewrite get_system_volume_run in Hget.
  split; [|split].
  - destruct (interrupted w); inversion Hget; reflexivity.
  - intros Hv. destruct (gain_in_unit_interval m Hv) as (g & Hg & Hu).
    exists g. eexists. split; [exact Hg|]. split; [exact Hu|].
    rewrite set_volume_run, Hg, Hsig. split; reflexivity.
  - intros ->. eexists. rewrite set_volume_run, Hsig. cbn [get_new_volume].
    split; [reflexivity|]. split; [reflexivity|].
    intros s Hin Hidx. unfold after_volume_set in Hin. cbn [sinks set_sinks] in Hin.
    apply in_map_iff in Hin. destruct Hin as (s0 & Hs0 & _). subst s.
    destruct (si_index s0 =? si_index si)%Z eqn:Eq.
    + cbn [si_volume]. apply Forall_forall. intros g Hg.
      apply repeat_spec in Hg. subst g. reflexivity.
    + apply Z.eqb_neq in Eq. contradiction.
Qed.

Lemma mixer_volume_and_mute_witness :
  mixer_reading "  Front Left: Playback 26214 [40%] [off]" = Ok (40%Z, true)
  /\ exists w2 : world,
       set_volume 40 true example_stream
         (snd (get_system_volume
                 (boot (example_host "linux" "  Front Left: Playback 26214 [40%] [off]" [])
                       [] None)))
       = (Some (Ok tt), w2)
       /\ trace w2 = [EvRun AmixerSgetMaster; EvVolumeSet 7 [PyInt 0; PyInt 0]].
Proof.
  pose (w := boot (example_host "linux" "  Front Left: Playback 26214 [40%] [off]" [])
                  [] None).
  destruct (@mixer_volume_and_mute w (snd (get_system_volume w)) 40%Z true example_stream
              eq_refl eq_refl) as (Hread & _ & Hmute).
  split; [exact Hread|].
  destruct (Hmute eq_refl) as (w2 & Hrun & Htrace & _).
  exists w2. split; [exact Hrun | exact Htrace].
Defined.

(** ** The prompt *)

Open Scope string_scope.

Definition prompt : string := "Record new audio or use the old one? [r/o]" ++ nl.
Definition reprompt : string :=
  "Type " ++ dq ++ "r" ++ dq ++ " for record or " ++ dq ++ "o" ++ dq
  ++ " for old. Please try again.".

(** The body of the prompt loop: [true] to go round again. *)
Definition prompt_once : M bool :=
  (user_input <- input prompt ;;
   if String.eqb user_input "r" then
     p <- get (fun w => platform (host_of w)) ;;
     (if startswith p "darwin" then record_audio_osx 10
      else if startswith p "linux" then record_audio 10
      else ret tt) ;;
     ret false
   else if String.eqb user_input "o" then
     print [PStr "Using old audio..."] ;;
     ret false
   else
     print [PStr reprompt] ;;
     ret true)%monad.

Lemma prompt_loop_unfold (fuel : nat) : prompt_loop fuel = while_true fuel prompt_once.
Proof. reflexivity. Qed.

(** What the branch for [r] does, by platform. *)
Definition record_events (h : host) : list event :=
  if startswith (platform h) "darwin" then
    [EvPrint [PStr "Recording "; PInt 10; PStr " seconds of audio..."];
     EvRun (SoxRecord 10);
     EvPrint [PStr "Audio recorded and saved as "; PStr "data/input.wav"]]
  else if startswith (platform h) "linux" then
    [EvRun (SoxRecord 10);
     EvCopy "data/input.wav" ("data/input_" ++ timestamp h ++ ".wav")]
  else [].

(** What one round of the prompt does after reading [x]. *)
Definition answer_events (h : host) (x : string) : list event :=
  if String.eqb x "r" then record_events h
  else if String.eqb x "o" then [EvPrint [PStr "Using old audio..."]]
  else [EvPrint [PStr reprompt]].

(** Runs the operations in [H], an equation that says the run ended well:
    an operation at which Ctrl+C arrives contradicts it. *)
Ltac run_ops_in H :=
  repeat first
    [ rewrite print_run in H | rewrite sleep_run in H | rewrite copy_run in H
    | rewrite input_run in H | rewrite run_shell_run in H
    | match type of H with
      | context [if interrupted ?w then _ else _] =>
          destruct (interrupted w); [discriminate H|]
      end
    | progress cbn [bind ret raise lift get modify] in H
    | progress unfold bind at 1 in H ].

Lemma record_audio_ok (d : Z) (w w1 : world) :
  record_audio d w = (Some (Ok tt), w1) ->
  stdin w1 = stdin w /\ host_of w1 = host_of w
  /\ trace w1 = (trace w ++ [EvRun (SoxRecord d);
                            EvCopy "data/input.wav" ("data/input_" ++ timestamp (host_of w) ++ ".wav")])%list.
Proof.
  unfold record_audio. intro H. run_ops_in H.
  inversion H; subst; clear H. cbn. rewrite <- app_assoc. repeat split.
Qed.

Lemma record_audio_osx_ok (d : Z) (w w1 : world) :
  record_audio_osx d w = (Some (Ok tt), w1) ->
  stdin w1 = stdin w /\ host_of w1 = host_of w
  /\ trace w1 = (trace w ++ [EvPrint [PStr "Recording "; PInt d; PStr " seconds of audio..."];
                            EvRun (SoxRecord d);
                            EvPrint [PStr "Audio recorded and saved as "; PStr "data/input.wav"]])%list.
Proof.
  unfold record_audio_osx. intro H. run_ops_in H.
  inversion H; subst; clear H. cbn. rewrite <- !app_assoc. repeat split.
Qed.

Definition other_answer (x : string) : Prop := x <> "r" /\ x <> "o".

Lemma prompt_once_ok (w w1 : world) (b : bool) :
  prompt_once w = (Some (Ok b), w1) ->
  exists x : string,
    stdin w = x :: stdin w1
    /\ host_of w1 = host_of w
    /\ trace w1 = (trace w ++ EvInput prompt :: answer_events (host_of w) x)%list
    /\ b = negb (String.eqb x "r" || String.eqb x "o").
Proof.
  unfold prompt_once. intro H. unfold bind at 1 in H. rewrite input_run in H.
  destruct (interrupted w); [discriminate H|].
  destruct (stdin w) as [|x rest] eqn:Hin; [discriminate H|].
  exists x. unfold answer_events.
  destruct (String.eqb x "r") eqn:Er; [|destruct (String.eqb x "o") eqn:Eo].
  - unfold bind at 1 in H. unfold bind at 1 in H. cbn [get] in H.
    cbn [host_of set_stdin logged bump set_trace set_clock] in H.
    unfold record_events.
    destruct (startswith (platform (host_of w)) "darwin");
      [|destruct (startswith (platform (host_of w)) "linux")].
    + destruct (record_audio_osx 10 _) as [[[[]|e]|] w2] eqn:Hrec; try discriminate H.
      apply record_audio_osx_ok in Hrec. destruct Hrec as (Hs & Hh & Ht).
      cbn [ret] in H. inversion H; subst; clear H.
      rewrite Hs, Hh, Ht. cbn. rewrite <- !app_assoc. repeat split.
    + destruct (record_audio 10 _) as [[[[]|e]|] w2] eqn:Hrec; try discriminate H.
      apply record_audio_ok in Hrec. destruct Hrec as (Hs & Hh & Ht).
      cbn [ret] in H. inversion H; subst; clear H.
      rewrite Hs, Hh, Ht. cbn. rewrite <- !app_assoc. repeat split.
    + cbn [ret] in H. inversion H; subst; clear H. cbn. repeat split.
  - run_ops_in H. inversion H; subst; clear H. cbn. rewrite <- !app_assoc. repeat split.
  - run_ops_in H. inversion H; subst; clear H. cbn. rewrite <- !app_assoc. repeat split.
Qed.

Definition reprompted (pre : list string) : list event :=
  flat_map (fun _ : string => [EvInput prompt; EvPrint [PStr reprompt]]) pre.

Lemma other_answer_eqb (x : string) :
  negb (String.eqb x "r" || String.eqb x "o") = true <-> other_answer x.
Proof.
  unfold other_answer.
  destruct (String.eqb_spec x "r"), (String.eqb_spec x "o"); cbn; intuition congruence.
Qed.

Lemma prompt_loop_ok :
  forall (fuel : nat) (w w1 : world),
    prompt_loop fuel w = (Some (Ok tt), w1) ->
    exists (pre : list string) (x : string),
      stdin w = (pre ++ x :: stdin w1)%list
      /\ Forall other_answer pre
      /\ (x = "r" \/ x = "o")
      /\ host_of w1 = host_of w
      /\ trace w1
         = (trace w ++ reprompted pre ++ EvInput prompt :: answer_events (host_of w) x)%list.
Proof.
  intro fuel. rewrite prompt_loop_unfold.
  induction fuel as [|fuel IH]; intros w w1 H; [discriminate H|].
  cbn [while_true] in H. unfold bind at 1 in H.
  destruct (prompt_once w) as [[[b|e]|] w2] eqn:Hone; try discriminate H.
  apply prompt_once_ok in Hone. destruct Hone as (x & Hin & Hh & Ht & Hb).
  destruct b.
  - apply IH in H. destruct H as (pre & y & Hin' & Hpre & Hy & Hh' & Ht').
    exists (x :: pre), y. symmetry in Hb. apply other_answer_eqb in Hb.
    split; [rewrite Hin, Hin'; reflexivity|].
    split; [constructor; assumption|]. split; [exact Hy|].
    split; [congruence|].
    rewrite Ht', Ht, Hh. unfold answer_events.
    destruct Hb as [Hr Ho]. apply String.eqb_neq in Hr, Ho. rewrite Hr, Ho.
    cbn [reprompted flat_map]. rewrite <- !app_assoc. reflexivity.
  - cbn [ret] in H. inversion H; subst w2; clear H.
    exists [], x. split; [exact Hin|]. split; [constructor|].
    split.
    { destruct (String.eqb_spec x "r"); [left; assumption|].
      destruct (String.eqb_spec x "o"); [right; assumption|]. discriminate Hb. }
    split; [exact Hh | exact Ht].
Qed.

Lemma interrupted_none (w : world) : ctrl_c (host_of w) = None -> interrupted w = false.
Proof. unfold interrupted. intros ->. reflexivity. Qed.

(** Runs the operations of the goal on a host [H0] says gets no Ctrl+C. *)
Ltac run_quiet H0 :=
  repeat first
    [ rewrite print_run | rewrite sleep_run | rewrite copy_run
    | rewrite input_run | rewrite run_shell_run
    | rewrite interrupted_none by exact H0
    | progress cbn [bind ret raise lift get modify]
    | progress unfold bind at 1 ].

Lemma prompt_loop_runs :
  forall (pre : list string) (x : string) (rest : list string) (fuel : nat) (w : world),
    ctrl_c (host_of w) = None ->
    stdin w = (pre ++ x :: rest)%list ->
    Forall other_answer pre ->
    x = "r" \/ x = "o" ->
    (List.length pre < fuel)%nat ->
    exists w1 : world,
      prompt_loop fuel w = (Some (Ok tt), w1) /\ stdin w1 = rest.
Proof.
  intros pre x rest fuel. rewrite prompt_loop_unfold. revert fuel.
  induction pre as [|y pre IH]; intros fuel w Hc Hin Hpre Hx Hfuel;
    (destruct fuel as [|fuel]; [cbn in Hfuel; lia|]);
    cbn [while_true]; unfold bind at 1; unfold prompt_once;
    unfold bind at 1; rewrite input_run, (interrupted_none _ Hc), Hin; cbn [app].
  - destruct Hx as [-> | ->]; cbn [String.eqb Ascii.eqb Bool.eqb].
    + unfold record_audio_osx, record_audio.
      destruct (startswith (platform (host_of w)) "darwin") eqn:Ed;
        [|destruct (startswith (platform (host_of w)) "linux") eqn:El];
        run_quiet Hc; cbn [host_of set_stdin logged bump set_trace set_clock];
        rewrite ?Ed, ?El; run_quiet Hc; eexists; split; reflexivity.
    + run_quiet Hc. eexists. split; reflexivity.
  - inversion Hpre as [|? ? [Hr Ho] Hpre']; subst.
    apply String.eqb_neq in Hr, Ho. rewrite Hr, Ho.
    run_quiet Hc.
    apply IH; try assumption; [reflexivity | cbn in Hfuel; lia].
Qed.

(** The prompt loop is left only by the exact answers [r] and [o], each other
    answer being met by the reprompt message and a new prompt; when the
    operator types such an answer and no Ctrl+C comes, the loop is left. What
    the answer [r] sets off depends on the platform. *)
Lemma prompt_loop_ends_on_r_or_o :
  forall (fuel : nat) (w : world),
    (forall w1 : world,
        prompt_loop fuel w = (Some (Ok tt), w1) ->
        exists (pre : list string) (x : string),
          stdin w = (pre ++ x :: stdin w1)%list
          /\ Forall other_answer pre
          /\ (x = "r" \/ x = "o")
          /\ trace w1
             = (trace w ++ reprompted pre
                ++ EvInput prompt :: answer_events (host_of w) x)%list)
    /\ (Forall other_answer (stdin w) ->
        forall w1 : world, prompt_loop fuel w <> (Some (Ok tt), w1))
    /\ (forall (pre : list string) (x : string) (rest : list string),
          ctrl_c (host_of w) = None ->
          stdin w = (pre ++ x :: rest)%list ->
          Forall other_answer pre ->
          x = "r" \/ x = "o" ->
          (List.length pre < fuel)%nat ->
          exists w1 : world,
            prompt_loop fuel w = (Some (Ok tt), w1) /\ stdin w1 = rest)
    /\ (startswith (platform (host_of w)) "darwin" = true
        \/ startswith (platform (host_of w)) "linux" = true ->
        In (EvRun (SoxRecord 10)) (answer_events (host_of w) "r"))
    /\ (startswith (platform (host_of w)) "darwin" = false ->
        startswith (platform (host_of w)) "linux" = false ->
        answer_events (host_of w) "r" = [])
    /\ answer_events (host_of w) "o" = [EvPrint [PStr "Using old audio..."]].
Proof.
  intros fuel w. split; [|split; [|split; [|split; [|split]]]].
  - intros w1 H. apply prompt_loop_ok in H.
    destruct H as (pre & x & H1 & H2 & H3 & _ & H5). exists pre, x. auto.
  - intros Hall w1 H. apply prompt_loop_ok in H.
    destruct H as (pre & x & H1 & _ & H3 & _).
    rewrite H1 in Hall. apply Forall_app in Hall. destruct Hall as [_ Hall].
    inversion Hall as [|? ? [Hr Ho] _]; subst. destruct H3; contradiction.
  - intros pre x rest. apply prompt_loop_runs.
  - unfold answer_events, record_events. cbn [String.eqb Ascii.eqb Bool.eqb].
    intros [-> | ->].
    + cbn. auto.
    + destruct (startswith (platform (host_of w)) "darwin"); cbn; auto.
  - unfold answer_events, record_events. cbn [String.eqb Ascii.eqb Bool.eqb].
    intros -> ->. reflexivity.
  - reflexivity.
Qed.

(** ** The world after an operation, field by field

    One equation for each field and each way an operation changes the world;
    rewriting with them keeps the worlds of a long run small. *)

Create Rewrite HintDb world.

Lemma host_of_bump (w : world) :
  host_of (bump w) = host_of w.
Proof. reflexivity. Qed.

Lemma stdin_bump (w : world) :
  stdin (bump w) = stdin w.
Proof. reflexivity. Qed.

Lemma amixer_runs_bump (w : world) :
  amixer_runs (bump w) = amixer_runs w.
Proof. reflexivity. Qed.

Lemma sinks_bump (w : world) :
  sinks (bump w) = sinks w.
Proof. reflexivity. Qed.

Lemma procs_bump (w : world) :
  procs (bump w) = procs w.
Proof. reflexivity. Qed.

Lemma next_pid_bump (w : world) :
  next_pid (bump w) = next_pid w.
Proof. reflexivity. Qed.

Lemma data_dir_bump (w : world) :
  data_dir (bump w) = data_dir w.
Proof. reflexivity. Qed.

Lemma data_txt_bump (w : world) :
  data_txt (bump w) = data_txt w.
Proof. reflexivity. Qed.

Lemma clock_bump (w : world) :
  clock (bump w) = S (clock w).
Proof. reflexivity. Qed.

Lemma noise_process_bump (w : world) :
  noise_process (bump w) = noise_process w.
Proof. reflexivity. Qed.

Lemma trace_bump (w : world) :
  trace (bump w) = trace w.
Proof. reflexivity. Qed.

Lemma host_of_logged (e : event) (w : world) :
  host_of (logged e w) = host_of w.
Proof. reflexivity. Qed.

Lemma stdin_logged (e : event) (w : world) :
  stdin (logged e w) = stdin w.
Proof. reflexivity. Qed.

Lemma amixer_runs_logged (e : event) (w : world) :
  amixer_runs (logged e w) = amixer_runs w.
Proof. reflexivity. Qed.

Lemma sinks_logged (e : event) (w : world) :
  sinks (logged e w) = sinks w.
Proof. reflexivity. Qed.

Lemma procs_logged (e : event) (w : world) :
  procs (logged e w) = procs w.
Proof. reflexivity. Qed.

Lemma next_pid_logged (e : event) (w : world) :
  next_pid (logged e w) = next_pid w.
Proof. reflexivity. Qed.

Lemma data_dir_logged (e : event) (w : world) :
  data_dir (logged e w) = data_dir w.
Proof. reflexivity. Qed.

Lemma data_txt_logged (e : event) (w : world) :
  data_txt (logged e w) = data_txt w.
Proof. reflexivity. Qed.

Lemma clock_logged (e : event) (w : world) :
  clock (logged e w) = clock w.
Proof. reflexivity. Qed.

Lemma noise_process_logged (e : event) (w : world) :
  noise_process (logged e w) = noise_process w.
Proof. reflexivity. Qed.

Lemma trace_logged (e : event) (w : world) :
  trace (logged e w) = (trace w ++ [e])%list.
Proof. reflexivity. Qed.

Lemma host_of_after_amixer (w : world) :
  host_of (after_amixer w) = host_of w.
Proof. reflexivity. Qed.

Lemma stdin_after_amixer (w : world) :
  stdin (after_amixer w) = stdin w.
Proof. reflexivity. Qed.

Lemma amixer_runs_after_amixer (w : world) :
  amixer_runs (after_amixer w) = S (amixer_runs w).
Proof. reflexivity. Qed.

Lemma sinks_after_amixer (w : world) :
  sinks (after_amixer w) = sinks w.
Proof. reflexivity. Qed.

Lemma procs_after_amixer (w : world) :
  procs (after_amixer w) = procs w.
Proof. reflexivity. Qed.

Lemma next_pid_after_amixer (w : world) :
  next_pid (after_amixer w) = next_pid w.
Proof. reflexivity. Qed.

Lemma data_dir_after_amixer (w : world) :
  data_dir (after_amixer w) = data_dir w.
Proof. reflexivity. Qed.

Lemma data_txt_after_amixer (w : world) :
  data_txt (after_amixer w) = data_txt w.
Proof. reflexivity. Qed.

Lemma clock_after_amixer (w : world) :
  clock (after_amixer w) = clock w.
Proof. reflexivity. Qed.

Lemma noise_process_after_amixer (w : world) :
  noise_process (after_amixer w) = noise_process w.
Proof. reflexivity. Qed.

Lemma trace_after_amixer (w : world) :
  trace (after_amixer w) = (trace w ++ [EvRun AmixerSgetMaster])%list.
Proof. reflexivity. Qed.

Lemma host_of_after_volume_set (si : sink_input) (values : list pynum) (w : world) :
  host_of (after_volume_set si values w) = host_of w.
Proof. reflexivity. Qed.

Lemma stdin_after_volume_set (si : sink_input) (values : list pynum) (w : world) :
  stdin (after_volume_set si values w) = stdin w.
Proof. reflexivity. Qed.

Lemma amixer_runs_after_volume_set (si : sink_input) (values : list pynum) (w : world) :
  amixer_runs (after_volume_set si values w) = amixer_runs w.
Proof. reflexivity. Qed.

Lemma procs_after_volume_set (si : sink_input) (values : list pynum) (w : world) :
  procs (after_volume_set si values w) = procs w.
Proof. reflexivity. Qed.

Lemma next_pid_after_volume_set (si : sink_input) (values : list pynum) (w : world) :
  next_pid (after_volume_set si values w) = next_pid w.
Proof. reflexivity. Qed.

Lemma data_dir_after_volume_set (si : sink_input) (values : list pynum) (w : world) :
  data_dir (after_volume_set si values w) = data_dir w.
Proof. reflexivity. Qed.

Lemma data_txt_after_volume_set (si : sink_input) (values : list pynum) (w : world) :
  data_txt (after_volume_set si values w) = data_txt w.
Proof. reflexivity. Qed.

Lemma clock_after_volume_set (si : sink_input) (values : list pynum) (w : world) :
  clock (after_volume_set si values w) = clock w.
Proof. reflexivity. Qed.

Lemma noise_process_after_volume_set (si : sink_input) (values : list pynum) (w : world) :
  noise_process (after_volume_set si values w) = noise_process w.
Proof. reflexivity. Qed.

Lemma trace_after_volume_set (si : sink_input) (values : list pynum) (w : world) :
  trace (after_volume_set si values w) = (trace w ++ [EvVolumeSet (si_index si) values])%list.
Proof. reflexivity. Qed.

Lemma host_of_spawned (c : command) (w : world) :
  host_of (spawned c w) = host_of w.
Proof. unfold spawned; destruct c; try reflexivity; destruct (sox_stream (host_of w)); reflexivity. Qed.

Lemma stdin_spawned (c : command) (w : world) :
  stdin (spawned c w) = stdin w.
Proof. unfold spawned; destruct c; try reflexivity; destruct (sox_stream (host_of w)); reflexivity. Qed.

Lemma amixer_runs_spawned (c : command) (w : world) :
  amixer_runs (spawned c w) = amixer_runs w.
Proof. unfold spawned; destruct c; try reflexivity; destruct (sox_stream (host_of w)); reflexivity. Qed.

Lemma procs_spawned (c : command) (w : world) :
  procs (spawned c w) = (next_pid w, Running) :: procs w.
Proof. unfold spawned; destruct c; try reflexivity; destruct (sox_stream (host_of w)); reflexivity. Qed.

Lemma next_pid_spawned (c : command) (w : world) :
  next_pid (spawned c w) = (next_pid w + 1)%Z.
Proof. unfold spawned; destruct c; try reflexivity; destruct (sox_stream (host_of w)); reflexivity. Qed.

Lemma data_dir_spawned (c : command) (w : world) :
  data_dir (spawned c w) = data_dir w.
Proof. unfold spawned; destruct c; try reflexivity; destruct (sox_stream (host_of w)); reflexivity. Qed.

Lemma data_txt_spawned (c : command) (w : world) :
  data_txt (spawned c w) = data_txt w.
Proof. unfold spawned; destruct c; try reflexivity; destruct (sox_stream (host_of w)); reflexivity. Qed.

Lemma clock_spawned (c : command) (w : world) :
  clock (spawned c w) = clock w.
Proof. unfold spawned; destruct c; try reflexivity; destruct (sox_stream (host_of w)); reflexivity. Qed.

Lemma noise_process_spawned (c : command) (w : world) :
  noise_process (spawned c w) = noise_process w.
Proof. unfold spawned; destruct c; try reflexivity; destruct (sox_stream (host_of w)); reflexivity. Qed.

Lemma trace_spawned (c : command) (w : world) :
  trace (spawned c w) = (trace w ++ [EvPopen c (next_pid w)])%list.
Proof. unfold spawned; destruct c; try reflexivity; destruct (sox_stream (host_of w)); reflexivity. Qed.

Lemma host_of_signalled (pid : Z) (sig : signal) (w : world) :
  host_of (signalled pid sig w) = host_of w.
Proof. reflexivity. Qed.

Lemma stdin_signalled (pid : Z) (sig : signal) (w : world) :
  stdin (signalled pid sig w) = stdin w.
Proof. reflexivity. Qed.

Lemma amixer_runs_signalled (pid : Z) (sig : signal) (w : world) :
  amixer_runs (signalled pid sig w) = amixer_runs w.
Proof. reflexivity. Qed.

Lemma sinks_signalled (pid : Z) (sig : signal) (w : world) :
  sinks (signalled pid sig w) = sinks w.
Proof. reflexivity. Qed.

Lemma procs_signalled (pid : Z) (sig : signal) (w : world) :
  procs (signalled pid sig w) = proc_update pid Terminated (procs w).
Proof. reflexivity. Qed.

Lemma next_pid_signalled (pid : Z) (sig : signal) (w : world) :
  next_pid (signalled pid sig w) = next_pid w.
Proof. reflexivity. Qed.

Lemma data_dir_signalled (pid : Z) (sig : signal) (w : world) :
  data_dir (signalled pid sig w) = data_dir w.
Proof. reflexivity. Qed.

Lemma data_txt_signalled (pid : Z) (sig : signal) (w : world) :
  data_txt (signalled pid sig w) = data_txt w.
Proof. reflexivity. Qed.

Lemma clock_signalled (pid : Z) (sig : signal) (w : world) :
  clock (signalled pid sig w) = clock w.
Proof. reflexivity. Qed.

Lemma noise_process_signalled (pid : Z) (sig : signal) (w : world) :
  noise_process (signalled pid sig w) = noise_process w.
Proof. reflexivity. Qed.

Lemma trace_signalled (pid : Z) (sig : signal) (w : world) :
  trace (signalled pid sig w) = (trace w ++ [EvKillpg pid sig])%list.
Proof. reflexivity. Qed.

Lemma host_of_set_noise_process (v : option Z) (w : world) :
  host_of (set_noise_process v w) = host_of w.
Proof. reflexivity. Qed.

Lemma stdin_set_noise_process (v : option Z) (w : world) :
  stdin (set_noise_process v w) = stdin w.
Proof. reflexivity. Qed.

Lemma amixer_runs_set_noise_process (v : option Z) (w : world) :
  amixer_runs (set_noise_process v w) = amixer_runs w.
Proof. reflexivity. Qed.

Lemma sinks_set_noise_process (v : option Z) (w : world) :
  sinks (set_noise_process v w) = sinks w.
Proof. reflexivity. Qed.

Lemma procs_set_noise_process (v : option Z) (w : world) :
  procs (set_noise_process v w) = procs w.
Proof. reflexivity. Qed.

Lemma next_pid_set_noise_process (v : option Z) (w : world) :
  next_pid (set_noise_process v w) = next_pid w.
Proof. reflexivity. Qed.

Lemma data_dir_set_noise_process (v : option Z) (w : world) :
  data_dir (set_noise_process v w) = data_dir w.
Proof. reflexivity. Qed.

Lemma data_txt_set_noise_process (v : option Z) (w : world) :
  data_txt (set_noise_process v w) = data_txt w.
Proof. reflexivity. Qed.

Lemma clock_set_noise_process (v : option Z) (w : world) :
  clock (set_noise_process v w) = clock w.
Proof. reflexivity. Qed.

Lemma noise_process_set_noise_process (v : option Z) (w : world) :
  noise_process (set_noise_process v w) = v.
Proof. reflexivity. Qed.

Lemma trace_set_noise_process (v : option Z) (w : world) :
  trace (set_noise_process v w) = trace w.
Proof. reflexivity. Qed.

Lemma host_of_set_stdin (v : list string) (w : world) :
  host_of (set_stdin v w) = host_of w.
Proof. reflexivity. Qed.

Lemma stdin_set_stdin (v : list string) (w : world) :
  stdin (set_stdin v w) = v.
Proof. reflexivity. Qed.

Lemma amixer_runs_set_stdin (v : list string) (w : world) :
  amixer_runs (set_stdin v w) = amixer_runs w.
Proof. reflexivity. Qed.

Lemma sinks_set_stdin (v : list string) (w : world) :
  sinks (set_stdin v w) = sinks w.
Proof. reflexivity. Qed.

Lemma procs_set_stdin (v : list string) (w : world) :
  procs (set_stdin v w) = procs w.
Proof. reflexivity. Qed.

Lemma next_pid_set_stdin (v : list string) (w : world) :
  next_pid (set_stdin v w) = next_pid w.
Proof. reflexivity. Qed.

Lemma data_dir_set_stdin (v : list string) (w : world) :
  data_dir (set_stdin v w) = data_dir w.
Proof. reflexivity. Qed.

Lemma data_txt_set_stdin (v : list string) (w : world) :
  data_txt (set_stdin v w) = data_txt w.
Proof. reflexivity. Qed.

Lemma clock_set_stdin (v : list string) (w : world) :
  clock (set_stdin v w) = clock w.
Proof. reflexivity. Qed.

Lemma noise_process_set_stdin (v : list string) (w : world) :
  noise_process (set_stdin v w) = noise_process w.
Proof. reflexivity. Qed.

Lemma trace_set_stdin (v : list string) (w : world) :
  trace (set_stdin v w) = trace w.
Proof. reflexivity. Qed.

#[export] Hint Rewrite
  host_of_bump stdin_bump amixer_runs_bump sinks_bump
  procs_bump next_pid_bump data_dir_bump data_txt_bump
  clock_bump noise_process_bump trace_bump host_of_logged
  stdin_logged amixer_runs_logged sinks_logged procs_logged
  next_pid_logged data_dir_logged data_txt_logged clock_logged
  noise_process_logged trace_logged host_of_after_amixer stdin_after_amixer
  amixer_runs_after_amixer sinks_after_amixer procs_after_amixer next_pid_after_amixer
  data_dir_after_amixer data_txt_after_amixer clock_after_amixer noise_process_after_amixer
  trace_after_amixer host_of_after_volume_set stdin_after_volume_set amixer_runs_after_volume_set
  procs_after_volume_set next_pid_after_volume_set data_dir_after_volume_set data_txt_after_volume_set
  clock_after_volume_set noise_process_after_volume_set trace_after_volume_set host_of_spawned
  stdin_spawned amixer_runs_spawned procs_spawned next_pid_spawned
  data_dir_spawned data_txt_spawned clock_spawned noise_process_spawned
  trace_spawned host_of_signalled stdin_signalled amixer_runs_signalled
  sinks_signalled procs_signalled next_pid_signalled data_dir_signalled
  data_txt_signalled clock_signalled noise_process_signalled trace_signalled
  host_of_set_noise_process stdin_set_noise_process amixer_runs_set_noise_process sinks_set_noise_process
  procs_set_noise_process next_pid_set_noise_process data_dir_set_noise_process data_txt_set_noise_process
  clock_set_noise_process noise_process_set_noise_process trace_set_noise_process host_of_set_stdin
  stdin_set_stdin amixer_runs_set_stdin sinks_set_stdin procs_set_stdin
  next_pid_set_stdin data_dir_set_stdin data_txt_set_stdin clock_set_stdin
  noise_process_set_stdin trace_set_stdin
  : world.


Lemma sinks_spawned_player (mean sd vol : float) (w : world) (si : sink_input) :
  sox_stream (host_of w) = Some si ->
  sinks (spawned (PlayNoise mean sd vol) w) = (sinks w ++ [si])%list.
Proof. unfold spawned. intros ->. reflexivity. Qed.

(** ** Computations only add to the trace *)

Definition extends {A} (c : M A) : Prop :=
  forall w : world, exists l : list event, trace (snd (c w)) = (trace w ++ l)%list.

Create HintDb extends.

Lemma extends_ret {A} (a : A) : extends (ret a).
Proof. intro w. exists []. cbn. now rewrite app_nil_r. Qed.

Lemma extends_raise {A} (e : exn) : extends (@raise A e).
Proof. intro w. exists []. cbn. now rewrite app_nil_r. Qed.

Lemma extends_hang {A} : extends (@hang A).
Proof. intro w. exists []. cbn. now rewrite app_nil_r. Qed.

Lemma extends_lift {A} (r : result A) : extends (lift r).
Proof. intro w. exists []. cbn. now rewrite app_nil_r. Qed.

Lemma extends_get {A} (f : world -> A) : extends (get f).
Proof. intro w. exists []. cbn. now rewrite app_nil_r. Qed.

Lemma extends_emit (e : event) : extends (emit e).
Proof. intro w. exists [e]. reflexivity. Qed.

Lemma extends_tick : extends tick.
Proof. intro w. exists []. cbn. now rewrite app_nil_r. Qed.

Lemma extends_modify (f : world -> world) :
  (forall w, trace (f w) = trace w) -> extends (modify f).
Proof. intros Hf w. exists []. cbn. now rewrite Hf, app_nil_r. Qed.

Lemma extends_bind {A B} (c : M A) (k : A -> M B) :
  extends c -> (forall a, extends (k a)) -> extends (bind c k).
Proof.
  intros Hc Hk w. unfold bind. destruct (Hc w) as [l Hl].
  destruct (c w) as [[[a|e]|] w1]; cbn [snd] in *; try (exists l; exact Hl).
  destruct (Hk a w1) as [l' Hl']. exists (l ++ l')%list.
  rewrite Hl', Hl, app_assoc. reflexivity.
Qed.

Lemma extends_try_except {A} (c : M A) (handles : exn -> bool) (h : exn -> M A) :
  extends c -> (forall e, extends (h e)) -> extends (try_except c handles h).
Proof.
  intros Hc Hh w. unfold try_except. destruct (Hc w) as [l Hl].
  destruct (c w) as [[[a|e]|] w1]; cbn [snd] in *; try (exists l; exact Hl).
  destruct (handles e); [|exists l; exact Hl].
  destruct (Hh e w1) as [l' Hl']. exists (l ++ l')%list.
  rewrite Hl', Hl, app_assoc. reflexivity.
Qed.

Lemma extends_finally {A} (c : M A) (cleanup : M unit) :
  extends c -> extends cleanup -> extends (finally c cleanup).
Proof.
  intros Hc Hf w. unfold finally. destruct (Hc w) as [l Hl].
  destruct (c w) as [[r|] w1]; cbn [snd] in *; [|exists l; exact Hl].
  destruct (Hf w1) as [l' Hl'].
  destruct (cleanup w1) as [[[[]|e]|] w2]; cbn [snd] in *;
    exists (l ++ l')%list; rewrite Hl', Hl, app_assoc; reflexivity.
Qed.

Lemma extends_while_true (fuel : nat) (body : M bool) :
  extends body -> extends (while_true fuel body).
Proof.
  intro Hb. induction fuel as [|fuel IH]; cbn [while_true].
  - apply extends_hang.
  - apply extends_bind; [exact Hb|]. intros [|]; [exact IH | apply extends_ret].
Qed.

#[export] Hint Resolve extends_ret extends_raise extends_hang extends_lift extends_get
  extends_emit extends_tick extends_bind extends_try_except extends_finally
  extends_while_true : extends.

Ltac extends_tac :=
  repeat first
    [ apply extends_bind; [|intros]
    | apply extends_try_except; [|intros]
    | apply extends_finally
    | apply extends_while_true
    | apply extends_modify; intros; reflexivity
    | solve [auto with extends]
    | match goal with
      | |- extends (match ?x with _ => _ end) => destruct x
      | |- extends (let '(_, _) := ?x in _) => destruct x
      end ].

Lemma extends_get_system_volume : extends get_system_volume.
Proof. unfold get_system_volume, run_amixer. extends_tac. Qed.

Lemma extends_set_volume v m si : extends (set_volume v m si).
Proof. unfold set_volume, volume_set. extends_tac. Qed.

Lemma extends_print items : extends (print items).
Proof. unfold print. extends_tac. Qed.

Lemma extends_sleep ms : extends (sleep ms).
Proof. unfold sleep. extends_tac. Qed.

Lemma extends_killpg pid sig : extends (killpg_getpgid pid sig).
Proof. unfold killpg_getpgid. extends_tac. Qed.

#[export] Hint Resolve extends_get_system_volume extends_set_volume extends_print
  extends_sleep extends_killpg : extends.

Lemma extends_terminate_noise pid label : extends (terminate_noise pid label).
Proof. unfold terminate_noise. extends_tac. Qed.

#[export] Hint Resolve extends_terminate_noise : extends.

Lemma extends_adjust_loop fuel si : extends (adjust_loop fuel si).
Proof. unfold adjust_loop. extends_tac. Qed.

(** ** Starting the player *)

Lemma find_sox_sink_input_run (w : world) :
  find_sox_sink_input w
  = if interrupted w then (Some (Raise KeyboardInterrupt), bump w)
    else (Some (Ok (find is_sox (sinks w))), logged EvSinkInputList (bump w)).
Proof.
  unfold find_sox_sink_input. unfold bind at 1. rewrite sink_input_list_run.
  destruct (interrupted w); reflexivity.
Qed.

(** [interrupted W = false] for a world [W] a few operations after [w], from
    [H : calm k w]. *)
Ltac quiet_tac H :=
  unfold interrupted; autorewrite with world;
  let t := fresh "t" in
  try unfold calm in H;
  match goal with
  | |- context [ctrl_c (host_of ?w)] =>
      destruct (ctrl_c (host_of w)) as [t|]; [apply Nat.eqb_neq; lia | reflexivity]
  end.

Definition reading_ok (output : string) : bool :=
  match mixer_reading output with
  | Ok (v, m) => match get_new_volume v m with Ok _ => true | Raise _ => false end
  | Raise _ => false
  end.

Lemma find_is_sox_app (l : list sink_input) (si : sink_input) :
  find is_sox l = None -> is_sox si = true -> find is_sox (l ++ [si]) = Some si.
Proof.
  induction l as [|s l IH]; cbn [find app]; intros Hl Hsi.
  - rewrite Hsi. reflexivity.
  - destruct (is_sox s); [discriminate|]. auto.
Qed.


(** One operation forward, on a host that [H] keeps calm for long enough. *)
Ltac step_run :=
  first [ rewrite pulse_connect_run | rewrite get_system_volume_run | rewrite sleep_run
        | rewrite find_sox_sink_input_run | rewrite popen_run | rewrite set_volume_run
        | rewrite print_run | rewrite killpg_getpgid_run ].

Ltac step_quiet H :=
  match goal with
  | |- context [if interrupted ?W then _ else _] =>
      replace (interrupted W) with false by (symmetry; quiet_tac H)
  end.

Ltac find_op :=
  first [ step_run
        | progress cbn [modify get ret raise lift]; find_op
        | unfold bind at 1; find_op ].

Ltac fwd H := find_op; step_quiet H; autorewrite with world.

(** The first eight operations of [play_and_adjust_volume] when no sox stream
    is there yet and the started player shows up: the loop is entered in a
    world [W] with the player started and its gain set once. *)
Lemma play_and_adjust_volume_enters_loop :
  forall (fuel : nat) (mean standard_deviation initial_volume_dB : float) (w : world)
         (volume_percentage : Z) (is_muted : bool) (gain : pynum) (si : sink_input),
    find is_sox (sinks w) = None ->
    sox_stream (host_of w) = Some si ->
    is_sox si = true ->
    mixer_reading (amixer_out (host_of w) (amixer_runs w)) = Ok (volume_percentage, is_muted) ->
    get_new_volume volume_percentage is_muted = Ok gain ->
    calm 8 w ->
    exists W : world,
      play_and_adjust_volume fuel mean standard_deviation initial_volume_dB w
      = finally (adjust_loop fuel si) pulse_close W
      /\ trace W
         = (trace w
            ++ [EvPulseConnect "volume-adjuster";
                EvRun AmixerSgetMaster;
                EvSleep 200;
                EvSinkInputList;
                EvPopen (PlayNoise mean standard_deviation (initial_volume_dB - 20)%float)
                        (next_pid w);
                EvSleep 200;
                EvSinkInputList;
                EvVolumeSet (si_index si) (repeat gain (List.length (si_volume si)))])%list
      /\ host_of W = host_of w
      /\ clock W = (clock w + 8)%nat
      /\ amixer_runs W = S (amixer_runs w)
      /\ noise_process W = Some (next_pid w)
      /\ procs W = (next_pid w, Running) :: procs w.
Proof.
  intros fuel mean sd vol w v m g si Hnone Hstream Hsox Hread Hgain Hcalm.
  unfold play_and_adjust_volume.
  fwd Hcalm. unfold finally at 1.
  fwd Hcalm. rewrite Hread.
  fwd Hcalm. fwd Hcalm. rewrite Hnone.
  fwd Hcalm. fwd Hcalm. fwd Hcalm.
  erewrite sinks_spawned_player by (autorewrite with world; exact Hstream).
  autorewrite with world.
  rewrite (@find_is_sox_app _ _ Hnone Hsox).
  find_op. rewrite Hgain. step_quiet Hcalm.
  eexists. split; [unfold finally; reflexivity|].
  autorewrite with world. rewrite <- !app_assoc. cbn [app].
  repeat split; try reflexivity. lia.
Qed.

(** C10. On the Linux path, when no sox stream is present yet, the player is
    started at [initial_volume_dB - 20] dB, after the mixer was read and before
    any gain is set; the first gain set on its stream comes after that and is
    the one derived from that reading of the system volume. *)
Theorem player_started_20dB_down :
  forall (fuel : nat) (mean standard_deviation initial_volume_dB : float) (w : world)
         (volume_percentage : Z) (is_muted : bool) (gain : pynum) (si : sink_input),
    find is_sox (sinks w) = None ->
    sox_stream (host_of w) = Some si ->
    is_sox si = true ->
    mixer_reading (amixer_out (host_of w) (amixer_runs w)) = Ok (volume_percentage, is_muted) ->
    get_new_volume volume_percentage is_muted = Ok gain ->
    calm 8 w ->
    exists rest : list event,
      trace (snd (play_and_adjust_volume fuel mean standard_deviation initial_volume_dB w))
      = (trace w
         ++ [EvPulseConnect "volume-adjuster";
             EvRun AmixerSgetMaster;
             EvSleep 200;
             EvSinkInputList;
             EvPopen (PlayNoise mean standard_deviation (initial_volume_dB - 20)%float)
                     (next_pid w);
             EvSleep 200;
             EvSinkInputList;
             EvVolumeSet (si_index si) (repeat gain (List.length (si_volume si)))]
         ++ rest)%list.
Proof.
  intros fuel mean sd vol w v m g si Hnone Hstream Hsox Hread Hgain Hcalm.
  destruct (@play_and_adjust_volume_enters_loop fuel mean sd vol w _ _ _ _
              Hnone Hstream Hsox Hread Hgain Hcalm) as (W & Hrun & Htrace & _).
  rewrite Hrun.
  assert (Hext : extends (finally (adjust_loop fuel si) pulse_close)).
  { apply extends_finally; [apply extends_adjust_loop|]. unfold pulse_close. extends_tac. }
  destruct (Hext W) as [rest Hrest]. exists rest.
  rewrite Hrest, Htrace, <- app_assoc. reflexivity.
Qed.

(** ** Ctrl+C in the polling loop *)

Definition poll_once (sox_sink_input : sink_input) : M bool :=
  ('(volume_percentage, is_muted) <- get_system_volume ;;
   set_volume volume_percentage is_muted sox_sink_input ;;
   sleep 500 ;;
   ret true)%monad.

Lemma interrupted_at (w : world) (t : nat) :
  ctrl_c (host_of w) = Some t -> interrupted w = (t =? clock w)%nat.
Proof. unfold interrupted. intros ->. reflexivity. Qed.

Lemma poll_until_ctrl_c :
  forall (si : sink_input) (t fuel : nat) (w : world),
    ctrl_c (host_of w) = Some t ->
    (clock w <= t)%nat ->
    (t < clock w + fuel)%nat ->
    (forall k : nat, reading_ok (amixer_out (host_of w) k) = true) ->
    exists w1 : world,
      while_true fuel (poll_once si) w = (Some (Raise KeyboardInterrupt), w1)
      /\ host_of w1 = host_of w
      /\ clock w1 = S t
      /\ procs w1 = procs w
      /\ noise_process w1 = noise_process w
      /\ exists l : list event, trace w1 = (trace w ++ l)%list.
Proof.
  intros si t fuel. induction fuel as [|fuel IH]; intros w Ht Hle Hlt Hok; [lia|].
  cbn [while_true]. unfold bind at 1. unfold poll_once at 1.
  unfold bind at 1. rewrite get_system_volume_run, (@interrupted_at _ _ Ht).
  destruct (Nat.eqb_spec t (clock w)) as [E0|E0].
  { eexists. split; [reflexivity|]. cbn. repeat split; try congruence.
    exists []. now rewrite app_nil_r. }
  pose proof (Hok (amixer_runs w)) as Hr. unfold reading_ok in Hr.
  destruct (mixer_reading _) as [[v m]|]; [|discriminate Hr].
  destruct (get_new_volume v m) as [g|] eqn:Hg; [|discriminate Hr].
  unfold bind at 1. rewrite set_volume_run, Hg.
  rewrite (@interrupted_at _ t) by exact Ht.
  replace (clock (after_amixer (bump w))) with (S (clock w)) by reflexivity.
  destruct (Nat.eqb_spec t (S (clock w))) as [E1|E1].
  { eexists. split; [reflexivity|]. cbn. repeat split; try congruence.
    eexists. reflexivity. }
  unfold bind at 1. rewrite sleep_run.
  rewrite (@interrupted_at _ t) by exact Ht.
  match goal with |- context [(t =? clock ?W)%nat] =>
    replace (clock W) with (S (S (clock w))) by reflexivity end.
  destruct (Nat.eqb_spec t (S (S (clock w)))) as [E2|E2].
  { eexists. split; [reflexivity|]. cbn. repeat split; try congruence.
    rewrite <- app_assoc. eexists. reflexivity. }
  cbn [ret].
  match goal with |- context [while_true fuel _ ?W] =>
    destruct (IH W) as (w1 & Hrun & Hh & Hc & Hp & Hn & l & Hl);
      [exact Ht | cbn; lia | cbn; lia | exact Hok |] end.
  exists w1. split; [exact Hrun|].
  split; [exact Hh|]. split; [exact Hc|]. split; [exact Hp|]. split; [exact Hn|].
  rewrite Hl. cbn. rewrite <- !app_assoc. eexists. reflexivity.
Qed.

Lemma proc_lookup_update (pid : Z) (s : proc_state) (ps : list (Z * proc_state)) :
  proc_lookup pid ps <> None -> proc_lookup pid (proc_update pid s ps) = Some s.
Proof.
  induction ps as [|[p s0] ps IH]; cbn [proc_lookup proc_update]; [congruence|].
  destruct (p =? pid)%Z eqn:E; cbn [proc_lookup]; rewrite E; auto.
Qed.

Lemma calm_after (k : nat) (w : world) (t : nat) :
  ctrl_c (host_of w) = Some t -> (t < clock w)%nat -> calm k w.
Proof. unfold calm. intros -> H. left. exact H. Qed.

(** The polling loop under a Ctrl+C still to come: the loop ends on it, the
    handler signals the player's group, and the interrupt goes on. *)
Lemma adjust_loop_on_ctrl_c :
  forall (si : sink_input) (t fuel : nat) (w : world) (pid : Z),
    ctrl_c (host_of w) = Some t ->
    (clock w <= t)%nat ->
    (t < clock w + fuel)%nat ->
    (forall k : nat, reading_ok (amixer_out (host_of w) k) = true) ->
    noise_process w = Some pid ->
    proc_lookup pid (procs w) <> None ->
    exists (w1 : world) (l : list event),
      adjust_loop fuel si w = (Some (Raise KeyboardInterrupt), w1)
      /\ host_of w1 = host_of w
      /\ (t < clock w1)%nat
      /\ noise_process w1 = Some pid
      /\ proc_lookup pid (procs w1) = Some Terminated
      /\ trace w1
         = (trace w ++ l
            ++ [EvPrint [PStr "Exiting volume-adjust loop."]; EvKillpg pid SIGTERM])%list.
Proof.
  intros si t fuel w pid Ht Hle Hlt Hok Hnp Hproc.
  destruct (@poll_until_ctrl_c si t fuel w Ht Hle Hlt Hok)
    as (w1 & Hrun & Hh & Hc & Hp & Hn & l & Hl).
  unfold adjust_loop, try_except.
  change (while_true fuel _ w) with (while_true fuel (poll_once si) w).
  rewrite Hrun. cbn [is_KeyboardInterrupt].
  assert (Hcalm : calm 4 w1) by (apply (@calm_after 4 w1 t); [congruence | lia]).
  fwd Hcalm. cbn [get bind]. autorewrite with world. rewrite Hn, Hnp.
  unfold terminate_noise, try_except. unfold bind at 1.
  rewrite killpg_getpgid_run. step_quiet Hcalm. autorewrite with world. rewrite Hp.
  destruct (proc_lookup pid (procs w)) as [st|] eqn:Hst; [|congruence].
  cbn [raise].
  eexists. exists l. split; [reflexivity|].
  autorewrite with world. rewrite Hh, Hc, Hn, Hp, Hl.
  rewrite proc_lookup_update by congruence.
  rewrite <- !app_assoc. cbn [app]. repeat split; try congruence. lia.
Qed.

(** The same from the start of [play_and_adjust_volume]: the interrupt leaves
    it after the handler and after the connection to the server is closed. *)
Lemma play_and_adjust_volume_on_ctrl_c :
  forall (fuel : nat) (mean standard_deviation initial_volume_dB : float) (w : world)
         (si : sink_input) (t : nat),
    find is_sox (sinks w) = None ->
    sox_stream (host_of w) = Some si ->
    is_sox si = true ->
    (forall k : nat, reading_ok (amixer_out (host_of w) k) = true) ->
    ctrl_c (host_of w) = Some t ->
    (clock w + 8 <= t)%nat ->
    (t < clock w + 8 + fuel)%nat ->
    exists (w1 : world) (before after : list event),
      play_and_adjust_volume fuel mean standard_deviation initial_volume_dB w
      = (Some (Raise KeyboardInterrupt), w1)
      /\ host_of w1 = host_of w
      /\ (t < clock w1)%nat
      /\ noise_process w1 = Some (next_pid w)
      /\ proc_lookup (next_pid w) (procs w1) = Some Terminated
      /\ trace w1
         = (trace w ++ before
            ++ [EvPopen (PlayNoise mean standard_deviation (initial_volume_dB - 20)%float)
                        (next_pid w)]
            ++ after
            ++ [EvPrint [PStr "Exiting volume-adjust loop."];
                EvKillpg (next_pid w) SIGTERM;
                EvPulseClose])%list.
Proof.
  intros fuel mean sd vol w si t Hnone Hstream Hsox Hok Ht Hle Hlt.
  pose proof (Hok (amixer_runs w)) as Hr. unfold reading_ok in Hr.
  destruct (mixer_reading _) as [[v m]|] eqn:Hread; [|discriminate Hr].
  destruct (get_new_volume v m) as [g|] eqn:Hg; [|discriminate Hr].
  assert (Hcalm : calm 8 w) by (unfold calm; rewrite Ht; lia).
  destruct (@play_and_adjust_volume_enters_loop fuel mean sd vol w _ _ _ _
              Hnone Hstream Hsox Hread Hg Hcalm)
    as (W & Hrun & Htrace & Hh & Hc & _ & Hnp & Hprocs).
  destruct (@adjust_loop_on_ctrl_c si t fuel W (next_pid w))
    as (w1 & l & Hloop & Hh1 & Hc1 & Hnp1 & Hp1 & Ht1).
  - congruence.
  - lia.
  - lia.
  - intro k. rewrite Hh. apply Hok.
  - exact Hnp.
  - rewrite Hprocs. cbn [proc_lookup]. rewrite Z.eqb_refl. discriminate.
  - rewrite Hrun. unfold finally. rewrite Hloop. unfold pulse_close, emit.
    eexists.
    exists [EvPulseConnect "volume-adjuster"; EvRun AmixerSgetMaster; EvSleep 200;
            EvSinkInputList].
    exists ([EvSleep 200; EvSinkInputList;
             EvVolumeSet (si_index si) (repeat g (List.length (si_volume si)))] ++ l)%list.
    split; [reflexivity|].
    cbn [host_of clock noise_process procs trace set_trace].
    rewrite Ht1, Htrace, <- !app_assoc. cbn [app].
    repeat split; try congruence.
Qed.

(** ** Two runs *)

Definition with_ctrl_c (t : nat) (h : host) : host :=
  {| platform := platform h;
     amixer_out := amixer_out h;
     sox_stream := sox_stream h;
     sox_stat := sox_stat h;
     timestamp := timestamp h;
     ctrl_c := Some t |}.

(** A Linux host at 40%, unmuted, whose recording has the two tones of C4. *)
Definition two_tone_host : host :=
  example_host "linux" "  Front Left: Playback 26214 [40%] [on]" [(100, 1); (300, 1)]%float.

Lemma player_started_20dB_down_witness :
  exists rest : list event,
    trace (snd (play_and_adjust_volume 3 200 100 0 (boot two_tone_host [] None)))
    = ([EvPulseConnect "volume-adjuster";
        EvRun AmixerSgetMaster;
        EvSleep 200;
        EvSinkInputList;
        EvPopen (PlayNoise 200 100 (0 - 20)%float) 4242;
        EvSleep 200;
        EvSinkInputList;
        EvVolumeSet 7 (repeat (PyFloat 0.4) 2)]
       ++ rest)%list.
Proof.
  apply (@player_started_20dB_down 3 200%float 100%float 0%float
           (boot two_tone_host [] None) 40%Z false (PyFloat 0.4) example_stream).
  - reflexivity.
  - reflexivity.
  - reflexivity.
  - reflexivity.
  - reflexivity.
  - exact I.
Defined.

(** The world in which the script, started with old data and the answer [o],
    gets Ctrl+C at its 31st operation. *)
Definition ctrl_c_world : world :=
  boot (with_ctrl_c 30 two_tone_host) ["o"] (Some [(100, 1)]%float).

(* ================================================================== *)
(** * Further properties of the script *)
(* ================================================================== *)

(** ** What the mixer text is read as *)

Lemma split_on_absent (c : ascii) (s : string) :
  has_char c s = false -> split_on c s = (s, []).
Proof.
  induction s as [|a s IH]; cbn [has_char split_on]; [reflexivity|].
  intro H. apply orb_false_iff in H. destruct H as [Ha Hs].
  rewrite (IH Hs), Ha. reflexivity.
Qed.

Lemma split_on_present (c : ascii) (s : string) :
  has_char c s = true -> snd (split_on c s) <> [].
Proof.
  induction s as [|a s IH]; cbn [has_char split_on]; [discriminate|].
  intro H. destruct (split_on c s) as [p ps].
  destruct (Ascii.eqb a c); cbn [snd]; [discriminate|].
  cbn [orb] in H. exact (IH H).
Qed.

Lemma split_on_app (c : ascii) (p s : string) :
  has_char c p = false ->
  split_on c (p ++ s) = (p ++ fst (split_on c s), snd (split_on c s)).
Proof.
  induction p as [|a p IH]; cbn [has_char append split_on]; intro H.
  - destruct (split_on c s); reflexivity.
  - apply orb_false_iff in H. destruct H as [Ha Hp].
    rewrite (IH Hp), Ha. reflexivity.
Qed.

Lemma split_on_sep (c : ascii) (s : string) :
  split_on c (String c s) = (EmptyString, fst (split_on c s) :: snd (split_on c s)).
Proof.
  cbn [split_on]. rewrite Ascii.eqb_refl. destruct (split_on c s); reflexivity.
Qed.

(** [int] fails with [ValueError] only, in one of its two wordings. *)
Lemma py_int_error (s : string) (e : exn) :
  py_int s = Raise e ->
  e = ValueError (invalid_literal s)
  \/ exists count : nat,
       (max_str_digits < count)%nat /\ e = ValueError (too_many_digits count).
Proof.
  unfold py_int. destruct (split_sign _) as [negative body].
  destruct (scan_digits 0 0 Nothing body) as [[[z count] rest]|];
    [|intro H; inversion H; auto].
  destruct (count =? 0)%nat; [intro H; inversion H; auto|].
  destruct (max_str_digits <? count)%nat eqn:E.
  - intro H. inversion H. right. exists count. split; [|reflexivity].
    apply Nat.ltb_lt. exact E.
  - destruct (lstrip rest); intro H; inversion H; auto.
Qed.

(** X2. The errors of reading the mixer: [IndexError] exactly when the text
    has no opening bracket, and otherwise either a value, with the mute flag
    that says whether [off] occurs in the text, or the [ValueError] of [int],
    in one of its two wordings. *)
Theorem mixer_reading_errors :
  forall output : string,
    (has_char "[" output = false <->
     mixer_reading output = Raise (IndexError "list index out of range"))
    /\ (has_char "[" output = true ->
        (exists volume : Z, mixer_reading output = Ok (volume, str_contains "off" output))
        \/ (exists text : string,
              mixer_reading output = Raise (ValueError (invalid_literal text)))
        \/ (exists count : nat,
              (max_str_digits < count)%nat
              /\ mixer_reading output = Raise (ValueError (too_many_digits count)))).
Proof.
  intro output. unfold mixer_reading, str_split, py_index.
  destruct (has_char "[" output) eqn:H.
  - pose proof (split_on_present _ _ H) as Hne.
    destruct (split_on "[" output) as [p ps]. cbn [snd] in Hne.
    destruct ps as [|q ps]; [congruence|]. cbn [nth_error rbind].
    destruct (split_on "%" q) as [d ds]. cbn [nth_error rbind].
    destruct (py_int d) as [z|e] eqn:E; cbn [rbind].
    + split; [split; discriminate|]. intros _. left. exists z. reflexivity.
    + split; [split; [discriminate|]|].
      * apply py_int_error in E. destruct E as [-> | (count & _ & ->)]; discriminate.
      * intros _. right.
        apply py_int_error in E. destruct E as [-> | (count & Hcount & ->)].
        -- left. exists d. reflexivity.
        -- right. exists count. split; [exact Hcount | reflexivity].
  - rewrite (split_on_absent _ _ H). cbn [nth_error rbind].
    split; [split; reflexivity | discriminate].
Qed.

(** Decimal digits, as [int] reads them. *)
Fixpoint uint_chars (u : Decimal.uint) : list ascii :=
  match u with
  | Decimal.Nil => []
  | Decimal.D0 u' => "0"%char :: uint_chars u'
  | Decimal.D1 u' => "1"%char :: uint_chars u'
  | Decimal.D2 u' => "2"%char :: uint_chars u'
  | Decimal.D3 u' => "3"%char :: uint_chars u'
  | Decimal.D4 u' => "4"%char :: uint_chars u'
  | Decimal.D5 u' => "5"%char :: uint_chars u'
  | Decimal.D6 u' => "6"%char :: uint_chars u'
  | Decimal.D7 u' => "7"%char :: uint_chars u'
  | Decimal.D8 u' => "8"%char :: uint_chars u'
  | Decimal.D9 u' => "9"%char :: uint_chars u'
  end.

Lemma uint_chars_string (u : Decimal.uint) :
  list_ascii_of_string (NilEmpty.string_of_uint u) = uint_chars u.
Proof. induction u; cbn; congruence. Qed.

Ltac digit_case d IH :=
  match goal with
  | |- scan_digits (Z.of_nat ?acc) ?count ?prev (?c :: ?l) = _ =>
      change (scan_digits (Z.of_nat acc) count prev (c :: l))
        with (scan_digits (10 * Z.of_nat acc + Z.of_nat d) (S count) Digit l);
      replace (10 * Z.of_nat acc + Z.of_nat d)%Z
        with (Z.of_nat (d + Nat.tail_mul 10 acc))
        by (rewrite Nat.tail_mul_spec; lia);
      rewrite IH by discriminate; cbn [List.length];
      rewrite Nat.add_succ_r; reflexivity
  end.

(** The scan of a run of digits that ends the text: their value, their
    number, and nothing left. *)
Lemma scan_digits_uint (u : Decimal.uint) :
  forall (acc count : nat) (prev : seen),
    prev <> Underscore ->
    scan_digits (Z.of_nat acc) count prev (uint_chars u)
    = Some (Z.of_nat (Nat.of_uint_acc u acc),
            (count + List.length (uint_chars u))%nat, []).
Proof.
  induction u as [|u IH|u IH|u IH|u IH|u IH|u IH|u IH|u IH|u IH|u IH];
    intros acc count prev H; cbn [uint_chars].
  - cbn [scan_digits List.length Nat.of_uint_acc]. rewrite Nat.add_0_r.
    destruct prev; [reflexivity | reflexivity | congruence].
  - digit_case 0%nat IH.
  - digit_case 1%nat IH.
  - digit_case 2%nat IH.
  - digit_case 3%nat IH.
  - digit_case 4%nat IH.
  - digit_case 5%nat IH.
  - digit_case 6%nat IH.
  - digit_case 7%nat IH.
  - digit_case 8%nat IH.
  - digit_case 9%nat IH.
Qed.

Definition is_digit (a : ascii) : bool :=
  match digit_of a with
  | Some _ => true
  | None => false
  end.

Lemma uint_chars_digits (u : Decimal.uint) : Forall (fun a => is_digit a = true) (uint_chars u).
Proof. induction u; cbn [uint_chars]; constructor; auto. Qed.

Lemma digit_not_space (a : ascii) : is_digit a = true -> is_space a = false.
Proof.
  destruct a as [[] [] [] [] [] [] [] []]; cbn; intro H; try reflexivity; discriminate H.
Qed.

Lemma digit_is_ascii (a : ascii) : is_digit a = true -> (nat_of_ascii a <? 127)%nat = true.
Proof.
  destruct a as [[] [] [] [] [] [] [] []]; cbn; intro H; try reflexivity; discriminate H.
Qed.

Lemma digit_no_sign (a : ascii) (l : list ascii) :
  is_digit a = true -> split_sign (a :: l) = (false, a :: l).
Proof.
  destruct a as [[] [] [] [] [] [] [] []]; cbn; intro H; try reflexivity; discriminate H.
Qed.

Lemma to_ascii_digits (l : list ascii) :
  Forall (fun a => is_digit a = true) l -> to_ascii l = l.
Proof.
  induction 1 as [|a l Ha _ IH]; cbn [to_ascii]; [reflexivity|].
  rewrite (digit_is_ascii _ Ha), IH. reflexivity.
Qed.

Lemma lstrip_digits (l : list ascii) :
  Forall (fun a => is_digit a = true) l -> lstrip l = l.
Proof.
  intros [|a l' Ha _]; cbn [lstrip]; [reflexivity|].
  rewrite (digit_not_space _ Ha). reflexivity.
Qed.

Lemma length_list_ascii (s : string) :
  List.length (list_ascii_of_string s) = String.length s.
Proof. induction s as [|a s IH]; cbn; congruence. Qed.

(** [int] reads back what decimal printing writes, up to the limit on the
    number of digits. *)
Lemma py_int_decimal (n : nat) :
  py_int (decimal n)
  = if (String.length (decimal n) <=? max_str_digits)%nat
    then Ok (Z.of_nat n)
    else Raise (ValueError (too_many_digits (String.length (decimal n)))).
Proof.
  assert (Hchars : exists (u : Decimal.uint) (acc : nat),
             list_ascii_of_string (decimal n) = uint_chars u
             /\ u <> Decimal.Nil
             /\ Nat.of_uint_acc u 0 = n).
  { unfold decimal, NilZero.string_of_uint.
    pose proof (DecimalNat.Unsigned.of_to n) as Hn. unfold Nat.of_uint in Hn.
    destruct (Nat.to_uint n) as [|u|u|u|u|u|u|u|u|u|u] eqn:E;
      [exists (Decimal.D0 Decimal.Nil), 0%nat; repeat split; [discriminate | exact Hn] |..];
      eexists; exists 0%nat; (split; [apply uint_chars_string|]);
      split; solve [discriminate | exact Hn]. }
  destruct Hchars as (u & _ & Hchars & Hu & Hval).
  unfold py_int. rewrite <- length_list_ascii, Hchars.
  rewrite to_ascii_digits, lstrip_digits by apply uint_chars_digits.
  destruct (uint_chars u) as [|c l] eqn:El.
  { destruct u; (congruence || discriminate El). }
  assert (Hc : is_digit c = true).
  { pose proof (uint_chars_digits u) as Hall. rewrite El in Hall.
    inversion Hall; assumption. }
  rewrite (@digit_no_sign c l Hc), <- El.
  pose proof (@scan_digits_uint u 0%nat 0%nat Nothing) as Hscan.
  cbn [Z.of_nat Nat.add] in Hscan. rewrite Hscan by discriminate.
  rewrite Hval, El. cbn [List.length Nat.add Nat.eqb].
  rewrite Nat.ltb_antisym.
  destruct (S (List.length l) <=? max_str_digits)%nat; reflexivity.
Qed.

Lemma has_char_digits (c : ascii) (s : string) :
  is_digit c = false ->
  Forall (fun a => is_digit a = true) (list_ascii_of_string s) ->
  has_char c s = false.
Proof.
  intro Hc. induction s as [|a s IH]; cbn [list_ascii_of_string has_char]; intro H.
  - reflexivity.
  - inversion H as [|? ? Ha Hs]; subst. rewrite (IH Hs), orb_false_r.
    apply Ascii.eqb_neq. intros ->. congruence.
Qed.

Lemma decimal_digits (n : nat) :
  Forall (fun a => is_digit a = true) (list_ascii_of_string (decimal n)).
Proof.
  unfold decimal, NilZero.string_of_uint.
  destruct (Nat.to_uint n); try (rewrite uint_chars_string; apply uint_chars_digits).
  repeat constructor.
Qed.

Lemma append_empty (s : string) : s ++ "" = s.
Proof. induction s as [|a s IH]; cbn; congruence. Qed.

Lemma str_split_at_first (c : ascii) (p s : string) :
  has_char c p = false ->
  str_split c (p ++ String c s) = p :: str_split c s.
Proof.
  intro H. unfold str_split. rewrite (@split_on_app c p _ H), split_on_sep.
  cbn [fst snd]. rewrite append_empty. destruct (split_on c s); reflexivity.
Qed.

(** What [int] is given from a line that shows the percentage [n]. *)
Lemma mixer_reading_decimal (before after : string) (n : nat) :
  has_char "[" before = false ->
  mixer_reading (before ++ "[" ++ decimal n ++ "%" ++ after)
  = rbind (py_int (decimal n)) (fun volume =>
      Ok (volume, str_contains "off" (before ++ "[" ++ decimal n ++ "%" ++ after))).
Proof.
  intro Hb. unfold mixer_reading.
  change (before ++ "[" ++ decimal n ++ "%" ++ after)
    with (before ++ String "[" (decimal n ++ String "%" after)).
  rewrite (@str_split_at_first _ _ _ Hb). unfold py_index at 1.
  assert (Hd1 : has_char "[" (decimal n) = false)
    by (apply has_char_digits; [reflexivity | apply decimal_digits]).
  assert (Hd2 : has_char "%" (decimal n) = false)
    by (apply has_char_digits; [reflexivity | apply decimal_digits]).
  unfold str_split at 1. rewrite (@split_on_app _ _ _ Hd1).
  cbn [nth_error rbind fst].
  replace (fst (split_on "[" (String "%" after)))
    with (String "%" (fst (split_on "[" after)))
    by (cbn [split_on]; destruct (split_on "[" after); reflexivity).
  rewrite (@str_split_at_first _ _ _ Hd2). cbn [py_index nth_error rbind].
  reflexivity.
Qed.

(** X1. A mixer line is read back as it was printed: whatever precedes the
    first opening bracket (without one itself) and whatever follows the percent
    sign, the volume is the number printed in decimal between them, and the
    mute flag says whether [off] occurs anywhere in the text -- as long as the
    number has no more digits than [int] converts, 4300; with more, the reading
    fails with the [ValueError] that says so. *)
Theorem mixer_reading_percentage :
  forall (before after : string) (n : nat),
    has_char "[" before = false ->
    ((String.length (decimal n) <= max_str_digits)%nat ->
     mixer_reading (before ++ "[" ++ decimal n ++ "%" ++ after)
     = Ok (Z.of_nat n, str_contains "off" (before ++ "[" ++ decimal n ++ "%" ++ after)))
    /\ ((max_str_digits < String.length (decimal n))%nat ->
        mixer_reading (before ++ "[" ++ decimal n ++ "%" ++ after)
        = Raise (ValueError (too_many_digits (String.length (decimal n))))).
Proof.
  intros before after n Hb.
  rewrite (@mixer_reading_decimal before after n Hb), py_int_decimal.
  split; intro Hlen.
  - apply Nat.leb_le in Hlen. rewrite Hlen. reflexivity.
  - apply Nat.leb_gt in Hlen. rewrite Hlen. reflexivity.
Qed.

Lemma mixer_reading_percentage_witness :
  mixer_reading ("  Front Left: Playback 26214 " ++ "[" ++ decimal 40 ++ "%" ++ "] [on]")
  = Ok (40%Z, false).
Proof.
  destruct (@mixer_reading_percentage "  Front Left: Playback 26214 " "] [on]" 40
              eq_refl) as [H _].
  apply H. apply Nat.leb_le. vm_compute. reflexivity.
Defined.

(** ** When the statistics stage succeeds *)



(** ** The polling loop left alone *)






(** ** A mixer line that cannot be read *)

Lemma mixer_reading_raises (output : string) (e : exn) :
  mixer_reading output = Raise e ->
  e = IndexError "list index out of range"
  \/ exists msg : string, e = ValueError msg.
Proof.
  unfold mixer_reading, str_split, py_index. intro H.
  destruct (split_on "[" output) as [p [|q ps]]; cbn [nth_error rbind] in H.
  - inversion H. auto.
  - destruct (split_on "%" q) as [d ds]. cbn [nth_error rbind] in H.
    destruct (py_int d) as [z|e'] eqn:E; cbn [rbind] in H; [discriminate H|].
    inversion H. subst e'. right.
    apply py_int_error in E. destruct E as [-> | (count & _ & ->)]; eexists; reflexivity.
Qed.

(** ** Playback on macOS *)

Lemma wait_run (pid : Z) (w : world) :
  wait pid w
  = if interrupted w then (Some (Raise KeyboardInterrupt), bump w)
    else match proc_lookup pid (procs w) with
         | Some Running =>
             match ctrl_c (host_of w) with
             | Some t =>
                 if (S (clock w) <=? t)%nat
                 then (Some (Raise KeyboardInterrupt),
                       set_clock (S t) (logged (EvWait pid) (bump w)))
                 else (None, logged (EvWait pid) (bump w))
             | None => (None, logged (EvWait pid) (bump w))
             end
         | _ => (Some (Ok tt),
                 set_procs (proc_remove pid (procs w)) (logged (EvWait pid) (bump w)))
         end.
Proof.
  unfold wait. rewrite tick_bind. destruct (interrupted w); [reflexivity|].
  destruct w as [h sin runs sk ps np dd dt clk npr tr].
  unfold bind, emit, get, modify, raise, hang, logged, bump.
  cbv beta iota delta [host_of clock procs trace set_trace set_clock set_procs fst snd].
  destruct (proc_lookup pid ps) as [[|]|]; try reflexivity.
  cbv beta iota delta [host_of clock procs trace set_trace set_clock set_procs fst snd].
  destruct (ctrl_c h) as [t|]; [|reflexivity].
  destruct (S clk <=? t)%nat; reflexivity.
Qed.

Lemma host_of_set_clock (v : nat) (w : world) :
  host_of (set_clock v w) = host_of w.
Proof. reflexivity. Qed.

Lemma stdin_set_clock (v : nat) (w : world) :
  stdin (set_clock v w) = stdin w.
Proof. reflexivity. Qed.

Lemma amixer_runs_set_clock (v : nat) (w : world) :
  amixer_runs (set_clock v w) = amixer_runs w.
Proof. reflexivity. Qed.

Lemma sinks_set_clock (v : nat) (w : world) :
  sinks (set_clock v w) = sinks w.
Proof. reflexivity. Qed.

Lemma procs_set_clock (v : nat) (w : world) :
  procs (set_clock v w) = procs w.
Proof. reflexivity. Qed.

Lemma next_pid_set_clock (v : nat) (w : world) :
  next_pid (set_clock v w) = next_pid w.
Proof. reflexivity. Qed.

Lemma data_dir_set_clock (v : nat) (w : world) :
  data_dir (set_clock v w) = data_dir w.
Proof. reflexivity. Qed.

Lemma data_txt_set_clock (v : nat) (w : world) :
  data_txt (set_clock v w) = data_txt w.
Proof. reflexivity. Qed.

Lemma noise_process_set_clock (v : nat) (w : world) :
  noise_process (set_clock v w) = noise_process w.
Proof. reflexivity. Qed.

Lemma trace_set_clock (v : nat) (w : world) :
  trace (set_clock v w) = trace w.
Proof. reflexivity. Qed.

Lemma clock_set_clock (v : nat) (w : world) :
  clock (set_clock v w) = v.
Proof. reflexivity. Qed.

#[export] Hint Rewrite
  host_of_set_clock stdin_set_clock amixer_runs_set_clock sinks_set_clock procs_set_clock next_pid_set_clock
  data_dir_set_clock data_txt_set_clock noise_process_set_clock trace_set_clock clock_set_clock
  : world.

(** X6. The macOS path starts the player once, at the computed level itself
    (no 20 dB reduction), and waits for it: without Ctrl+C the wait never
    returns and the player keeps running; a Ctrl+C during the wait sends
    SIGTERM to the player's group, after which it is not running, and the
    interrupt goes on to [main]. *)
Theorem play_noise_osx_until_ctrl_c :
  forall (mean standard_deviation volume_dB : float) (w : world),
    (ctrl_c (host_of w) = None ->
     exists w1 : world,
       play_noise_osx mean standard_deviation volume_dB w = (None, w1)
       /\ trace w1
          = (trace w
             ++ [EvPrint [PStr "Playing noise. Press Ctrl+C to stop."];
                 EvPopen (PlayNoiseOsx mean standard_deviation volume_dB) (next_pid w);
                 EvWait (next_pid w)])%list
       /\ is_running (next_pid w) w1 = true)
    /\ (forall t : nat,
          ctrl_c (host_of w) = Some t ->
          (clock w + 3 <= t)%nat ->
          exists w1 : world,
            play_noise_osx mean standard_deviation volume_dB w
            = (Some (Raise KeyboardInterrupt), w1)
            /\ trace w1
               = (trace w
                  ++ [EvPrint [PStr "Playing noise. Press Ctrl+C to stop."];
                      EvPopen (PlayNoiseOsx mean standard_deviation volume_dB) (next_pid w);
                      EvWait (next_pid w);
                      EvKillpg (next_pid w) SIGTERM])%list
            /\ noise_process w1 = Some (next_pid w)
            /\ is_running (next_pid w) w1 = false).
Proof.
  intros mean sd vol w. split.
  - intro Hc. unfold play_noise_osx.
    unfold bind at 1. rewrite print_run, (interrupted_none _ Hc).
    unfold bind at 1. rewrite popen_run, interrupted_none by exact Hc.
    unfold bind at 1. cbn [modify]. unfold try_except.
    rewrite wait_run, interrupted_none by (autorewrite with world; exact Hc).
    autorewrite with world. cbn [proc_lookup]. rewrite Z.eqb_refl, Hc.
    eexists. split; [reflexivity|].
    unfold is_running. autorewrite with world. cbn [proc_lookup].
    rewrite Z.eqb_refl, <- !app_assoc. split; reflexivity.
  - intros t Ht Hle.
    assert (Hcalm : calm 3 w) by (unfold calm; rewrite Ht; lia).
    unfold play_noise_osx.
    unfold bind at 1. rewrite print_run, (@calm_now 2 w Hcalm).
    unfold bind at 1. rewrite popen_run.
    step_quiet Hcalm.
    unfold bind at 1. cbn [modify]. unfold try_except.
    rewrite wait_run. step_quiet Hcalm.
    autorewrite with world. cbn [proc_lookup]. rewrite Z.eqb_refl, Ht.
    replace (S (S (S (clock w))) <=? t)%nat with true by (symmetry; apply Nat.leb_le; lia).
    cbn [is_KeyboardInterrupt].
    unfold bind at 1. unfold terminate_noise, try_except.
    rewrite killpg_getpgid_run.
    match goal with |- context [if interrupted ?W then _ else _] =>
      replace (interrupted W) with false
        by (symmetry; unfold interrupted; autorewrite with world; rewrite Ht;
            apply Nat.eqb_neq; lia) end.
    autorewrite with world. cbn [proc_lookup]. rewrite Z.eqb_refl.
    cbn [raise].
    eexists. split; [reflexivity|].
    unfold is_running. autorewrite with world.
    cbn [proc_update proc_lookup]. rewrite !Z.eqb_refl. cbn [proc_lookup].
    rewrite Z.eqb_refl, <- !app_assoc. repeat split.
Qed.

Lemma play_noise_osx_until_ctrl_c_witness :
  exists w1 : world,
    play_noise_osx 200 100 0 (boot (with_ctrl_c 5 (example_host "darwin" "" [])) [] None)
    = (Some (Raise KeyboardInterrupt), w1)
    /\ trace w1
       = [EvPrint [PStr "Playing noise. Press Ctrl+C to stop."];
          EvPopen (PlayNoiseOsx 200 100 0) 4242;
          EvWait 4242;
          EvKillpg 4242 SIGTERM]
    /\ noise_process w1 = Some 4242%Z
    /\ is_running 4242 w1 = false.
Proof.
  destruct (@play_noise_osx_until_ctrl_c 200%float 100%float 0%float
              (boot (with_ctrl_c 5 (example_host "darwin" "" [])) [] None)) as [_ H].
  apply (H 5%nat); [reflexivity | cbn; lia].
Defined.

(** ** Ctrl+C at any operation *)

(** Ctrl+C has been delivered. *)
Definition delivered (w : world) : Prop :=
  match ctrl_c (host_of w) with
  | Some t => (t < clock w)%nat
  | None => False
  end.

(** A computation leaves the host alone and does not turn the clock back. *)
Definition steady {A} (c : M A) : Prop :=
  forall w : world, host_of (snd (c w)) = host_of w /\ (clock w <= clock (snd (c w)))%nat.

(** A computation raises [KeyboardInterrupt] only once Ctrl+C was delivered. *)
Definition kbd {A} (c : M A) : Prop :=
  forall w w1 : world, c w = (Some (Raise KeyboardInterrupt), w1) -> delivered w1.

Lemma delivered_quiet (w : world) : delivered w -> interrupted w = false.
Proof.
  unfold delivered, interrupted. destruct (ctrl_c (host_of w)) as [t|]; [|reflexivity].
  intro H. apply Nat.eqb_neq. lia.
Qed.

Lemma delivered_steady {A} (c : M A) (w : world) :
  steady c -> delivered w -> delivered (snd (c w)).
Proof.
  intros Hs Hd. destruct (Hs w) as [Hh Hc]. unfold delivered in *. rewrite Hh.
  destruct (ctrl_c (host_of w)); [lia | exact Hd].
Qed.

(** *** Steadiness *)

Lemma steady_ret {A} (a : A) : steady (ret a).
Proof. intro w. cbn. auto. Qed.

Lemma steady_raise {A} (e : exn) : steady (@raise A e).
Proof. intro w. cbn. auto. Qed.

Lemma steady_hang {A} : steady (@hang A).
Proof. intro w. cbn. auto. Qed.

Lemma steady_lift {A} (r : result A) : steady (lift r).
Proof. intro w. cbn. auto. Qed.

Lemma steady_get {A} (f : world -> A) : steady (get f).
Proof. intro w. cbn. auto. Qed.

Lemma steady_emit (e : event) : steady (emit e).
Proof. intro w. cbn. auto. Qed.

Lemma steady_tick : steady tick.
Proof. intro w. cbn. auto. Qed.

Lemma steady_modify (f : world -> world) :
  (forall w, host_of (f w) = host_of w /\ (clock w <= clock (f w))%nat) -> steady (modify f).
Proof. intros Hf w. cbn. apply Hf. Qed.

Lemma steady_bind {A B} (c : M A) (k : A -> M B) :
  steady c -> (forall a, steady (k a)) -> steady (bind c k).
Proof.
  intros Hc Hk w. unfold bind. destruct (Hc w) as [Hh Hl].
  destruct (c w) as [[[a|e]|] w1]; cbn [snd] in *; auto.
  destruct (Hk a w1) as [Hh' Hl']. split; [congruence | lia].
Qed.

Lemma steady_try_except {A} (c : M A) (handles : exn -> bool) (h : exn -> M A) :
  steady c -> (forall e, steady (h e)) -> steady (try_except c handles h).
Proof.
  intros Hc Hh w. unfold try_except. destruct (Hc w) as [H1 H2].
  destruct (c w) as [[[a|e]|] w1]; cbn [snd] in *; auto.
  destruct (handles e); cbn [snd]; auto.
  destruct (Hh e w1) as [H3 H4]. split; [congruence | lia].
Qed.

Lemma steady_finally {A} (c : M A) (cleanup : M unit) :
  steady c -> steady cleanup -> steady (finally c cleanup).
Proof.
  intros Hc Hf w. unfold finally. destruct (Hc w) as [H1 H2].
  destruct (c w) as [[r|] w1]; cbn [snd] in *; auto.
  destruct (Hf w1) as [H3 H4].
  destruct (cleanup w1) as [[[[]|e]|] w2]; cbn [snd] in *; split; congruence || lia.
Qed.

Lemma steady_while_true (fuel : nat) (body : M bool) :
  steady body -> steady (while_true fuel body).
Proof.
  intro Hb. induction fuel as [|fuel IH]; cbn [while_true].
  - apply steady_hang.
  - apply steady_bind; [exact Hb|]. intros [|]; [exact IH | apply steady_ret].
Qed.

Ltac steady_tac :=
  repeat first
    [ apply steady_bind; [|intros]
    | apply steady_try_except; [|intros]
    | apply steady_finally
    | apply steady_while_true
    | apply steady_ret | apply steady_raise | apply steady_hang | apply steady_lift
    | apply steady_get | apply steady_emit | apply steady_tick
    | apply steady_modify; intros; cbn; split; [reflexivity | lia]
    | match goal with
      | |- steady (match ?x with _ => _ end) => destruct x
      | |- steady (let '(_, _) := ?x in _) => destruct x
      | |- steady (if ?x then _ else _) => destruct x
      end ].

Lemma steady_print items : steady (print items).
Proof. unfold print. steady_tac. Qed.

Lemma steady_terminate_noise pid label : steady (terminate_noise pid label).
Proof. unfold terminate_noise, killpg_getpgid, print. steady_tac. Qed.

Lemma steady_pulse_close : steady pulse_close.
Proof. unfold pulse_close. steady_tac. Qed.

(** *** [KeyboardInterrupt] comes from Ctrl+C alone *)

Lemma kbd_ret {A} (a : A) : kbd (ret a).
Proof. intros w w1 H. discriminate H. Qed.

Lemma kbd_hang {A} : kbd (@hang A).
Proof. intros w w1 H. discriminate H. Qed.

Lemma kbd_get {A} (f : world -> A) : kbd (get f).
Proof. intros w w1 H. discriminate H. Qed.

Lemma kbd_modify (f : world -> world) : kbd (modify f).
Proof. intros w w1 H. discriminate H. Qed.

Lemma kbd_emit (e : event) : kbd (emit e).
Proof. intros w w1 H. discriminate H. Qed.

Lemma kbd_raise {A} (e : exn) : is_KeyboardInterrupt e = false -> kbd (@raise A e).
Proof. intros He w w1 H. inversion H. subst. discriminate He. Qed.

Lemma kbd_lift {A} (r : result A) : r <> Raise KeyboardInterrupt -> kbd (lift r).
Proof. intros Hr w w1 H. inversion H. congruence. Qed.

Lemma kbd_tick : kbd tick.
Proof.
  intros w w1 H. unfold tick in H. inversion H as [[Hi Hw]]. clear H.
  destruct (interrupted w) eqn:E; [|discriminate Hi].
  unfold interrupted in E. unfold delivered. cbn [host_of clock set_clock].
  destruct (ctrl_c (host_of w)) as [t|]; [|discriminate E].
  apply Nat.eqb_eq in E. lia.
Qed.

Lemma kbd_bind {A B} (c : M A) (k : A -> M B) :
  kbd c -> (forall a, kbd (k a)) -> kbd (bind c k).
Proof.
  intros Hc Hk w w1 H. unfold bind in H.
  destruct (c w) as [[[a|e]|] w'] eqn:E.
  - exact (Hk a w' w1 H).
  - inversion H; subst. exact (Hc w w1 E).
  - discriminate H.
Qed.

(** A handler for [KeyboardInterrupt] starts after the delivery, so it need
    only be steady; a handler for anything else must itself be sound. *)
Lemma kbd_try_except {A} (c : M A) (handles : exn -> bool) (h : exn -> M A) :
  kbd c ->
  steady (h KeyboardInterrupt) ->
  (forall e, is_KeyboardInterrupt e = false -> kbd (h e)) ->
  kbd (try_except c handles h).
Proof.
  intros Hc Hs Hh w w1 H. unfold try_except in H.
  destruct (c w) as [[[a|e]|] w'] eqn:E; try discriminate H.
  destruct (handles e).
  - destruct (is_KeyboardInterrupt e) eqn:Ek.
    + destruct e; try discriminate Ek.
      pose proof (@delivered_steady _ (h KeyboardInterrupt) w' Hs (Hc w w' E)) as Hd.
      rewrite H in Hd. exact Hd.
    + exact (Hh e Ek w' w1 H).
  - inversion H; subst. exact (Hc w w1 E).
Qed.

Lemma kbd_finally {A} (c : M A) (cleanup : M unit) :
  kbd c -> kbd cleanup -> steady cleanup -> kbd (finally c cleanup).
Proof.
  intros Hc Hf Hs w w1 H. unfold finally in H.
  destruct (c w) as [[r|] w'] eqn:E; [|discriminate H].
  destruct (cleanup w') as [[[[]|e]|] w''] eqn:E'; try discriminate H.
  - inversion H; subst.
    pose proof (@delivered_steady _ cleanup w' Hs (Hc w w' E)) as Hd.
    rewrite E' in Hd. exact Hd.
  - inversion H; subst. exact (Hf w' w1 E').
Qed.

Lemma kbd_while_true (fuel : nat) (body : M bool) :
  kbd body -> kbd (while_true fuel body).
Proof.
  intro Hb. induction fuel as [|fuel IH]; cbn [while_true].
  - apply kbd_hang.
  - apply kbd_bind; [exact Hb|]. intros [|]; [exact IH | apply kbd_ret].
Qed.

Lemma kbd_wait (pid : Z) : kbd (wait pid).
Proof.
  intros w w1 H. rewrite wait_run in H.
  destruct (interrupted w) eqn:Ei.
  - inversion H; subst. apply (@kbd_tick w (bump w)).
    unfold tick, bump. rewrite Ei. reflexivity.
  - destruct (proc_lookup pid (procs w)) as [[|]|]; try discriminate H.
    destruct (ctrl_c (host_of w)) as [t|] eqn:Et; [|discriminate H].
    destruct (S (clock w) <=? t)%nat; [|discriminate H].
    inversion H; subst. unfold delivered. autorewrite with world. rewrite Et. lia.
Qed.

(** The pure parts of the script raise errors of their own only. *)
Lemma rbind_not_kbd {A B} (r : result A) (k : A -> result B) :
  r <> Raise KeyboardInterrupt ->
  (forall a, k a <> Raise KeyboardInterrupt) ->
  rbind r k <> Raise KeyboardInterrupt.
Proof.
  intros Hr Hk. destruct r as [a|e]; cbn [rbind]; [apply Hk|].
  intro H. apply Hr. inversion H. reflexivity.
Qed.

Lemma py_index_not_kbd {A} (l : list A) (i : nat) : py_index l i <> Raise KeyboardInterrupt.
Proof. unfold py_index. destruct (nth_error l i); discriminate. Qed.

Lemma py_int_not_kbd (s : string) : py_int s <> Raise KeyboardInterrupt.
Proof.
  intro H. apply py_int_error in H. destruct H as [H | (count & _ & H)]; discriminate H.
Qed.

Lemma int_to_float_not_kbd (z : Z) : int_to_float z <> Raise KeyboardInterrupt.
Proof. unfold int_to_float. destruct (Z2SF z); discriminate. Qed.

Lemma get_new_volume_not_kbd (v : Z) (m : bool) :
  get_new_volume v m <> Raise KeyboardInterrupt.
Proof.
  unfold get_new_volume, py_truediv, py_float. destruct m; [discriminate|].
  apply rbind_not_kbd; [apply int_to_float_not_kbd|]. intro a. cbn.
  discriminate.
Qed.

Lemma np_average_not_kbd (a w : list float) : np_average a w <> Raise KeyboardInterrupt.
Proof.
  unfold np_average. destruct (negb _); [discriminate|].
  destruct (is_zero _); discriminate.
Qed.

Lemma statistics_not_kbd (lg : float -> float) (f a : list float) :
  statistics lg f a <> Raise KeyboardInterrupt.
Proof.
  unfold statistics. destruct (PrimFloat.eqb _ _); [discriminate|].
  apply rbind_not_kbd; [apply np_average_not_kbd|]. intro m.
  apply rbind_not_kbd; [apply np_average_not_kbd|]. discriminate.
Qed.

Ltac kbd_tac :=
  repeat first
    [ apply kbd_wait
    | apply kbd_bind; [|intros]
    | apply kbd_try_except; [| | intros]
    | apply kbd_finally
    | apply kbd_while_true
    | apply kbd_ret | apply kbd_hang | apply kbd_get | apply kbd_modify
    | apply kbd_emit | apply kbd_tick
    | apply kbd_raise; first [reflexivity | assumption]
    | apply kbd_lift;
      first [ apply get_new_volume_not_kbd | apply statistics_not_kbd
            | repeat (apply rbind_not_kbd; [|intros]);
              first [apply py_index_not_kbd | apply py_int_not_kbd] ]
    | match goal with
      | |- kbd (match ?x with _ => _ end) => destruct x
      | |- kbd (let '(_, _) := ?x in _) => destruct x
      | |- kbd (if ?x then _ else _) => destruct x
      end ].

Ltac unfold_script :=
  unfold main_body, capture_and_analyse, path_exists_data, makedirs_data, isfile_data_txt,
    prompt_loop, record_audio, record_audio_osx, generate_spectrogram, fetch_audio_stats,
    loadtxt_unpack, play_noise_osx, play_and_adjust_volume, adjust_loop,
    get_system_volume, run_amixer, set_volume, volume_set, find_sox_sink_input,
    sink_input_list, popen, pulse_connect, pulse_close, terminate_noise, killpg_getpgid,
    print, input, run_shell, copy, sleep.

Lemma kbd_main_body (np_log10 : float -> float) (fuel : nat) :
  kbd (main_body np_log10 fuel).
Proof.
  unfold_script. kbd_tac; steady_tac.
Qed.

Lemma delivered_bump (w : world) : delivered w -> delivered (bump w).
Proof.
  unfold delivered. autorewrite with world. destruct (ctrl_c (host_of w)); [lia | auto].
Qed.

Lemma delivered_logged (e : event) (w : world) : delivered w -> delivered (logged e w).
Proof. unfold delivered. autorewrite with world. auto. Qed.

Lemma exit_after_ctrl_c (np_log10 : float -> float) (fuel : nat) (w w1 : world) :
  main_body np_log10 fuel w = (Some (Raise KeyboardInterrupt), w1) ->
  exists w2 : world,
    main np_log10 fuel w = (Some (Raise (SystemExit 0)), w2)
    /\ forall pid : Z, noise_process w1 = Some pid -> is_running pid w2 = false.
Proof.
  intro H. pose proof (@kbd_main_body np_log10 fuel w w1 H) as Hd.
  unfold main, try_except. rewrite H. cbn [is_KeyboardInterrupt].
  unfold bind at 1. rewrite print_run, (@delivered_quiet _ Hd).
  unfold bind at 1. cbn [get]. autorewrite with world.
  assert (Hd1 : delivered (logged (EvPrint [PStr (nl ++ "Exiting gracefully...")]) (bump w1)))
    by (apply delivered_logged, delivered_bump, Hd).
  destruct (noise_process w1) as [pid|].
  - unfold bind at 1. unfold terminate_noise, try_except.
    rewrite killpg_getpgid_run, (@delivered_quiet _ Hd1). autorewrite with world.
    destruct (proc_lookup pid (procs w1)) as [st|] eqn:Hst.
    + cbn [raise]. eexists. split; [reflexivity|].
      intros pid' Hp. inversion Hp; subst pid'.
      unfold is_running. autorewrite with world.
      rewrite proc_lookup_update by congruence. reflexivity.
    + cbn [is_Exception]. rewrite print_run.
      rewrite delivered_quiet by (apply delivered_bump, Hd1).
      cbn [raise]. eexists. split; [reflexivity|].
      intros pid' Hp. inversion Hp; subst pid'.
      unfold is_running. autorewrite with world. rewrite Hst. reflexivity.
  - cbn [ret bind raise]. eexists. split; [reflexivity|]. discriminate.
Qed.

(** X7. Wherever the Ctrl+C arrives -- at the prompt, during the recording or
    the analysis, in either playback path -- a [KeyboardInterrupt] that leaves
    the body of [main] ends the script with [SystemExit(0)], exit status 0,
    and the player recorded in [noise_process], if any, is not running
    afterwards; the handler is past the one Ctrl+C of the host and so runs to
    its end.  [main] itself never ends in [KeyboardInterrupt]. *)
Theorem ctrl_c_always_exits_0 :
  forall (np_log10 : float -> float) (fuel : nat) (w : world),
    (forall w1 : world,
        main_body np_log10 fuel w = (Some (Raise KeyboardInterrupt), w1) ->
        exists w2 : world,
          main np_log10 fuel w = (Some (Raise (SystemExit 0)), w2)
          /\ exit_status (Raise (SystemExit 0)) = 0%Z
          /\ forall pid : Z, noise_process w1 = Some pid -> is_running pid w2 = false)
    /\ (forall w2 : world,
          main np_log10 fuel w <> (Some (Raise KeyboardInterrupt), w2)).
Proof.
  intros lg fuel w. split.
  - intros w1 H. destruct (@exit_after_ctrl_c _ _ _ _ H) as (w2 & Hm & Hp).
    exists w2. auto.
  - intros w2 Hm.
    destruct (main_body lg fuel w) as [[[[]|e]|] w1] eqn:E.
    + unfold main, try_except in Hm. rewrite E in Hm. discriminate Hm.
    + destruct (is_KeyboardInterrupt e) eqn:Ek.
      * destruct e; try discriminate Ek.
        destruct (@exit_after_ctrl_c _ _ _ _ E) as (w3 & Hm3 & _).
        rewrite Hm3 in Hm. discriminate Hm.
      * unfold main, try_except in Hm. rewrite E, Ek in Hm.
        inversion Hm; subst. discriminate Ek.
    + unfold main, try_except in Hm. rewrite E in Hm. discriminate Hm.
Qed.

Lemma ctrl_c_always_exits_0_witness :
  exists w2 : world,
    main log10_at_powers 5
      (boot (with_ctrl_c 2 two_tone_host) ["x"; "o"] (Some [(100, 1)]%float))
    = (Some (Raise (SystemExit 0)), w2)
    /\ exit_status (Raise (SystemExit 0)) = 0%Z
    /\ forall pid : Z,
         noise_process
           (snd (main_body log10_at_powers 5
                   (boot (with_ctrl_c 2 two_tone_host) ["x"; "o"] (Some [(100, 1)]%float))))
         = Some pid ->
         is_running pid w2 = false.
Proof.
  destruct (@ctrl_c_always_exits_0 log10_at_powers 5
              (boot (with_ctrl_c 2 two_tone_host) ["x"; "o"] (Some [(100, 1)]%float)))
    as [H _].
  apply H. vm_compute. reflexivity.
Defined.

(** ** The player's stream does not show up *)

Lemma find_is_sox_absent (l : list sink_input) (si : sink_input) :
  find is_sox l = None -> is_sox si = false -> find is_sox (l ++ [si]) = None.
Proof.
  induction l as [|s l IH]; cbn [find app]; intros Hl Hsi.
  - rewrite Hsi. reflexivity.
  - destruct (is_sox s); [discriminate|]. auto.
Qed.

Lemma find_sox_spawned_absent (mean sd vol : float) (w : world) :
  find is_sox (sinks w) = None ->
  (forall si : sink_input, sox_stream (host_of w) = Some si -> is_sox si = false) ->
  find is_sox (sinks (spawned (PlayNoise mean sd vol) w)) = None.
Proof.
  intros Hnone Habs. unfold spawned.
  destruct (sox_stream (host_of w)) as [si|] eqn:E.
  - cbn [sinks set_sinks]. destruct w. cbn in *.
    apply find_is_sox_absent; auto.
  - autorewrite with world. exact Hnone.
Qed.

Lemma pulse_close_run (w : world) :
  pulse_close w = (Some (Ok tt), logged EvPulseClose w).
Proof. reflexivity. Qed.

Lemma play_and_adjust_volume_without_stream :
  forall (fuel : nat) (mean standard_deviation initial_volume_dB : float) (w : world)
         (volume_percentage : Z) (is_muted : bool),
    find is_sox (sinks w) = None ->
    (forall si : sink_input, sox_stream (host_of w) = Some si -> is_sox si = false) ->
    mixer_reading (amixer_out (host_of w) (amixer_runs w)) = Ok (volume_percentage, is_muted) ->
    calm 8 w ->
    exists w1 : world,
      play_and_adjust_volume fuel mean standard_deviation initial_volume_dB w
      = (Some (Ok tt), w1)
      /\ trace w1
         = (trace w
            ++ [EvPulseConnect "volume-adjuster";
                EvRun AmixerSgetMaster;
                EvSleep 200;
                EvSinkInputList;
                EvPopen (PlayNoise mean standard_deviation (initial_volume_dB - 20)%float)
                        (next_pid w);
                EvSleep 200;
                EvSinkInputList;
                EvPrint [PStr "Couldn't find sox stream in PulseAudio."];
                EvPulseClose])%list
      /\ noise_process w1 = Some (next_pid w)
      /\ procs w1 = (next_pid w, Running) :: procs w.
Proof.
  intros fuel mean sd vol w v m Hnone Habs Hread Hcalm.
  unfold play_and_adjust_volume.
  fwd Hcalm. unfold finally at 1.
  fwd Hcalm. rewrite Hread.
  fwd Hcalm. fwd Hcalm. rewrite Hnone.
  fwd Hcalm. fwd Hcalm. fwd Hcalm.
  rewrite find_sox_spawned_absent
    by (first [ autorewrite with world; exact Hnone
              | intro si0; autorewrite with world; apply Habs ]).
  fwd Hcalm.
  cbn [bind ret]. rewrite pulse_close_run.
  eexists. split; [reflexivity|].
  autorewrite with world. rewrite <- !app_assoc. cbn [app].
  repeat split; reflexivity.
Qed.

(** X8. When the stream of the started player does not show up in the list
    of the server -- not at all, or under another application name -- the
    Linux path prints that it could not find it and returns: the polling loop
    is not entered, whatever its length, no gain is set, the connection is
    closed, [main] ends normally with exit status 0, and the player it
    started is left running, unsignalled. *)
Theorem absent_stream_exits_0 :
  forall (np_log10 : float -> float) (fuel : nat) (w0 w : world)
         (mean standard_deviation volume_dB : float)
         (volume_percentage : Z) (is_muted : bool),
    capture_and_analyse np_log10 fuel w0
    = (Some (Ok (mean, standard_deviation, volume_dB)), w) ->
    startswith (platform (host_of w)) "darwin" = false ->
    startswith (platform (host_of w)) "linux" = true ->
    find is_sox (sinks w) = None ->
    (forall si : sink_input, sox_stream (host_of w) = Some si -> is_sox si = false) ->
    mixer_reading (amixer_out (host_of w) (amixer_runs w)) = Ok (volume_percentage, is_muted) ->
    calm 8 w ->
    exists w1 : world,
      main np_log10 fuel w0 = (Some (Ok tt), w1)
      /\ exit_status (Ok tt) = 0%Z
      /\ trace w1
         = (trace w
            ++ [EvPulseConnect "volume-adjuster";
                EvRun AmixerSgetMaster;
                EvSleep 200;
                EvSinkInputList;
                EvPopen (PlayNoise mean standard_deviation (volume_dB - 20)%float)
                        (next_pid w);
                EvSleep 200;
                EvSinkInputList;
                EvPrint [PStr "Couldn't find sox stream in PulseAudio."];
                EvPulseClose])%list
      /\ is_running (next_pid w) w1 = true.
Proof.
  intros lg fuel w0 w mean sd vol v m Hprep Hdarwin Hlinux Hnone Habs Hread Hcalm.
  destruct (@play_and_adjust_volume_without_stream fuel mean sd vol w v m
              Hnone Habs Hread Hcalm)
    as (w1 & Hplay & Htr & _ & Hp).
  exists w1.
  unfold main, try_except, main_body. unfold bind at 1. rewrite Hprep.
  unfold bind at 1. cbn [get]. rewrite Hdarwin, Hlinux, Hplay.
  repeat split; [exact Htr|].
  unfold is_running. rewrite Hp. cbn [proc_lookup]. rewrite Z.eqb_refl. reflexivity.
Qed.

(** A Linux host on which the player's stream never shows up. *)
Definition streamless_host : host :=
  {| platform := "linux";
     amixer_out := fun _ => "  Front Left: Playback 26214 [40%] [on]";
     sox_stream := None;
     sox_stat := [(100, 1); (300, 1)]%float;
     timestamp := "1700000000.5";
     ctrl_c := None |}.

Lemma absent_stream_exits_0_witness :
  exists w1 : world,
    main log10_at_powers 1 (boot streamless_host ["o"] (Some [(100, 1)]%float))
    = (Some (Ok tt), w1)
    /\ exit_status (Ok tt) = 0%Z
    /\ trace w1
       = (trace (snd (capture_and_analyse log10_at_powers 1
                        (boot streamless_host ["o"] (Some [(100, 1)]%float))))
          ++ [EvPulseConnect "volume-adjuster";
              EvRun AmixerSgetMaster;
              EvSleep 200;
              EvSinkInputList;
              EvPopen (PlayNoise 200 100 (0 - 20)%float) 4242;
              EvSleep 200;
              EvSinkInputList;
              EvPrint [PStr "Couldn't find sox stream in PulseAudio."];
              EvPulseClose])%list
    /\ is_running 4242 w1 = true.
Proof.
  apply (@absent_stream_exits_0 log10_at_powers 1
           (boot streamless_host ["o"] (Some [(100, 1)]%float))
           (snd (capture_and_analyse log10_at_powers 1
                   (boot streamless_host ["o"] (Some [(100, 1)]%float))))
           200%float 100%float 0%float 40%Z false).
  - vm_compute. reflexivity.
  - vm_compute. reflexivity.
  - vm_compute. reflexivity.
  - vm_compute. reflexivity.
  - intros si H. vm_compute in H. discriminate H.
  - vm_compute. reflexivity.
  - vm_compute. exact I.
Defined.

(** ** A sox stream that is already there *)

(** The events that start or signal a process. *)
Definition process_event (e : event) : bool :=
  match e with
  | EvPopen _ _ | EvKillpg _ _ => true
  | _ => false
  end.

Definition no_process_event (l : list event) : Prop :=
  Forall (fun e => process_event e = false) l.

Lemma poll_until_ctrl_c_no_process :
  forall (si : sink_input) (t fuel : nat) (w : world),
    ctrl_c (host_of w) = Some t ->
    (clock w <= t)%nat ->
    (t < clock w + fuel)%nat ->
    (forall k : nat, reading_ok (amixer_out (host_of w) k) = true) ->
    exists w1 : world,
      while_true fuel (poll_once si) w = (Some (Raise KeyboardInterrupt), w1)
      /\ host_of w1 = host_of w
      /\ clock w1 = S t
      /\ procs w1 = procs w
      /\ noise_process w1 = noise_process w
      /\ exists l : list event, trace w1 = (trace w ++ l)%list /\ no_process_event l.
Proof.
  intros si t fuel. induction fuel as [|fuel IH]; intros w Ht Hle Hlt Hok; [lia|].
  cbn [while_true]. unfold bind at 1. unfold poll_once at 1.
  unfold bind at 1. rewrite get_system_volume_run, (@interrupted_at _ _ Ht).
  destruct (Nat.eqb_spec t (clock w)) as [E0|E0].
  { eexists. split; [reflexivity|]. cbn. repeat split; try congruence.
    exists []. split; [now rewrite app_nil_r | constructor]. }
  pose proof (Hok (amixer_runs w)) as Hr. unfold reading_ok in Hr.
  destruct (mixer_reading _) as [[v m]|]; [|discriminate Hr].
  destruct (get_new_volume v m) as [g|] eqn:Hg; [|discriminate Hr].
  unfold bind at 1. rewrite set_volume_run, Hg.
  rewrite (@interrupted_at _ t) by exact Ht.
  replace (clock (after_amixer (bump w))) with (S (clock w)) by reflexivity.
  destruct (Nat.eqb_spec t (S (clock w))) as [E1|E1].
  { eexists. split; [reflexivity|]. cbn. repeat split; try congruence.
    eexists. split; [reflexivity|]. repeat constructor. }
  unfold bind at 1. rewrite sleep_run.
  rewrite (@interrupted_at _ t) by exact Ht.
  match goal with |- context [(t =? clock ?W)%nat] =>
    replace (clock W) with (S (S (clock w))) by reflexivity end.
  destruct (Nat.eqb_spec t (S (S (clock w)))) as [E2|E2].
  { eexists. split; [reflexivity|]. cbn. repeat split; try congruence.
    rewrite <- app_assoc. eexists. split; [reflexivity|]. repeat constructor. }
  cbn [ret].
  match goal with |- context [while_true fuel _ ?W] =>
    destruct (IH W) as (w1 & Hrun & Hh & Hc & Hp & Hn & l & Hl & Hq);
      [exact Ht | cbn; lia | cbn; lia | exact Hok |] end.
  exists w1. split; [exact Hrun|].
  split; [exact Hh|]. split; [exact Hc|]. split; [exact Hp|]. split; [exact Hn|].
  rewrite Hl. cbn. rewrite <- !app_assoc. eexists. split; [reflexivity|].
  cbn [app]. repeat constructor. exact Hq.
Qed.

(** [play_and_adjust_volume] when the list of the server already has a sox
    stream and no player is on record. *)
Lemma play_and_adjust_volume_adopts :
  forall (fuel : nat) (mean standard_deviation initial_volume_dB : float) (w : world)
         (si : sink_input) (t : nat),
    find is_sox (sinks w) = Some si ->
    (forall k : nat, reading_ok (amixer_out (host_of w) k) = true) ->
    noise_process w = None ->
    ctrl_c (host_of w) = Some t ->
    (clock w + 5 <= t)%nat ->
    (t < clock w + 5 + fuel)%nat ->
    exists (w1 : world) (l : list event),
      play_and_adjust_volume fuel mean standard_deviation initial_volume_dB w
      = (Some (Raise KeyboardInterrupt), w1)
      /\ host_of w1 = host_of w
      /\ (t < clock w1)%nat
      /\ noise_process w1 = None
      /\ procs w1 = procs w
      /\ trace w1 = (trace w ++ l)%list
      /\ no_process_event l.
Proof.
  intros fuel mean sd vol w si t Hsome Hok Hnp Ht Hle Hlt.
  pose proof (Hok (amixer_runs w)) as Hr. unfold reading_ok in Hr.
  destruct (mixer_reading _) as [[v m]|] eqn:Hread; [|discriminate Hr].
  destruct (get_new_volume v m) as [g|] eqn:Hg; [|discriminate Hr].
  assert (Hcalm : calm 5 w) by (unfold calm; rewrite Ht; lia).
  unfold play_and_adjust_volume.
  fwd Hcalm. unfold finally at 1.
  fwd Hcalm. rewrite Hread.
  fwd Hcalm. fwd Hcalm. rewrite Hsome.
  find_op. rewrite Hg. step_quiet Hcalm.
  unfold adjust_loop, try_except.
  match goal with |- context [while_true fuel _ ?W] =>
    change (while_true fuel _ W) with (while_true fuel (poll_once si) W);
    destruct (@poll_until_ctrl_c_no_process si t fuel W)
      as (w1 & Hrun & Hh & Hc & Hp & Hn & l & Hl & Hq)
  end.
  - autorewrite with world. exact Ht.
  - autorewrite with world. lia.
  - autorewrite with world. lia.
  - intro k. autorewrite with world. apply Hok.
  - rewrite Hrun. cbn [is_KeyboardInterrupt].
    assert (Hcalm1 : calm 4 w1)
      by (apply (@calm_after 4 w1 t); [rewrite Hh; autorewrite with world; exact Ht | lia]).
    fwd Hcalm1. cbn [get bind]. autorewrite with world.
    rewrite Hn. autorewrite with world. rewrite Hnp.
    cbn [ret raise bind]. rewrite pulse_close_run.
    eexists. eexists. split; [reflexivity|].
    autorewrite with world. rewrite Hh, Hc, Hn, Hp, Hl.
    autorewrite with world. rewrite <- !app_assoc. cbn [app].
    split; [reflexivity|]. split; [lia|]. split; [exact Hnp|].
    split; [reflexivity|]. split; [reflexivity|].
    unfold no_process_event. repeat (apply Forall_cons; [reflexivity|]).
    apply Forall_app. split; [exact Hq|]. repeat constructor.
Qed.

(** X9. A sox stream found in the list of the server at the first look is
    adopted: no player is started and [noise_process] stays empty, so a Ctrl+C
    in the polling loop ends the script with [SystemExit(0)] and no process
    was started or signalled on the way: the process table is as it was, and
    the sox that was playing plays on. *)
Theorem adopted_stream_is_never_signalled :
  forall (np_log10 : float -> float) (fuel : nat) (w0 w : world)
         (mean standard_deviation volume_dB : float) (si : sink_input) (t : nat),
    capture_and_analyse np_log10 fuel w0
    = (Some (Ok (mean, standard_deviation, volume_dB)), w) ->
    startswith (platform (host_of w)) "darwin" = false ->
    startswith (platform (host_of w)) "linux" = true ->
    find is_sox (sinks w) = Some si ->
    (forall k : nat, reading_ok (amixer_out (host_of w) k) = true) ->
    noise_process w = None ->
    ctrl_c (host_of w) = Some t ->
    (clock w + 5 <= t)%nat ->
    (t < clock w + 5 + fuel)%nat ->
    exists (w2 : world) (l : list event),
      main np_log10 fuel w0 = (Some (Raise (SystemExit 0)), w2)
      /\ exit_status (Raise (SystemExit 0)) = 0%Z
      /\ trace w2 = (trace w ++ l)%list
      /\ no_process_event l
      /\ procs w2 = procs w
      /\ noise_process w2 = None.
Proof.
  intros lg fuel w0 w mean sd vol si t Hprep Hdarwin Hlinux Hsome Hok Hnp Ht Hle Hlt.
  destruct (@play_and_adjust_volume_adopts fuel mean sd vol w si t Hsome Hok Hnp Ht Hle Hlt)
    as (w1 & l & Hplay & Hh & Hc & Hn & Hp & Htr & Hq).
  unfold main, try_except, main_body. unfold bind at 1. rewrite Hprep.
  unfold bind at 1. cbn [get]. rewrite Hdarwin, Hlinux, Hplay.
  cbn [is_KeyboardInterrupt].
  assert (Hcalm : calm 4 w1) by (apply (@calm_after 4 w1 t); [congruence | lia]).
  fwd Hcalm. cbn [get bind]. autorewrite with world. rewrite Hn.
  cbn [ret raise].
  eexists. eexists. split; [reflexivity|]. split; [reflexivity|].
  autorewrite with world. rewrite Htr, <- app_assoc.
  split; [reflexivity|]. split; [|split; assumption].
  apply Forall_app. split; [exact Hq|]. repeat constructor.
Qed.

(** A run in which the sox of an earlier run is still playing. *)
Definition adopting_world : world :=
  {| host_of := with_ctrl_c 30 two_tone_host;
     stdin := ["o"];
     amixer_runs := 0;
     sinks := [example_stream];
     procs := [(4000%Z, Running)];
     next_pid := 4242;
     data_dir := true;
     data_txt := Some [(100, 1)]%float;
     clock := 0;
     noise_process := None;
     trace := [] |}.

Lemma adopted_stream_is_never_signalled_witness :
  exists (w2 : world) (l : list event),
    main log10_at_powers 50 adopting_world = (Some (Raise (SystemExit 0)), w2)
    /\ exit_status (Raise (SystemExit 0)) = 0%Z
    /\ trace w2
       = (trace (snd (capture_and_analyse log10_at_powers 50 adopting_world)) ++ l)%list
    /\ no_process_event l
    /\ procs w2 = procs (snd (capture_and_analyse log10_at_powers 50 adopting_world))
    /\ noise_process w2 = None.
Proof.
  apply (@adopted_stream_is_never_signalled log10_at_powers 50 adopting_world
           (snd (capture_and_analyse log10_at_powers 50 adopting_world))
           200%float 100%float 0%float example_stream 30).
  - vm_compute. reflexivity.
  - vm_compute. reflexivity.
  - vm_compute. reflexivity.
  - vm_compute. reflexivity.
  - intro k. vm_compute. reflexivity.
  - vm_compute. reflexivity.
  - vm_compute. reflexivity.
  - vm_compute. lia.
  - vm_compute. lia.
Defined.

(** ** The table that is analysed *)

(** [main] from [generate_spectrogram()] to the line that tells how to stop. *)
Definition analyse (np_log10 : float -> float) : M (float * float * float) :=
  (generate_spectrogram ;;
   fetch_audio_stats ;;
   '(frequency, amplitude) <- loadtxt_unpack ;;
   '(mean, standard_deviation, volume_dB) <- lift (statistics np_log10 frequency amplitude) ;;
   print [PStr (nl ++ "Mean Frequency:"); PNum mean] ;;
   print [PStr "Standard Deviation:"; PNum standard_deviation] ;;
   print [PStr "Volume (dB):"; PNum volume_dB] ;;
   print [PStr "Press Ctrl+C to exit gracefully."] ;;
   ret (mean, standard_deviation, volume_dB))%monad.

Lemma capture_and_analyse_split (np_log10 : float -> float) (fuel : nat) :
  capture_and_analyse np_log10 fuel
  = (have_dir <- path_exists_data ;;
     (if have_dir : bool then ret tt else makedirs_data) ;;
     have_data <- isfile_data_txt ;;
     (if have_data : bool then prompt_loop fuel else record_audio 10) ;;
     analyse np_log10)%monad.
Proof. reflexivity. Qed.

Lemma loadtxt_unpack_run (w : world) :
  loadtxt_unpack w
  = if interrupted w then (Some (Raise KeyboardInterrupt), bump w)
    else match data_txt w with
         | None => (Some (Raise (FileNotFoundError "data/data.txt")),
                    logged (EvLoadtxt "data/data.txt") (bump w))
         | Some [] =>
             (Some (Raise (ValueError "not enough values to unpack (expected 2, got 0)")),
              logged (EvLoadtxt "data/data.txt") (bump w))
         | Some rows => (Some (Ok (map fst rows, map snd rows)),
                         logged (EvLoadtxt "data/data.txt") (bump w))
         end.
Proof.
  unfold loadtxt_unpack. rewrite tick_bind. destruct (interrupted w); [reflexivity|].
  unfold bind, emit, get. cbn. destruct (data_txt w) as [[|r rows]|]; reflexivity.
Qed.

(** The analysis reads the table that its own statistics command has just
    written. *)
Lemma analyse_run (np_log10 : float -> float) (w : world) :
  ctrl_c (host_of w) = None ->
  sox_stat (host_of w) <> [] ->
  exists w1 : world,
    analyse np_log10 w
    = (Some (statistics np_log10 (map fst (sox_stat (host_of w)))
                                 (map snd (sox_stat (host_of w)))), w1)
    /\ host_of w1 = host_of w
    /\ data_txt w1 = Some (sox_stat (host_of w)).
Proof.
  intros Hc Hrows. unfold analyse, generate_spectrogram, fetch_audio_stats.
  run_quiet Hc. rewrite loadtxt_unpack_run.
  rewrite interrupted_none by exact Hc.
  cbn [shell_effect data_txt set_data_txt logged bump set_trace set_clock host_of].
  destruct (sox_stat (host_of w)) as [|r rows] eqn:E; [congruence|].
  cbn [bind]. unfold lift.
  destruct (statistics np_log10 _ _) as [[[mean sd] vol]|e].
  - run_quiet Hc. eexists. split; [reflexivity|]. split; reflexivity.
  - eexists. split; [reflexivity|]. split; reflexivity.
Qed.

Lemma path_exists_data_run (w : world) :
  path_exists_data w
  = if interrupted w then (Some (Raise KeyboardInterrupt), bump w)
    else (Some (Ok (data_dir w)), bump w).
Proof. unfold path_exists_data. rewrite tick_bind. reflexivity. Qed.

Lemma makedirs_data_run (w : world) :
  makedirs_data w
  = if interrupted w then (Some (Raise KeyboardInterrupt), bump w)
    else (Some (Ok tt), set_data_dir true (logged (EvMakedirs "data") (bump w))).
Proof. unfold makedirs_data. rewrite tick_bind. reflexivity. Qed.

Lemma isfile_data_txt_run (w : world) :
  isfile_data_txt w
  = if interrupted w then (Some (Raise KeyboardInterrupt), bump w)
    else (Some (Ok match data_txt w with Some _ => true | None => false end), bump w).
Proof. unfold isfile_data_txt. rewrite tick_bind. reflexivity. Qed.

(** The operator ends the prompt within the rounds allowed. *)
Definition answers_within (fuel : nat) (typed : list string) : Prop :=
  exists (pre : list string) (x : string) (rest : list string),
    typed = (pre ++ x :: rest)%list
    /\ Forall other_answer pre
    /\ (x = "r" \/ x = "o")
    /\ (List.length pre < fuel)%nat.

Lemma capture_and_analyse_run (np_log10 : float -> float) (fuel : nat) (w : world) :
  ctrl_c (host_of w) = None ->
  sox_stat (host_of w) <> [] ->
  (data_txt w <> None -> answers_within fuel (stdin w)) ->
  exists w1 : world,
    capture_and_analyse np_log10 fuel w
    = (Some (statistics np_log10 (map fst (sox_stat (host_of w)))
                                 (map snd (sox_stat (host_of w)))), w1)
    /\ host_of w1 = host_of w
    /\ data_txt w1 = Some (sox_stat (host_of w)).
Proof.
  intros Hc Hrows Hans. rewrite capture_and_analyse_split.
  unfold bind at 1. rewrite path_exists_data_run, interrupted_none by exact Hc.
  unfold bind at 1.
  assert (Hdir : exists W : world,
             (if data_dir w then ret tt else makedirs_data) (bump w) = (Some (Ok tt), W)
             /\ host_of W = host_of w /\ data_txt W = data_txt w /\ stdin W = stdin w).
  { destruct (data_dir w).
    - eexists. split; [reflexivity|]. repeat split.
    - rewrite makedirs_data_run, interrupted_none by exact Hc.
      eexists. split; [reflexivity|]. repeat split. }
  destruct Hdir as (W & -> & HhW & HdW & HsW).
  unfold bind at 1. rewrite isfile_data_txt_run.
  rewrite interrupted_none by (rewrite HhW; exact Hc).
  unfold bind at 1. autorewrite with world. rewrite HdW.
  destruct (data_txt w) as [old|] eqn:Eold.
  - destruct Hans as (pre & x & rest & Hin & Hpre & Hx & Hfuel); [discriminate|].
    destruct (@prompt_loop_runs pre x rest fuel (bump W)) as (w2 & Hrun & _);
      try assumption.
    + autorewrite with world. rewrite HhW. exact Hc.
    + autorewrite with world. rewrite HsW. exact Hin.
    + rewrite Hrun.
      destruct (@prompt_loop_ok _ _ _ Hrun) as (? & ? & _ & _ & _ & Hh2 & _).
      autorewrite with world in Hh2. rewrite HhW in Hh2.
      destruct (@analyse_run np_log10 w2) as (w1 & Hrun1 & Hh1 & Hd1);
        [rewrite Hh2; assumption | rewrite Hh2; assumption |].
      rewrite Hh2 in Hrun1, Hh1, Hd1. exists w1. auto.
  - unfold record_audio.
    unfold bind at 1. rewrite run_shell_run.
    rewrite interrupted_none by (autorewrite with world; rewrite HhW; exact Hc).
    unfold bind at 1. cbn [get shell_effect]. rewrite copy_run.
    rewrite interrupted_none by (autorewrite with world; rewrite HhW; exact Hc).
    match goal with |- context [analyse np_log10 ?W2] =>
      assert (E : host_of W2 = host_of w) by (autorewrite with world; exact HhW);
      destruct (@analyse_run np_log10 W2) as (w1 & Hrun1 & Hh1 & Hd1);
        [ rewrite E; assumption | rewrite E; assumption | ]
    end.
    rewrite E in Hrun1, Hh1, Hd1. rewrite Hrun1. exists w1. auto.
Qed.

(** X10. The table that is analysed is always the one the statistics command
    of this very run has written: whether the recording is new or the old
    one is kept, and whatever data/data.txt held before -- only its existence
    is looked at -- the stage yields what [statistics] computes from the two
    columns of the fresh table; and an error there, such as the one for no
    signal, leaves [main] as that very error, before any playback. *)
Theorem analysis_reads_the_fresh_table :
  forall (np_log10 : float -> float) (fuel : nat) (w : world),
    ctrl_c (host_of w) = None ->
    sox_stat (host_of w) <> [] ->
    (data_txt w <> None -> answers_within fuel (stdin w)) ->
    exists w1 : world,
      capture_and_analyse np_log10 fuel w
      = (Some (statistics np_log10 (map fst (sox_stat (host_of w)))
                                   (map snd (sox_stat (host_of w)))), w1)
      /\ data_txt w1 = Some (sox_stat (host_of w))
      /\ forall e : exn,
           statistics np_log10 (map fst (sox_stat (host_of w)))
                               (map snd (sox_stat (host_of w))) = Raise e ->
           main np_log10 fuel w = (Some (Raise e), w1).
Proof.
  intros lg fuel w Hc Hrows Hans.
  destruct (@capture_and_analyse_run lg fuel w Hc Hrows Hans) as (w1 & Hrun & _ & Hd).
  exists w1. split; [exact Hrun|]. split; [exact Hd|].
  intros e He. rewrite He in Hrun.
  unfold main, try_except, main_body. unfold bind at 1. rewrite Hrun.
  destruct e; try reflexivity.
  exfalso. exact (statistics_not_kbd _ _ _ He).
Qed.

Lemma analysis_reads_the_fresh_table_witness :
  exists w1 : world,
    capture_and_analyse log10_at_powers 3
      (boot two_tone_host ["x"; "o"] (Some [(100, 1)]%float))
    = (Some (statistics log10_at_powers [100; 300]%float [1; 1]%float), w1)
    /\ data_txt w1 = Some [(100, 1); (300, 1)]%float
    /\ forall e : exn,
         statistics log10_at_powers [100; 300]%float [1; 1]%float = Raise e ->
         main log10_at_powers 3 (boot two_tone_host ["x"; "o"] (Some [(100, 1)]%float))
         = (Some (Raise e), w1).
Proof.
  apply (@analysis_reads_the_fresh_table log10_at_powers 3
           (boot two_tone_host ["x"; "o"] (Some [(100, 1)]%float))).
  - reflexivity.
  - discriminate.
  - intros _. exists ["x"], "o", []. split; [reflexivity|].
    split; [constructor; [split; discriminate | constructor]|].
    split; [right; reflexivity | cbn; lia].
Defined.

(** ** Ctrl+C in the polling loop, whoever started the generator *)

(** C8, as stated: in the run of [adopting_world] the sox of an earlier run is
    listed by the sound server, so the script adopts its stream and starts
    nothing. Ctrl+C arrives while the loop polls; the script exits with
    status 0, but no process group gets a signal and the generator, process
    4000 here, is still running, its stream still listed. *)
Lemma adopted_generator_keeps_running :
  exists w2 : world,
    main log10_at_powers 50 adopting_world = (Some (Raise (SystemExit 0)), w2)
    /\ In (EvSleep 500) (trace w2)
    /\ In (EvPrint [PStr "Exiting volume-adjust loop."]) (trace w2)
    /\ (forall (pgid : Z) (sig : signal), ~ In (EvKillpg pgid sig) (trace w2))
    /\ is_running 4000 w2 = true
    /\ find is_sox (sinks w2) <> None.
Proof.
  eexists. split; [vm_compute; reflexivity|].
  split; [cbn; tauto|]. split; [cbn; tauto|].
  split; [|split; [reflexivity | discriminate]].
  intros pgid sig Hin. cbn in Hin.
  repeat (destruct Hin as [Hin|Hin]; [discriminate Hin|]). exact Hin.
Qed.

(** C8, amended. When Ctrl+C arrives in the polling loop of a run on Linux
    (the mixer kept printing readable text), what happens to the generator
    depends on who started it. If no sox stream was listed and the script
    started the player itself, [killpg] sends SIGTERM to the player's process
    group and the player is not running any more. If a sox stream was listed
    already, the script had adopted it and started nothing, and the interrupt
    signals no process. Either way [main] ends in [sys.exit(0)]: exit
    status 0. *)
Theorem ctrl_c_in_polling_loop :
  forall (np_log10 : float -> float) (fuel : nat) (w0 w : world)
         (mean standard_deviation volume_dB : float) (si : sink_input) (t : nat),
    capture_and_analyse np_log10 fuel w0
    = (Some (Ok (mean, standard_deviation, volume_dB)), w) ->
    startswith (platform (host_of w)) "darwin" = false ->
    startswith (platform (host_of w)) "linux" = true ->
    (forall k : nat, reading_ok (amixer_out (host_of w) k) = true) ->
    ctrl_c (host_of w) = Some t ->
    (find is_sox (sinks w) = None ->
     sox_stream (host_of w) = Some si ->
     is_sox si = true ->
     (clock w + 8 <= t)%nat ->
     (t < clock w + 8 + fuel)%nat ->
     exists w2 : world,
       main np_log10 fuel w0 = (Some (Raise (SystemExit 0)), w2)
       /\ exit_status (Raise (SystemExit 0)) = 0%Z
       /\ In (EvPopen (PlayNoise mean standard_deviation (volume_dB - 20)%float) (next_pid w))
             (trace w2)
       /\ In (EvKillpg (next_pid w) SIGTERM) (trace w2)
       /\ is_running (next_pid w) w2 = false)
    /\ (find is_sox (sinks w) = Some si ->
        noise_process w = None ->
        (clock w + 5 <= t)%nat ->
        (t < clock w + 5 + fuel)%nat ->
        exists (w2 : world) (l : list event),
          main np_log10 fuel w0 = (Some (Raise (SystemExit 0)), w2)
          /\ exit_status (Raise (SystemExit 0)) = 0%Z
          /\ trace w2 = (trace w ++ l)%list
          /\ no_process_event l
          /\ procs w2 = procs w).
Proof.
  intros lg fuel w0 w mean sd vol si t Hprep Hdarwin Hlinux Hok Ht. split.
  - intros Hnone Hstream Hsox Hle Hlt.
    destruct (@play_and_adjust_volume_on_ctrl_c fuel mean sd vol w _ _
                Hnone Hstream Hsox Hok Ht Hle Hlt)
      as (w1 & before & after & Hplay & Hh & Hc & Hnp & Hp & Htr).
    unfold main, try_except, main_body. unfold bind at 1. rewrite Hprep.
    unfold bind at 1. cbn [get]. rewrite Hdarwin, Hlinux, Hplay.
    cbn [is_KeyboardInterrupt].
    assert (Hcalm : calm 4 w1) by (apply (@calm_after 4 w1 t); [congruence | lia]).
    fwd Hcalm. cbn [get bind]. autorewrite with world. rewrite Hnp.
    unfold terminate_noise, try_except. unfold bind at 1.
    rewrite killpg_getpgid_run. step_quiet Hcalm. autorewrite with world. rewrite Hp.
    cbn [raise].
    eexists. split; [reflexivity|]. split; [reflexivity|].
    unfold is_running. autorewrite with world. rewrite Htr.
    rewrite proc_lookup_update by (rewrite Hp; discriminate).
    split; [|split; [|reflexivity]].
    + rewrite <- !app_assoc. do 2 (apply in_or_app; right). cbn. auto.
    + rewrite !app_assoc. apply in_or_app. left. apply in_or_app. left.
      apply in_or_app. right. cbn. auto.
  - intros Hsome Hnp Hle Hlt.
    destruct (@play_and_adjust_volume_adopts fuel mean sd vol w si t
                Hsome Hok Hnp Ht Hle Hlt)
      as (w1 & l & Hplay & Hh & Hc & Hn & Hp & Htr & Hq).
    unfold main, try_except, main_body. unfold bind at 1. rewrite Hprep.
    unfold bind at 1. cbn [get]. rewrite Hdarwin, Hlinux, Hplay.
    cbn [is_KeyboardInterrupt].
    assert (Hcalm : calm 4 w1) by (apply (@calm_after 4 w1 t); [congruence | lia]).
    fwd Hcalm. cbn [get bind]. autorewrite with world. rewrite Hn.
    cbn [ret raise].
    eexists. eexists. split; [reflexivity|]. split; [reflexivity|].
    autorewrite with world. rewrite Htr, <- app_assoc.
    split; [reflexivity|]. split; [|assumption].
    apply Forall_app. split; [exact Hq|]. repeat constructor.
Qed.

Lemma ctrl_c_in_polling_loop_witness :
  exists w2 : world,
    main log10_at_powers 50 ctrl_c_world = (Some (Raise (SystemExit 0)), w2)
    /\ exit_status (Raise (SystemExit 0)) = 0%Z
    /\ In (EvPopen (PlayNoise 200 100 (0 - 20)%float)
                   (next_pid (snd (capture_and_analyse log10_at_powers 50 ctrl_c_world))))
          (trace w2)
    /\ In (EvKillpg (next_pid (snd (capture_and_analyse log10_at_powers 50 ctrl_c_world)))
                    SIGTERM)
          (trace w2)
    /\ is_running (next_pid (snd (capture_and_analyse log10_at_powers 50 ctrl_c_world))) w2
       = false.
Proof.
  destruct (@ctrl_c_in_polling_loop log10_at_powers 50 ctrl_c_world
              (snd (capture_and_analyse log10_at_powers 50 ctrl_c_world))
              200%float 100%float 0%float example_stream 30) as [H _].
  - vm_compute. reflexivity.
  - vm_compute. reflexivity.
  - vm_compute. reflexivity.
  - intro k. vm_compute. reflexivity.
  - vm_compute. reflexivity.
  - apply H.
    + vm_compute. reflexivity.
    + vm_compute. reflexivity.
    + reflexivity.
    + vm_compute. lia.
    + vm_compute. lia.
Defined.

(** ** A mixer line that cannot be read, later in the run *)

(** The polling loop when the mixer prints [k] readable lines and then one
    that is not: the error of that reading ends the loop. *)
Lemma poll_until_unreadable :
  forall (si : sink_input) (k fuel : nat) (w : world) (e : exn),
    ctrl_c (host_of w) = None ->
    (forall j : nat, (j < k)%nat ->
                     reading_ok (amixer_out (host_of w) (amixer_runs w + j)) = true) ->
    mixer_reading (amixer_out (host_of w) (amixer_runs w + k)) = Raise e ->
    (k < fuel)%nat ->
    exists (w1 : world) (l : list event),
      while_true fuel (poll_once si) w = (Some (Raise e), w1)
      /\ host_of w1 = host_of w
      /\ procs w1 = procs w
      /\ noise_process w1 = noise_process w
      /\ trace w1 = (trace w ++ l)%list
      /\ no_process_event l.
Proof.
  intros si k. induction k as [|k IH]; intros fuel w e Hc Hok Hbad Hfuel;
    (destruct fuel as [|fuel]; [lia|]);
    cbn [while_true]; unfold bind at 1; unfold poll_once at 1;
    unfold bind at 1; rewrite get_system_volume_run, (interrupted_none _ Hc).
  - rewrite Nat.add_0_r in Hbad. rewrite Hbad.
    eexists. exists [EvRun AmixerSgetMaster]. split; [reflexivity|].
    autorewrite with world. repeat split. repeat constructor.
  - pose proof (Hok 0%nat (Nat.lt_0_succ k)) as Hr. rewrite Nat.add_0_r in Hr.
    unfold reading_ok in Hr.
    destruct (mixer_reading (amixer_out (host_of w) (amixer_runs w))) as [[v m]|];
      [|discriminate Hr].
    destruct (get_new_volume v m) as [g|] eqn:Hg; [|discriminate Hr].
    unfold bind at 1. rewrite set_volume_run, Hg.
    rewrite interrupted_none by exact Hc.
    unfold bind at 1. rewrite sleep_run.
    rewrite interrupted_none by exact Hc.
    cbn [ret].
    match goal with |- context [while_true fuel _ ?W] =>
      destruct (IH fuel W e) as (w1 & l & Hrun & Hh & Hp & Hn & Ht & Hq)
    end.
    + exact Hc.
    + intros j Hj. autorewrite with world.
      replace (S (amixer_runs w) + j)%nat with (amixer_runs w + S j)%nat by lia.
      apply Hok. lia.
    + autorewrite with world.
      replace (S (amixer_runs w) + k)%nat with (amixer_runs w + S k)%nat by lia.
      exact Hbad.
    + lia.
    + exists w1. eexists. split; [exact Hrun|].
      rewrite Hh, Hp, Hn, Ht. autorewrite with world.
      rewrite <- !app_assoc. cbn [app].
      repeat split. repeat (apply Forall_cons; [reflexivity|]). exact Hq.
Qed.

(** X5. A mixer line that cannot be read in the polling loop ends the whole
    script with the error of that reading ([IndexError] or [ValueError]): on a
    run on Linux that started the player, after any number of good rounds,
    the error passes the handler of the loop, which is for
    [KeyboardInterrupt] only, the closing of the connection and the handler
    of [main]; the script dies with status 1, no process group was signalled,
    and the player it started goes on playing. *)
Theorem unreadable_mixer_leaves_player_running :
  forall (np_log10 : float -> float) (fuel : nat) (w0 w : world)
         (mean standard_deviation volume_dB : float) (si : sink_input)
         (k : nat) (e : exn),
    capture_and_analyse np_log10 fuel w0
    = (Some (Ok (mean, standard_deviation, volume_dB)), w) ->
    startswith (platform (host_of w)) "darwin" = false ->
    startswith (platform (host_of w)) "linux" = true ->
    find is_sox (sinks w) = None ->
    sox_stream (host_of w) = Some si ->
    is_sox si = true ->
    ctrl_c (host_of w) = None ->
    (forall j : nat, (j <= k)%nat ->
                     reading_ok (amixer_out (host_of w) (amixer_runs w + j)) = true) ->
    mixer_reading (amixer_out (host_of w) (amixer_runs w + S k)) = Raise e ->
    (k < fuel)%nat ->
    exists (w2 : world) (l : list event),
      main np_log10 fuel w0 = (Some (Raise e), w2)
      /\ exit_status (Raise e) = 1%Z
      /\ trace w2 = (trace w ++ l)%list
      /\ In (EvPopen (PlayNoise mean standard_deviation (volume_dB - 20)%float) (next_pid w)) l
      /\ (forall (pgid : Z) (sig : signal), ~ In (EvKillpg pgid sig) l)
      /\ noise_process w2 = Some (next_pid w)
      /\ is_running (next_pid w) w2 = true.
Proof.
  intros lg fuel w0 w mean sd vol si k e Hprep Hdarwin Hlinux Hnone Hstream Hsox Hc
    Hok Hbad Hfuel.
  pose proof (Hok 0%nat (Nat.le_0_l k)) as Hr. rewrite Nat.add_0_r in Hr.
  unfold reading_ok in Hr.
  destruct (mixer_reading (amixer_out (host_of w) (amixer_runs w))) as [[v m]|] eqn:Hread;
    [|discriminate Hr].
  destruct (get_new_volume v m) as [g|] eqn:Hg; [|discriminate Hr].
  assert (Hcalm : calm 8 w) by (unfold calm; rewrite Hc; exact I).
  destruct (@play_and_adjust_volume_enters_loop fuel mean sd vol w _ _ _ _
              Hnone Hstream Hsox Hread Hg Hcalm)
    as (W & Hrun & Htrace & Hh & _ & Hruns & Hnp & Hprocs).
  destruct (@poll_until_unreadable si k fuel W e)
    as (w1 & l & Hloop & Hh1 & Hp1 & Hn1 & Ht1 & Hq).
  { rewrite Hh. exact Hc. }
  { intros j Hj. rewrite Hh, Hruns.
    replace (S (amixer_runs w) + j)%nat with (amixer_runs w + S j)%nat by lia.
    apply Hok. lia. }
  { rewrite Hh, Hruns.
    replace (S (amixer_runs w) + k)%nat with (amixer_runs w + S k)%nat by lia.
    exact Hbad. }
  { exact Hfuel. }
  assert (He : is_KeyboardInterrupt e = false /\ exit_status (Raise e) = 1%Z).
  { destruct (mixer_reading_raises _ Hbad) as [-> | [msg ->]]; split; reflexivity. }
  destruct He as [Hk Hexit].
  unfold main, try_except, main_body. unfold bind at 1. rewrite Hprep.
  unfold bind at 1. cbn [get]. rewrite Hdarwin, Hlinux, Hrun.
  unfold finally, adjust_loop, try_except.
  change (while_true fuel _ W) with (while_true fuel (poll_once si) W).
  rewrite Hloop, Hk, pulse_close_run, Hk.
  eexists. eexists. split; [reflexivity|]. split; [exact Hexit|].
  autorewrite with world. rewrite Ht1, Htrace, Hn1, Hnp.
  rewrite <- !app_assoc. cbn [app].
  split; [reflexivity|].
  split; [cbn; tauto|].
  split.
  - intros pgid sig Hin.
    repeat (destruct Hin as [Hin|Hin]; [discriminate Hin|]).
    apply in_app_or in Hin. destruct Hin as [Hin|Hin].
    + unfold no_process_event in Hq. rewrite Forall_forall in Hq.
      specialize (Hq _ Hin). discriminate Hq.
    + destruct Hin as [Hin|[]]. discriminate Hin.
  - split; [reflexivity|].
    unfold is_running. autorewrite with world. rewrite Hp1, Hprocs.
    cbn [proc_lookup]. rewrite Z.eqb_refl. reflexivity.
Qed.

(** A Linux host whose mixer control disappears after three readings. *)
Definition fading_mixer_host : host :=
  {| platform := "linux";
     amixer_out := fun k => if (k <? 3)%nat
                            then "  Front Left: Playback 26214 [40%] [on]"
                            else "amixer: Unable to find simple control 'Master',0";
     sox_stream := Some example_stream;
     sox_stat := [(100, 1); (300, 1)]%float;
     timestamp := "1700000000.5";
     ctrl_c := None |}.

Lemma unreadable_mixer_leaves_player_running_witness :
  exists (w2 : world) (l : list event),
    main log10_at_powers 50 (boot fading_mixer_host ["o"] (Some [(100, 1)]%float))
    = (Some (Raise (IndexError "list index out of range")), w2)
    /\ exit_status (Raise (IndexError "list index out of range")) = 1%Z
    /\ trace w2
       = (trace (snd (capture_and_analyse log10_at_powers 50
                        (boot fading_mixer_host ["o"] (Some [(100, 1)]%float)))) ++ l)%list
    /\ In (EvPopen (PlayNoise 200 100 (0 - 20)%float) 4242) l
    /\ (forall (pgid : Z) (sig : signal), ~ In (EvKillpg pgid sig) l)
    /\ noise_process w2 = Some 4242%Z
    /\ is_running 4242 w2 = true.
Proof.
  apply (@unreadable_mixer_leaves_player_running log10_at_powers 50
           (boot fading_mixer_host ["o"] (Some [(100, 1)]%float))
           (snd (capture_and_analyse log10_at_powers 50
                   (boot fading_mixer_host ["o"] (Some [(100, 1)]%float))))
           200%float 100%float 0%float example_stream 2
           (IndexError "list index out of range")).
  - vm_compute. reflexivity.
  - vm_compute. reflexivity.
  - vm_compute. reflexivity.
  - vm_compute. reflexivity.
  - vm_compute. reflexivity.
  - reflexivity.
  - vm_compute. reflexivity.
  - intros j Hj.
    destruct j as [|[|[|j]]]; [vm_compute; reflexivity .. | lia].
  - vm_compute. reflexivity.
  - lia.
Defined.

(** ** The answer [r] where nothing records *)

(** C9, on the code. On a platform that is neither macOS nor Linux, with old
    data present, the answer [r] leaves the prompt and nothing is recorded:
    the analysis goes on with the old audio. The path for a first run, two
    lines below, records on that same platform. *)
Theorem answer_r_records_nothing_on_win32 :
  let h := example_host "win32" "" [(100, 1)]%float in
  (exists w1 : world,
      prompt_loop 1 (boot h ["r"] (Some [(100, 1)]%float)) = (Some (Ok tt), w1)
      /\ trace w1 = [EvInput prompt])
  /\ ~ In (EvRun (SoxRecord 10))
          (trace (snd (capture_and_analyse log10_at_powers 1
                         (boot h ["r"] (Some [(100, 1)]%float)))))
  /\ In (EvRun (SoxRecord 10))
        (trace (snd (capture_and_analyse log10_at_powers 1 (boot h [] None)))).
Proof.
  intro h. split; [|split].
  - eexists. split; [vm_compute; reflexivity | reflexivity].
  - intro Hin. vm_compute in Hin.
    repeat (destruct Hin as [Hin|Hin]; [discriminate Hin|]). exact Hin.
  - vm_compute. tauto.
Qed.
